(** * JavaDecomp: the bytecode debugger of [decompiler_advanced.py]

    A shallow embedding of class [JavaVirtualDebugger]: the parser of the
    [javap] listing, the constant-pool extractor, the stack-machine
    interpreter and the run control ([reset], [step],
    [run_to_next_breakpoint]), followed by the properties proved of them.

    Conventions of the embedding.
    - A Python [str] is a [string]; a character is a code point below 256
      (text with larger code points is outside the model).
    - A Python [int] is a [Z].  [int(...)] and [str(...)] are taken
      without the interpreter's configurable limit on the number of
      decimal digits ([max_str_digits], 4300 unless it is changed, beyond
      which both raise [ValueError]).  Where a theorem bounds its
      integers by [within_digit_limit], it is so that these conversions
      return in the source as they do here.
    - Memory is not a resource of the model: a text that CPython refuses
      with [MemoryError] because the machine cannot hold it is given as
      the text it would be.
    - A Python [list] keeps Python's order: [append] adds at the end and
      [pop()] removes the last element.
    - A [dict] whose order is displayed ([variables]) is an association
      list in insertion order; a [dict] that is only looked up
      ([string_constants], the line map) is a [gmap].
    - An uncaught exception is an outcome of its own and carries the
      object as the exception leaves it: what was assigned before the
      [raise] stays assigned. *)

From Stdlib Require Import ZArith String Ascii List Bool Lia Sorted.
From stdpp Require Import base option list gmap strings pretty.

Open Scope string_scope.
Open Scope list_scope.
Open Scope Z_scope.

(** ** Text primitives *)

Module PyText.

Definition code (c : ascii) : nat := nat_of_ascii c.

(** [\d] of [re] and the digits [int()] reads, below code point 256. *)
Definition is_digit (c : ascii) : bool :=
  (48 <=? code c)%nat && (code c <=? 57)%nat.

(** [\s] of [re], which is also what [str.strip()] removes: below code
    point 256 these are 9..13, 28..32, 133 and 160. *)
Definition is_space (c : ascii) : bool :=
  let n := code c in
  ((9 <=? n)%nat && (n <=? 13)%nat) || ((28 <=? n)%nat && (n <=? 32)%nat)
  || (n =? 133)%nat || (n =? 160)%nat.

(** The class [[a-zA-Z_]]. *)
Definition is_ident (c : ascii) : bool :=
  let n := code c in
  ((97 <=? n)%nat && (n <=? 122)%nat) || ((65 <=? n)%nat && (n <=? 90)%nat)
  || (n =? 95)%nat.

Definition newline : ascii := ascii_of_nat 10.
Definition dquote : ascii := ascii_of_nat 34.

Definition is_empty (s : string) : bool :=
  match s with EmptyString => true | String _ _ => false end.

(** The longest prefix of characters in class [p], and what follows it:
    a greedy [p*]. *)
Fixpoint span (p : ascii -> bool) (s : string) : string * string :=
  match s with
  | EmptyString => (EmptyString, EmptyString)
  | String c r =>
      if p c then let '(a, b) := span p r in (String c a, b)
      else (EmptyString, s)
  end.

(** Matches the literal [lit] at the start of [s]; returns the rest. *)
Fixpoint eat (lit s : string) : option string :=
  match lit with
  | EmptyString => Some s
  | String c lit' =>
      match s with
      | EmptyString => None
      | String d s' => if Ascii.eqb c d then eat lit' s' else None
      end
  end.

(** A greedy [p+]: a non-empty run of class [p], and the rest. *)
Definition many1 (p : ascii -> bool) (s : string) : option (string * string) :=
  let '(a, b) := span p s in
  if is_empty a then None else Some (a, b).

(** [re.search] of a pattern given by its matcher at one position: the
    first position, from the left, where the matcher succeeds. *)
Fixpoint search {A : Type} (m : string -> option A) (s : string) : option A :=
  match m s with
  | Some a => Some a
  | None =>
      match s with
      | EmptyString => None
      | String _ s' => search m s'
      end
  end.

(** [sub in s]. *)
Definition contains (sub s : string) : bool :=
  match search (eat sub) s with Some _ => true | None => false end.

Definition lstrip (s : string) : string := snd (span is_space s).

Fixpoint rstrip (s : string) : string :=
  match s with
  | EmptyString => EmptyString
  | String c r =>
      let r' := rstrip r in
      if is_space c && is_empty r' then EmptyString else String c r'
  end.

(** [s.strip()]. *)
Definition strip (s : string) : string := rstrip (lstrip s).

(** [s.split('\n')]: never empty, [''] for the empty text. *)
Fixpoint split_lines (s : string) : list string :=
  match s with
  | EmptyString => [EmptyString]
  | String c r =>
      if Ascii.eqb c newline then EmptyString :: split_lines r
      else match split_lines r with
           | h :: t => String c h :: t
           | [] => [String c EmptyString]
           end
  end.

Definition digit_value (c : ascii) : Z := Z.of_nat (code c) - 48.

Fixpoint digits_acc (acc : Z) (s : string) : Z :=
  match s with
  | EmptyString => acc
  | String c r => digits_acc (10 * acc + digit_value c) r
  end.

(** [int(g)] for a group [g] matched by [\d+]. *)
Definition digits_value (s : string) : Z := digits_acc 0 s.

(** Digits with single underscores between them, as [int()] reads them;
    [after_digit] says whether the previous character was a digit. *)
Fixpoint int_body (acc : Z) (after_digit : bool) (s : string) : option Z :=
  match s with
  | EmptyString => if after_digit then Some acc else None
  | String c r =>
      if is_digit c then int_body (10 * acc + digit_value c) true r
      else if Ascii.eqb c "_" && after_digit then int_body acc false r
      else None
  end.

(** [int(s)] in base 10; [None] is [ValueError]. *)
Definition py_int (s : string) : option Z :=
  match strip s with
  | String "+" r => int_body 0 false r
  | String "-" r => Z.opp <$> int_body 0 false r
  | t => int_body 0 false t
  end.

Definition lower (c : ascii) : ascii :=
  let n := code c in
  if (65 <=? n)%nat && (n <=? 90)%nat then ascii_of_nat (n + 32) else c.

Fixpoint lowercase (s : string) : string :=
  match s with
  | EmptyString => EmptyString
  | String c r => String (lower c) (lowercase r)
  end.

(** The states of the automaton of a decimal floating-point literal:
    [digitpart] is [digit (["_"] digit)*], a number is
    [[digitpart] "." digitpart | digitpart ["."]], followed by an
    optional exponent [("e"|"E") ["+"|"-"] digitpart]. *)
Inductive fstate : Type :=
| F0 | FInt | FIntU | FDot0 | FDot | FFrac | FFracU | FE | FESign | FExp | FExpU.

Definition is_e (c : ascii) : bool := Ascii.eqb c "e" || Ascii.eqb c "E".
Definition is_sign (c : ascii) : bool := Ascii.eqb c "+" || Ascii.eqb c "-".

Definition fstep (q : fstate) (c : ascii) : option fstate :=
  match q with
  | F0 => if is_digit c then Some FInt
          else if Ascii.eqb c "." then Some FDot0 else None
  | FInt => if is_digit c then Some FInt
            else if Ascii.eqb c "_" then Some FIntU
            else if Ascii.eqb c "." then Some FDot
            else if is_e c then Some FE else None
  | FIntU => if is_digit c then Some FInt else None
  | FDot0 => if is_digit c then Some FFrac else None
  | FDot => if is_digit c then Some FFrac
            else if is_e c then Some FE else None
  | FFrac => if is_digit c then Some FFrac
             else if Ascii.eqb c "_" then Some FFracU
             else if is_e c then Some FE else None
  | FFracU => if is_digit c then Some FFrac else None
  | FE => if is_sign c then Some FESign
          else if is_digit c then Some FExp else None
  | FESign => if is_digit c then Some FExp else None
  | FExp => if is_digit c then Some FExp
            else if Ascii.eqb c "_" then Some FExpU else None
  | FExpU => if is_digit c then Some FExp else None
  end.

Definition faccept (q : fstate) : bool :=
  match q with
  | FInt | FDot | FFrac | FExp => true
  | _ => false
  end.

Fixpoint frun (q : fstate) (s : string) : bool :=
  match s with
  | EmptyString => faccept q
  | String c r =>
      match fstep q c with
      | Some q' => frun q' r
      | None => false
      end
  end.

Definition float_body (s : string) : bool :=
  let l := lowercase s in
  String.eqb l "inf" || String.eqb l "infinity" || String.eqb l "nan"
  || frun F0 s.

(** Whether [float(s)] returns; [false] is [ValueError]. *)
Definition py_float_accepts (s : string) : bool :=
  match strip s with
  | String c r => if is_sign c then float_body r else float_body (String c r)
  | EmptyString => false
  end.

End PyText.

(** ** The regular expressions of the source

    Each pattern is written as a matcher at one position, used under
    [PyText.search] where the source calls [re.search] on an unanchored
    pattern.  Lines come from [split('\n')] and hold no newline, so [.]
    matches every character and [$] is the end of the line.  A greedy
    class followed by a character outside the class never gives
    characters back, so the longest run is the only candidate; the one
    place where the engine backtracks, [\s+(.+)$], is written out in
    [spaces_then_rest]. *)

Module Patterns.
Import PyText.

(** [line (\d+):] at the start of [s]; the group as an integer. *)
Definition line_marker_at (s : string) : option Z :=
  s1 ← eat "line " s;
  '(ds, s2) ← many1 is_digit s1;
  _ ← eat ":" s2;
  Some (digits_value ds).

(** [re.search(r"line (\d+):", line)], then [int(group(1))]. *)
Definition search_line_marker (line : string) : option Z :=
  search line_marker_at line.

(** Group 3 of the instruction pattern is lazy and is followed by an
    optional comment, from [//] on, and the end of the line: it is the
    text up to the first [//], or all of it. *)
Fixpoint before_comment (s : string) : string :=
  match s with
  | EmptyString => EmptyString
  | String c r =>
      match eat "//" s with
      | Some _ => EmptyString
      | None => String c (before_comment r)
      end
  end.

(** The instruction pattern of [parse_bytecode], anchored at the start
    of the line: optional spaces, [(\d+)], a colon and a space,
    [([a-zA-Z_]+)], the lazy group 3, the optional comment.  Returns
    [int(group(1))], [group(2)] and [group(3)]. *)
Definition match_instruction (line : string) : option (Z * string * string) :=
  '(ds, s1) ← many1 is_digit (lstrip line);
  s2 ← eat ": " s1;
  '(op, s3) ← many1 is_ident s2;
  Some (digits_value ds, op, before_comment s3).

Fixpoint last_char (s : string) : option ascii :=
  match s with
  | EmptyString => None
  | String c EmptyString => Some c
  | String _ r => last_char r
  end.

(** [\s+(.+)$]: after the longest run of spaces the group is all that
    follows; when nothing follows, the run gives back its last
    character to the group, which needs a run of two at least. *)
Definition spaces_then_rest (s : string) : option string :=
  '(w, r) ← many1 is_space s;
  if is_empty r then
    match w with
    | String _ (String _ _) => c ← last_char w; Some (String c EmptyString)
    | _ => None
    end
  else Some r.

(** [#\d+\s+=\s+String\s+#\d+\s+//\s+(.+)$] at the start of [s]. *)
Definition string_entry_at (s : string) : option string :=
  s ← eat "#" s;
  '(_, s) ← many1 is_digit s;
  '(_, s) ← many1 is_space s;
  s ← eat "=" s;
  '(_, s) ← many1 is_space s;
  s ← eat "String" s;
  '(_, s) ← many1 is_space s;
  s ← eat "#" s;
  '(_, s) ← many1 is_digit s;
  '(_, s) ← many1 is_space s;
  s ← eat "//" s;
  spaces_then_rest s.

(** [#\d+\s+=\s+Utf8\s+(.+)$] at the start of [s]. *)
Definition utf8_entry_at (s : string) : option string :=
  s ← eat "#" s;
  '(_, s) ← many1 is_digit s;
  '(_, s) ← many1 is_space s;
  s ← eat "=" s;
  '(_, s) ← many1 is_space s;
  s ← eat "Utf8" s;
  spaces_then_rest s.

(** [#(\d+)] at the start of [s]; the group as an integer. *)
Definition hash_index_at (s : string) : option Z :=
  s ← eat "#" s;
  '(ds, _) ← many1 is_digit s;
  Some (digits_value ds).

(** [int(re.search(r'#(\d+)', s).group(1))]; [None] when the search
    finds nothing (the source then fails on [.group]). *)
Definition search_hash_index (s : string) : option Z :=
  search hash_index_at s.

End Patterns.

(** ** Data model *)

(** An element of [parse_bytecode]'s result: the dict with keys
    ['offset'], ['opcode'], ['operands'] and ['line']. *)
Record instruction : Type := Instruction {
  offset : Z;
  opcode : string;
  operands : string;
  line : option Z
}.

(** What the stack and the variables hold: an [int], a [str] or [None]. *)
Inductive value : Type :=
| VInt (n : Z)
| VStr (s : string)
| VNone.

Inductive exec_state : Type := Stopped | Running | Paused.

(** The attributes of a [JavaVirtualDebugger]. *)
Record debugger : Type := Debugger {
  bytecode : string;
  instructions : list instruction;
  breakpoints : list Z;
  output : list string;
  variables : list (string * value);
  stack : list value;
  pc : Z;
  current_instruction_index : nat;
  execution_state : exec_state;
  line_to_instruction : gmap Z (list nat);
  last_breakpoint_hit : option Z;
  program_output : list string;
  string_constants : gmap Z string
}.

Inductive exn : Type :=
| AttributeError | ValueError | TypeError | ZeroDivisionError | OverflowError.

(** How a call on the debugger ends.  [Raised e d]: exception [e] left
    the call with the object in state [d].  [OutOfModel]: the call
    reached Python behaviour that is not embedded here: the value of a
    [float], which [ldc] never produces ([ldc_outcomes] below), the text
    of a [float] under the conversions [e], [f] and [g] of a format, and
    a character above code point 255 under its conversion [c]. *)
Inductive outcome : Type :=
| Done (d : debugger)
| Raised (e : exn) (d : debugger)
| OutOfModel.

(** The result of a binary operator on two values. *)
Inductive opres : Type :=
| Val (v : value)
| Exc (e : exn)
| NotEmbedded.

#[global] Instance instruction_eq_dec : EqDecision instruction.
Proof. solve_decision. Defined.
#[global] Instance value_eq_dec : EqDecision value.
Proof. solve_decision. Defined.
#[global] Instance exec_state_eq_dec : EqDecision exec_state.
Proof. solve_decision. Defined.
#[global] Instance exn_eq_dec : EqDecision exn.
Proof. solve_decision. Defined.

(** Assignments to one attribute. *)
Definition set_output (v : list string) (d : debugger) : debugger :=
  Debugger (bytecode d) (instructions d) (breakpoints d) v (variables d)
    (stack d) (pc d) (current_instruction_index d) (execution_state d)
    (line_to_instruction d) (last_breakpoint_hit d) (program_output d)
    (string_constants d).
Definition set_variables (v : list (string * value)) (d : debugger) : debugger :=
  Debugger (bytecode d) (instructions d) (breakpoints d) (output d) v
    (stack d) (pc d) (current_instruction_index d) (execution_state d)
    (line_to_instruction d) (last_breakpoint_hit d) (program_output d)
    (string_constants d).
Definition set_stack (v : list value) (d : debugger) : debugger :=
  Debugger (bytecode d) (instructions d) (breakpoints d) (output d)
    (variables d) v (pc d) (current_instruction_index d) (execution_state d)
    (line_to_instruction d) (last_breakpoint_hit d) (program_output d)
    (string_constants d).
Definition set_current_instruction_index (v : nat) (d : debugger) : debugger :=
  Debugger (bytecode d) (instructions d) (breakpoints d) (output d)
    (variables d) (stack d) (pc d) v (execution_state d)
    (line_to_instruction d) (last_breakpoint_hit d) (program_output d)
    (string_constants d).
Definition set_execution_state (v : exec_state) (d : debugger) : debugger :=
  Debugger (bytecode d) (instructions d) (breakpoints d) (output d)
    (variables d) (stack d) (pc d) (current_instruction_index d) v
    (line_to_instruction d) (last_breakpoint_hit d) (program_output d)
    (string_constants d).
Definition set_last_breakpoint_hit (v : option Z) (d : debugger) : debugger :=
  Debugger (bytecode d) (instructions d) (breakpoints d) (output d)
    (variables d) (stack d) (pc d) (current_instruction_index d)
    (execution_state d) (line_to_instruction d) v (program_output d)
    (string_constants d).
Definition set_program_output (v : list string) (d : debugger) : debugger :=
  Debugger (bytecode d) (instructions d) (breakpoints d) (output d)
    (variables d) (stack d) (pc d) (current_instruction_index d)
    (execution_state d) (line_to_instruction d) (last_breakpoint_hit d) v
    (string_constants d).
Definition set_breakpoints (v : list Z) (d : debugger) : debugger :=
  Debugger (bytecode d) (instructions d) v (output d)
    (variables d) (stack d) (pc d) (current_instruction_index d)
    (execution_state d) (line_to_instruction d) (last_breakpoint_hit d)
    (program_output d) (string_constants d).

(** ** Python values and operators *)

Definition nl : string := String PyText.newline EmptyString.

(** [str(v)]. *)
Definition py_str (v : value) : string :=
  match v with
  | VInt n => pretty n
  | VStr s => s
  | VNone => "None"
  end.

(** [sep.join(l)]. *)
Definition join (sep : string) (l : list string) : string := String.concat sep l.

Fixpoint repeat_str (n : nat) (s : string) : string :=
  match n with
  | O => EmptyString
  | S n' => s +:+ repeat_str n' s
  end.

(** [a + b]. *)
Definition py_add (a b : value) : opres :=
  match a, b with
  | VInt x, VInt y => Val (VInt (x + y))
  | VStr s, VStr t => Val (VStr (s +:+ t))
  | _, _ => Exc TypeError
  end.

(** [a - b]. *)
Definition py_sub (a b : value) : opres :=
  match a, b with
  | VInt x, VInt y => Val (VInt (x - y))
  | _, _ => Exc TypeError
  end.

(** [sys.maxsize], the largest [Py_ssize_t], and the largest C [int],
    as the 64-bit builds of CPython have them. *)
Definition ssize_max : Z := 2 ^ 63 - 1.
Definition int_max : Z := 2 ^ 31 - 1.

(** [s * n] and [n * s].  The count is first converted to an index
    ([OverflowError] when it does not fit, on either side), a count
    below one gives the empty text, and a text whose length would pass
    [sys.maxsize] is refused with [OverflowError]. *)
Definition py_repeat (s : string) (n : Z) : opres :=
  if (n <? - ssize_max - 1) || (ssize_max <? n) then Exc OverflowError
  else if n <? 1 then Val (VStr "")
  else if ssize_max / n <? Z.of_nat (String.length s) then Exc OverflowError
  else Val (VStr (repeat_str (Z.to_nat n) s)).

(** [a * b]. *)
Definition py_mul (a b : value) : opres :=
  match a, b with
  | VInt x, VInt y => Val (VInt (x * y))
  | VStr s, VInt n | VInt n, VStr s => py_repeat s n
  | _, _ => Exc TypeError
  end.

(** [a // b]: the quotient rounded toward minus infinity. *)
Definition py_floordiv (a b : value) : opres :=
  match a, b with
  | VInt x, VInt y => if y =? 0 then Exc ZeroDivisionError else Val (VInt (x / y))
  | _, _ => Exc TypeError
  end.

(** *** Printf-style formatting

    [fmt % arg] for a right operand that is an [int], a [str] or [None]:
    one argument, neither a tuple nor a mapping.  The format is read
    from left to right and the first error met is the one raised.  A
    conversion specifier is [%], flags among [-+ #0], a width (digits or
    [*]), a precision ([.] and digits or [*]), one of [h], [l], [L],
    which is ignored, and the conversion character. *)

Module PyFormat.
Import PyText.

Record fspec : Type := FSpec {
  f_ljust : bool;
  f_sign : bool;
  f_blank : bool;
  f_alt : bool;
  f_zero : bool;
  f_width : option Z;
  f_prec : option Z
}.

Definition no_spec : fspec := FSpec false false false false false None None.

Definition with_flag (c : ascii) (sp : fspec) : option fspec :=
  let '(FSpec l s b a z w p) := sp in
  if Ascii.eqb c "-" then Some (FSpec true s b a z w p)
  else if Ascii.eqb c "+" then Some (FSpec l true b a z w p)
  else if Ascii.eqb c " " then Some (FSpec l s true a z w p)
  else if Ascii.eqb c "#" then Some (FSpec l s b true z w p)
  else if Ascii.eqb c "0" then Some (FSpec l s b a true w p)
  else None.

Definition with_width (w : Z) (sp : fspec) : fspec :=
  let '(FSpec l s b a z _ p) := sp in FSpec l s b a z (Some w) p.

Definition with_prec (p : Z) (sp : fspec) : fspec :=
  let '(FSpec l s b a z w _) := sp in FSpec l s b a z w (Some p).

Definition one_of (c : ascii) (set : string) : bool :=
  existsb (Ascii.eqb c) (list_ascii_of_string set).

Definition text_length (s : string) : Z := Z.of_nat (String.length s).

Definition fill_with (c : ascii) (k : Z) : string :=
  repeat_str (Z.to_nat k) (String c EmptyString).

(** The digit [k], below sixteen, in lower case. *)
Definition digit_char (k : Z) : ascii :=
  if k <? 10 then ascii_of_nat (Z.to_nat (48 + k))
  else ascii_of_nat (Z.to_nat (87 + k)).

(** The digits of [m >= 0] in base [2 ^ bits], the most significant
    first. *)
Definition digits_pow2 (bits m : Z) : string :=
  let count := S (Z.to_nat (Z.log2 m / bits)) in
  string_of_list_ascii
    (map (fun i => digit_char (Z.land (Z.shiftr m (bits * Z.of_nat i)) (2 ^ bits - 1)))
       (rev (seq 0 count))).

Definition upper (c : ascii) : ascii :=
  let n := code c in
  if (97 <=? n)%nat && (n <=? 122)%nat then ascii_of_nat (n - 32) else c.

Fixpoint uppercase (s : string) : string :=
  match s with
  | EmptyString => EmptyString
  | String c r => String (upper c) (uppercase r)
  end.

(** *** [repr] and [ascii] of a text *)

Definition backslash : ascii := ascii_of_nat 92.

(** A backslash and the character [c]. *)
Definition escaped (c : ascii) : string := String backslash (String c EmptyString).

(** The escape of a code point in two hexadecimal digits. *)
Definition escape_x (c : ascii) : string :=
  let n := Z.of_nat (code c) in
  escaped "x" +:+ String (digit_char (n / 16)) (String (digit_char (n mod 16)) EmptyString).

(** Above code point 127 and below 256, the characters that
    [str.isprintable] accepts: all from 161 on but the soft hyphen. *)
Definition printable_high (n : nat) : bool :=
  (161 <=? n)%nat && negb (n =? 173)%nat.

Definition repr_char (quote : ascii) (ascii_only : bool) (c : ascii) : string :=
  let n := code c in
  if Ascii.eqb c quote || Ascii.eqb c backslash then escaped c
  else if (n =? 9)%nat then escaped "t"
  else if (n =? 10)%nat then escaped "n"
  else if (n =? 13)%nat then escaped "r"
  else if (n <? 32)%nat || (n =? 127)%nat then escape_x c
  else if (n <? 127)%nat then String c EmptyString
  else if ascii_only then escape_x c
  else if printable_high n then String c EmptyString
  else escape_x c.

Fixpoint repr_body (quote : ascii) (ascii_only : bool) (s : string) : string :=
  match s with
  | EmptyString => EmptyString
  | String c r => repr_char quote ascii_only c +:+ repr_body quote ascii_only r
  end.

(** Single quotes, unless the text holds one and no double quote. *)
Definition repr_str (ascii_only : bool) (s : string) : string :=
  let quote :=
    if one_of "'" s && negb (one_of dquote s) then dquote else "'"%char in
  String quote (repr_body quote ascii_only s +:+ String quote EmptyString).

(** [repr(v)] and [ascii(v)]. *)
Definition py_repr (ascii_only : bool) (v : value) : string :=
  match v with
  | VStr s => repr_str ascii_only s
  | _ => py_str v
  end.

(** *** One conversion *)

(** The text of the integer [n] under [d], [i], [u], [o], [x] or [X]:
    the sign, the base marker of the alternate form, zeros up to the
    precision, the digits. *)
Definition number_text (c : ascii) (sp : fspec) (n : Z) : string :=
  let m := Z.abs n in
  let digits :=
    if Ascii.eqb c "o" then digits_pow2 3 m
    else if Ascii.eqb c "x" then digits_pow2 4 m
    else if Ascii.eqb c "X" then uppercase (digits_pow2 4 m)
    else pretty m in
  let marker :=
    if f_alt sp && one_of c "oxX"
    then String "0" (String c EmptyString) else EmptyString in
  let zeros :=
    match f_prec sp with
    | Some p => fill_with "0" (p - text_length digits)
    | None => EmptyString
    end in
  (if n <? 0 then "-" else "") +:+ marker +:+ zeros +:+ digits.

(** The field written for the converted text [text]: the precision cuts
    the text of [s], [r] and [a]; a number gets its sign; the field is
    padded to the width, on the left with spaces or, under the flag [0]
    of a number, with zeros after the sign and the base marker, or on
    the right under the flag [-]. *)
Definition output_field (sp : fspec) (c : ascii) (numeric : bool) (text : string)
  : string :=
  let len := text_length text in
  let fast :=
    match f_width sp with Some w => w <=? len | None => true end
    && match f_prec sp with Some p => len <=? p | None => true end
    && negb (f_sign sp || f_blank sp) in
  if fast then text
  else
    let text :=
      match f_prec sp with
      | Some p =>
          if one_of c "sra" && (p <? len) then substring 0 (Z.to_nat p) text
          else text
      | None => text
      end in
    let '(signchar, body) :=
      if numeric then
        match text with
        | String ch r =>
            if one_of ch "-+" then (Some ch, r)
            else if f_sign sp then (Some "+"%char, text)
            else if f_blank sp then (Some " "%char, text)
            else (None, text)
        | EmptyString => (None, text)
        end
      else (None, text) in
    let show (o : option ascii) : string :=
      match o with Some ch => String ch EmptyString | None => EmptyString end in
    let len := text_length body in
    let width := Z.max (default (-1) (f_width sp)) len in
    let zero_fill := numeric && f_zero sp in
    let width :=
      match signchar with
      | Some _ => if len <? width then width - 1 else width
      | None => width
      end in
    let marked := f_alt sp && one_of c "oxX" in
    let marker := if marked then substring 0 2 body else EmptyString in
    let body := if marked then substring 2 (String.length body - 2)%nat body else body in
    let width := if marked then Z.max 0 (width - 2) else width in
    let len := text_length body in
    let left := if (len <? width) && negb (f_ljust sp) then width - len else 0 in
    let right := if (len <? width) && f_ljust sp then width - len else 0 in
    if zero_fill then
      show signchar +:+ marker +:+ fill_with "0" left +:+ body +:+ fill_with " " right
    else
      fill_with " " left +:+ show signchar +:+ marker +:+ body +:+ fill_with " " right.

(** The character that [c] writes: that of an [int] below [0x110000]
    or the one of a text of length one. *)
Definition char_text (v : value) : opres :=
  match v with
  | VInt n =>
      if (n <? 0) || (1114111 <? n) then Exc OverflowError
      else if n <? 256 then Val (VStr (String (ascii_of_nat (Z.to_nat n)) EmptyString))
      else NotEmbedded
  | VStr (String ch EmptyString) => Val (VStr (String ch EmptyString))
  | _ => Exc TypeError
  end.

(** The field for the argument [v] under the conversion character [c]. *)
Definition convert (sp : fspec) (c : ascii) (v : value) : opres :=
  if Ascii.eqb c "s" then Val (VStr (output_field sp c false (py_str v)))
  else if Ascii.eqb c "r" then Val (VStr (output_field sp c false (py_repr false v)))
  else if Ascii.eqb c "a" then Val (VStr (output_field sp c false (py_repr true v)))
  else if one_of c "diuoxX" then
    match v with
    | VInt n =>
        if int_max - 3 <? default 0 (f_prec sp) then Exc OverflowError
        else Val (VStr (output_field sp c true (number_text c sp n)))
    | _ => Exc TypeError
    end
  else if one_of c "eEfFgG" then
    match v with
    | VInt _ => NotEmbedded
    | _ => Exc TypeError
    end
  else if Ascii.eqb c "c" then
    match char_text v with
    | Val (VStr t) => Val (VStr (output_field sp c false t))
    | r => r
    end
  else Exc ValueError.

(** *** The format, character by character *)

(** Where the reader stands: in plain text, or in a conversion
    specifier after its [%], a flag, a digit of the width, the [*] of
    the width, the [.], a digit of the precision, the [*] of the
    precision, or the length modifier. *)
Inductive place : Type :=
| Text | Start | Flags | Width | WidthStar | Dot | Prec | PrecStar | Length.

(** The argument is [None] once a conversion or a [*] has taken it. *)
Record reader : Type := Reader {
  r_place : place;
  r_spec : fspec;
  r_arg : option value;
  r_out : string
}.

Inductive progress : Type :=
| Go (st : reader)
| Stop (r : opres).

Definition at_conversion (st : reader) (c : ascii) : progress :=
  match r_arg st with
  | None => Stop (Exc TypeError)
  | Some v =>
      match convert (r_spec st) c v with
      | Val piece => Go (Reader Text no_spec None (r_out st +:+ py_str piece))
      | r => Stop r
      end
  end.

Definition at_length (st : reader) (c : ascii) : progress :=
  if one_of c "hlL" then Go (Reader Length (r_spec st) (r_arg st) (r_out st))
  else at_conversion st c.

(** A [*] takes the argument, which must be an [int] that fits the C
    type, [bound] being its largest value. *)
Definition at_star (bound : Z) (next : place) (st : reader) : progress :=
  match r_arg st with
  | None => Stop (Exc TypeError)
  | Some (VInt n) =>
      if (n <? - bound - 1) || (bound <? n) then Stop (Exc OverflowError)
      else Go (Reader next (r_spec st) None (r_out st))
  | Some _ => Stop (Exc TypeError)
  end.

Definition at_precision (st : reader) (c : ascii) : progress :=
  if Ascii.eqb c "*" then at_star int_max PrecStar st
  else if is_digit c then
    let p := 10 * default 0 (f_prec (r_spec st)) + digit_value c in
    if int_max <? p then Stop (Exc ValueError)
    else Go (Reader Prec (with_prec p (r_spec st)) (r_arg st) (r_out st))
  else at_length st c.

Definition at_dot (st : reader) (c : ascii) : progress :=
  if Ascii.eqb c "." then
    Go (Reader Dot (with_prec 0 (r_spec st)) (r_arg st) (r_out st))
  else at_length st c.

Definition at_width (st : reader) (c : ascii) : progress :=
  if is_digit c then
    let w := 10 * default 0 (f_width (r_spec st)) + digit_value c in
    if ssize_max <? w then Stop (Exc ValueError)
    else Go (Reader Width (with_width w (r_spec st)) (r_arg st) (r_out st))
  else at_dot st c.

Definition at_flags (st : reader) (c : ascii) : progress :=
  match with_flag c (r_spec st) with
  | Some sp => Go (Reader Flags sp (r_arg st) (r_out st))
  | None =>
      if Ascii.eqb c "*" then at_star ssize_max WidthStar st
      else at_width st c
  end.

(** One character of the format. *)
Definition read_char (st : reader) (c : ascii) : progress :=
  match r_place st with
  | Text =>
      if Ascii.eqb c "%" then Go (Reader Start no_spec (r_arg st) (r_out st))
      else Go (Reader Text no_spec (r_arg st) (r_out st +:+ String c EmptyString))
  | Start =>
      if Ascii.eqb c "%" then Go (Reader Text no_spec (r_arg st) (r_out st +:+ "%"))
      else if Ascii.eqb c "(" then Stop (Exc TypeError)
      else at_flags st c
  | Flags => at_flags st c
  | Width => at_width st c
  | WidthStar => at_dot st c
  | Dot => at_precision st c
  | Prec =>
      if is_digit c then at_precision st c else at_length st c
  | PrecStar => at_length st c
  | Length => at_conversion st c
  end.

(** The end of the format: inside a specifier the format is incomplete
    ([ValueError]); an argument that no conversion took is a
    [TypeError]. *)
Definition at_end (st : reader) : opres :=
  match r_place st with
  | Text =>
      match r_arg st with
      | Some _ => Exc TypeError
      | None => Val (VStr (r_out st))
      end
  | _ => Exc ValueError
  end.

Fixpoint read (st : reader) (fmt : string) : opres :=
  match fmt with
  | EmptyString => at_end st
  | String c r =>
      match read_char st c with
      | Go st' => read st' r
      | Stop res => res
      end
  end.

(** [fmt % arg]. *)
Definition py_format (fmt : string) (arg : value) : opres :=
  read (Reader Text no_spec (Some arg) EmptyString) fmt.

End PyFormat.

(** [a % b]: the remainder of [//], with the sign of [b]; with a [str]
    on the left, printf-style formatting, whatever is on the right. *)
Definition py_mod (a b : value) : opres :=
  match a, b with
  | VInt x, VInt y => if y =? 0 then Exc ZeroDivisionError else Val (VInt (x mod y))
  | VStr s, _ => PyFormat.py_format s b
  | _, _ => Exc TypeError
  end.

(** The interpreter's default limit on the decimal digits of an [int]
    that [int()] reads or [str()] writes,
    [sys.int_info.default_max_str_digits]. *)
Definition max_str_digits : Z := 4300.

(** The integers that [str()] writes under that limit, which are those
    whose decimal text [int()] reads back. *)
Definition within_digit_limit (n : Z) : Prop := Z.abs n < 10 ^ max_str_digits.

(** [l.pop()] on a non-empty list: the last element and the others. *)
Fixpoint pop {A : Type} (l : list A) : option (A * list A) :=
  match l with
  | [] => None
  | x :: r =>
      match pop r with
      | None => Some (x, [])
      | Some (y, r') => Some (y, x :: r')
      end
  end.

(** [d[k] = v] on a dict kept in insertion order. *)
Fixpoint dict_set (k : string) (v : value) (l : list (string * value))
  : list (string * value) :=
  match l with
  | [] => [(k, v)]
  | (k', v') :: r =>
      if String.eqb k' k then (k, v) :: r else (k', v') :: dict_set k v r
  end.

(** ** Parsing *)

Import PyText Patterns.

(** One round of the loop of [parse_bytecode]; the state is
    [current_line] and [instructions]. *)
Definition parse_line (st : option Z * list instruction) (text : string)
  : option Z * list instruction :=
  let '(current_line, instrs) := st in
  let current_line :=
    match search_line_marker text with
    | Some n => Some n
    | None => current_line
    end in
  match match_instruction text with
  | Some (off, opc, g3) =>
      (current_line, instrs ++ [Instruction off opc (strip g3) current_line])
  | None => (current_line, instrs)
  end.

Definition parse_lines (lines : list string) : list instruction :=
  snd (fold_left parse_line lines (None, [])).

Definition parse_bytecode (text : string) : list instruction :=
  parse_lines (split_lines text).

(** [_build_line_map]. *)
Definition build_line_map (instrs : list instruction) : gmap Z (list nat) :=
  fold_left
    (fun (m : gmap Z (list nat)) '(idx, instr) =>
       match line instr with
       | Some l => <[l := default [] (m !! l) ++ [idx]]> m
       | None => m
       end)
    (imap pair instrs) ∅.

(** [self.string_constants[index] = string_value], with [index] the
    first [#(\d+)] of the line.  A line on which one of the two entry
    patterns matched has such an index ([entry_has_index] below), so the
    last branch is never taken. *)
Definition add_entry (text value : string) (pool : gmap Z string) : gmap Z string :=
  match search_hash_index text with
  | Some index => <[index := value]> pool
  | None => pool
  end.

(** One round of the loop of [parse_constant_pool]; the state is
    [in_constant_pool] and [string_constants]. *)
Definition pool_line (st : bool * gmap Z string) (text : string)
  : bool * gmap Z string :=
  let '(in_constant_pool, pool) := st in
  if contains "Constant pool:" text then (true, pool)
  else if in_constant_pool then
    if is_empty (strip text) then (false, pool)
    else
      let pool :=
        match search string_entry_at text with
        | Some v => add_entry text v pool
        | None => pool
        end in
      let pool :=
        match search utf8_entry_at text with
        | Some v => add_entry text v pool
        | None => pool
        end in
      (true, pool)
  else (false, pool).

Definition pool_lines (lines : list string) (st : bool * gmap Z string)
  : bool * gmap Z string :=
  fold_left pool_line lines st.

Definition parse_constant_pool (text : string) (pool : gmap Z string)
  : gmap Z string :=
  snd (pool_lines (split_lines text) (false, pool)).

(** [JavaVirtualDebugger(bytecode)]. *)
Definition init (text : string) : debugger :=
  let instrs := parse_bytecode text in
  {| bytecode := text;
     instructions := instrs;
     breakpoints := [];
     output := [];
     variables := [];
     stack := [];
     pc := 0;
     current_instruction_index := 0%nat;
     execution_state := Stopped;
     line_to_instruction := build_line_map instrs;
     last_breakpoint_hit := None;
     program_output := [];
     string_constants := parse_constant_pool text ∅ |}.

(** ** The interpreter *)

Definition push (v : value) (d : debugger) : debugger :=
  set_stack (stack d ++ [v]) d.

Definition say (s : string) (d : debugger) : debugger :=
  set_output (output d ++ [s]) d.

(** The arithmetic opcodes: with two operands on the stack, pop [b] then
    [a], compute, and push and report the result. *)
Definition binary (op : value -> value -> opres)
    (report : value -> value -> value -> string) (d : debugger) : outcome :=
  match pop (stack d) with
  | Some (b, s1) =>
      match pop s1 with
      | Some (a, s2) =>
          match op a b with
          | Val result => Done (say (report a b result) (push result (set_stack s2 d)))
          | Exc e => Raised e (set_stack s2 d)
          | NotEmbedded => OutOfModel
          end
      | None => Done d
      end
  | None => Done d
  end.

(** [_simulate_instruction]. *)
Definition simulate_instruction (d : debugger) (instr : instruction) : outcome :=
  let opcode := opcode instr in
  let operands := operands instr in
  if String.eqb opcode "ldc" then
    match search_hash_index operands with
    | None => Raised AttributeError d
    | Some const_index =>
        match string_constants d !! const_index with
        | Some s => Done (say ("Loaded string constant: " +:+ s) (push (VStr s) d))
        | None =>
            if py_float_accepts (strip operands) then OutOfModel
            else Done (push VNone d)
        end
    end
  else if String.eqb opcode "getstatic" && contains "java/lang/System.out" operands then
    Done d
  else if String.eqb opcode "invokevirtual" then
    if contains "println" operands then
      match pop (stack d) with
      | Some (value, s1) =>
          let output_str := py_str value in
          Done (set_program_output (program_output d ++ [output_str +:+ nl])
                  (say ("Program output: " +:+ output_str) (set_stack s1 d)))
      | None => Done d
      end
    else if contains "append" operands then
      match pop (stack d) with
      | Some (value, s1) =>
          match pop s1 with
          | Some (builder, s2) =>
              let result := py_str builder +:+ py_str value in
              Done (say ("Appended: " +:+ py_str value +:+ " to " +:+ py_str builder)
                      (push (VStr result) (set_stack s2 d)))
          | None => Done d
          end
      | None => Done d
      end
    else if contains "toString" operands then
      match pop (stack d) with
      | Some (value, s1) =>
          let result := py_str value in
          Done (say ("Converted to string: " +:+ result)
                  (push (VStr result) (set_stack s1 d)))
      | None => Done d
      end
    else Done d
  else if String.eqb opcode "new" && contains "java/lang/StringBuilder" operands then
    Done (say "Created new StringBuilder" (push (VStr "") d))
  else if String.eqb opcode "istore_1" then
    match pop (stack d) with
    | Some (v, s1) =>
        Done (say ("Set variable 'a' = " +:+ py_str v)
                (set_variables (dict_set "a" v (variables d)) (set_stack s1 d)))
    | None => Done d
    end
  else if String.eqb opcode "istore_2" then
    match pop (stack d) with
    | Some (v, s1) =>
        Done (say ("Set variable 'b' = " +:+ py_str v)
                (set_variables (dict_set "b" v (variables d)) (set_stack s1 d)))
    | None => Done d
    end
  else if String.eqb opcode "iconst_5" then
    Done (say "Pushed constant 5 to stack" (push (VInt 5) d))
  else if String.eqb opcode "bipush" then
    match py_int (strip operands) with
    | Some value =>
        Done (say ("Pushed constant " +:+ pretty value +:+ " to stack")
                (push (VInt value) d))
    | None => Raised ValueError d
    end
  else if String.eqb opcode "iadd" then
    binary py_add
      (fun a b r => "Added " +:+ py_str a +:+ " + " +:+ py_str b +:+ " = " +:+ py_str r) d
  else if String.eqb opcode "isub" then
    binary py_sub
      (fun a b r => "Subtracted " +:+ py_str a +:+ " - " +:+ py_str b +:+ " = " +:+ py_str r) d
  else if String.eqb opcode "imul" then
    binary py_mul
      (fun a b r => "Multiplied " +:+ py_str a +:+ " * " +:+ py_str b +:+ " = " +:+ py_str r) d
  else if String.eqb opcode "idiv" then
    binary py_floordiv
      (fun a b r => "Divided " +:+ py_str a +:+ " / " +:+ py_str b +:+ " = " +:+ py_str r) d
  else if String.eqb opcode "irem" then
    binary py_mod
      (fun a b r => "Remainder " +:+ py_str a +:+ " % " +:+ py_str b +:+ " = " +:+ py_str r) d
  else Done d.

(** ** Run control *)

(** [_show_state]. *)
Definition show_state (d : debugger) : debugger :=
  let stack_str := join ", " (map py_str (stack d)) in
  let var_str :=
    join ", " (map (fun '(k, v) => k +:+ "=" +:+ py_str v) (variables d)) in
  set_output
    (output d ++
       [nl +:+ "Current State:";
        "PC: " +:+ pretty (current_instruction_index d);
        "Stack: [" +:+ stack_str +:+ "]";
        "Variables: " +:+ var_str;
        ""]) d.

(** What [reset], [step] and [run_to_next_breakpoint] return: the trace
    lines joined by newlines. *)
Definition trace (d : debugger) : string := join nl (output d).

(** [reset]. *)
Definition reset (d : debugger) : debugger :=
  let d := set_output [] d in
  let d := set_variables [("a", VInt 5); ("b", VInt 10)] d in
  let d := set_stack [] d in
  let d := set_current_instruction_index 0%nat d in
  let d := set_execution_state Stopped d in
  let d := say "Program reset. Ready to run." d in
  set_program_output [] d.

(** What [DecompilerApp.reset_debugger] does to the debugger: [reset],
    then [self.debugger.last_breakpoint_hit = None]. *)
Definition reset_debugger (d : debugger) : debugger :=
  set_last_breakpoint_hit None (reset d).

(** Sequencing of calls that may raise. *)
Definition and_then (o : outcome) (k : debugger -> outcome) : outcome :=
  match o with
  | Done d => k d
  | Raised e d => Raised e d
  | OutOfModel => OutOfModel
  end.

(** [step]. *)
Definition step (d : debugger) : outcome :=
  let d := set_execution_state Paused d in
  match instructions d !! current_instruction_index d with
  | None =>
      Done (set_execution_state Stopped (say "End of program reached." d))
  | Some instr =>
      let d := set_output [] d in
      let d :=
        say ("Executing: " +:+ pretty (offset instr) +:+ ": " +:+ opcode instr
             +:+ " " +:+ operands instr) d in
      let d :=
        match line instr with
        | Some l => say ("Source line: " +:+ pretty l) d
        | None => d
        end in
      and_then (simulate_instruction d instr) (fun d =>
        let d := set_current_instruction_index (S (current_instruction_index d)) d in
        Done (show_state d))
  end.

(** [n] calls of [step] in a row, as long as none raises. *)
Fixpoint steps (n : nat) (d : debugger) : outcome :=
  match n with
  | O => Done d
  | S n' => and_then (step d) (steps n')
  end.

(** The condition under which the sweep halts at an instruction:
    [current_offset in self.breakpoints and
     (not skip_current or current_offset != self.last_breakpoint_hit)]. *)
Definition halts_at (skip_current : bool) (d : debugger) (current_offset : Z) : bool :=
  bool_decide (current_offset ∈ breakpoints d)
  && (negb skip_current
      || negb (bool_decide (Some current_offset = last_breakpoint_hit d))).

(** The [while] loop of [run_to_next_breakpoint].  [ahead] holds the
    instructions from the current index on: the loop reads
    [self.instructions[self.current_instruction_index]] and moves the
    index by one each round, and [_simulate_instruction] assigns to
    neither attribute ([simulate_keeps_program] below), so the head of
    [ahead] is the instruction the source reads in that round. *)
Fixpoint sweep (ahead : list instruction) (skip_current : bool) (d : debugger)
  : outcome :=
  match ahead with
  | [] => Done (show_state (set_execution_state Stopped d))
  | current_instr :: ahead' =>
      let current_offset := offset current_instr in
      if halts_at skip_current d current_offset then
        Done (show_state
                (set_last_breakpoint_hit (Some current_offset)
                   (set_execution_state Paused d)))
      else
        and_then (simulate_instruction d current_instr) (fun d =>
          sweep ahead' false
            (set_current_instruction_index (S (current_instruction_index d)) d))
  end.

(** [run_to_next_breakpoint]. *)
Definition run_to_next_breakpoint (d : debugger) : outcome :=
  let d := set_execution_state Running d in
  let d := set_output [] d in
  let skip_current :=
    match instructions d !! current_instruction_index d with
    | Some instr =>
        bool_decide (offset instr ∈ breakpoints d)
        && bool_decide (Some (offset instr) = last_breakpoint_hit d)
    | None => false
    end in
  sweep (drop (current_instruction_index d) (instructions d)) skip_current d.

(** ** Notions used to state the properties *)

(** The instructions of [l] simulated one after the other, the index
    moving by one after each: what a sweep does between two halts. *)
Fixpoint exec_all (l : list instruction) (d : debugger) : outcome :=
  match l with
  | [] => Done d
  | i :: r =>
      and_then (simulate_instruction d i) (fun d =>
        exec_all r (set_current_instruction_index (S (current_instruction_index d)) d))
  end.

(** The opcodes whose simulation can end in an exception. *)
Definition may_raise (opc : string) : bool :=
  bool_decide (opc ∈ ["ldc"; "bipush"; "iadd"; "isub"; "imul"; "idiv"; "irem"]).

(** The opcodes that [_simulate_instruction] tests for. *)
Definition known_opcodes : list string :=
  ["ldc"; "getstatic"; "invokevirtual"; "new"; "istore_1"; "istore_2";
   "iconst_5"; "bipush"; "iadd"; "isub"; "imul"; "idiv"; "irem"].

(** The last marker among the lines [ls], if any. *)
Definition last_marker (ls : list string) : option Z :=
  last (omap search_line_marker ls).

(** The marker in force for line [i], markers of line [i] itself
    excluded: the nearest marker on a line before it. *)
Definition marker_before (lines : list string) (i : nat) : option Z :=
  last_marker (take i lines).

(** The marker in force for line [i], its own marker included. *)
Definition marker_upto (lines : list string) (i : nat) : option Z :=
  last_marker (take (S i) lines).

(** The marker in force after the lines [ls], when it was [cur] before
    them. *)
Definition marker_after (cur : option Z) (ls : list string) : option Z :=
  match last_marker ls with
  | Some n => Some n
  | None => cur
  end.

(** The record that a line gives under the tag [tag], if it is an
    instruction line: the offset as the integer its digits write, the
    opcode, the operand text without surrounding spaces. *)
Definition record_of (tag : option Z) (text : string) : option instruction :=
  '(off, opc, g3) ← match_instruction text;
  Some (Instruction off opc (strip g3) tag).

(** The stream as the specification describes it: one record per
    instruction line, in the order of the lines, line [i] tagged by
    [tag lines i]. *)
Definition tagged (tag : list string -> nat -> option Z) (lines : list string)
  : list instruction :=
  omap id (imap (fun i text => record_of (tag lines i) text) lines).

(** The number of instruction lines among [lines]. *)
Definition count_instruction_lines (lines : list string) : nat :=
  length (filter (fun l => is_Some (match_instruction l)) lines).

(** What a line of the constant-pool region stores, if anything: under
    the first index of the line, the group of the Utf8 pattern when it
    matches (its assignment comes second), else that of the String
    pattern. *)
Definition line_entry (text : string) : option (Z * string) :=
  match search utf8_entry_at text, search string_entry_at text with
  | Some v, _ | None, Some v => idx ← search_hash_index text; Some (idx, v)
  | None, None => None
  end.

(** What [_simulate_instruction] never assigns to: two states that
    differ at most in the stack, the variables, the trace and the
    program output. *)
Definition same_program (d d' : debugger) : Prop :=
  bytecode d' = bytecode d
  /\ instructions d' = instructions d
  /\ breakpoints d' = breakpoints d
  /\ pc d' = pc d
  /\ current_instruction_index d' = current_instruction_index d
  /\ execution_state d' = execution_state d
  /\ line_to_instruction d' = line_to_instruction d
  /\ last_breakpoint_hit d' = last_breakpoint_hit d
  /\ string_constants d' = string_constants d.

(** [c] occurs in [s]. *)
Fixpoint occurs (c : ascii) (s : string) : Prop :=
  match s with
  | EmptyString => False
  | String c' r => c' = c ∨ occurs c r
  end.

(** The state a finished call leaves, [None] for a call that raised. *)
Definition finished (o : outcome) : option debugger :=
  match o with
  | Done d => Some d
  | _ => None
  end.

(** *** Sample listings *)

(** The three lines [0: iconst_5], [1: bipush 10], [2: iadd]. *)
Definition listing_add : string :=
  "0: iconst_5" +:+ nl +:+ "1: bipush 10" +:+ nl +:+ "2: iadd".

(** The same three instructions as records, not through the parser. *)
Definition records_add : list instruction :=
  [Instruction 0 "iconst_5" "" None;
   Instruction 1 "bipush" "10" None;
   Instruction 2 "iadd" "" None].

(** The text [Hi] between double quotes: four characters. *)
Definition quoted_hi : string :=
  String dquote ("Hi" +:+ String dquote EmptyString).

(** The entry [#7 = String #3 // ], followed by [Hi] in double quotes. *)
Definition entry_hi : string := "#7 = String #3 // " +:+ quoted_hi.

(** A listing with a constant-pool region that holds [entry_hi] after
    another entry for index 7, and one instruction. *)
Definition listing_pool : string :=
  "Constant pool:" +:+ nl +:+
  "   #7 = Utf8 early" +:+ nl +:+
  entry_hi +:+ nl +:+
  "   #3 = Utf8 Hi" +:+ nl +:+
  nl +:+
  "   0: ldc #7".

(** A line that is an instruction and carries a marker of its own. *)
Definition listing_marker : string :=
  "line 3: 0" +:+ nl +:+ "0: ldc #3 // String line 5: x".

(** Three instructions at offsets 10, 11 and 12, the session halted at
    offset 10 by an earlier sweep, breakpoints at 10 and 12. *)
Definition session_at_10 : debugger :=
  set_last_breakpoint_hit (Some 10)
    (set_execution_state Paused
       (set_breakpoints [10; 12]
          (reset (init ("10: nop" +:+ nl +:+ "11: nop" +:+ nl +:+ "12: nop"))))).

(** A listing whose pool holds the text [%d], which it loads before
    the integer zero and a remainder. *)
Definition listing_format : string :=
  "Constant pool:" +:+ nl
  +:+ "  #2 = String             #3             // %d" +:+ nl
  +:+ nl
  +:+ "       0: ldc           #2                  // String %d" +:+ nl
  +:+ "       2: bipush        0" +:+ nl
  +:+ "       4: irem".

(** ** The other methods of the debugger and its callers *)

(** [run_to_breakpoint], kept for backward compatibility. *)
Definition run_to_breakpoint (d : debugger) : outcome := run_to_next_breakpoint d.

(** [get_current_instruction_index]. *)
Definition get_current_instruction_index (d : debugger) : option nat :=
  if (current_instruction_index d <? length (instructions d))%nat
  then Some (current_instruction_index d)
  else None.

(** [get_current_line]. *)
Definition get_current_line (d : debugger) : option Z :=
  if (current_instruction_index d <? length (instructions d))%nat
  then i ← instructions d !! current_instruction_index d; line i
  else None.

(** One line of the debug view, as [DecompilerApp.update_ui] writes it:
    [f"{instr['offset']}: {instr['opcode']} {instr['operands']}"]. *)
Definition format_instruction (i : instruction) : string :=
  pretty (offset i) +:+ ": " +:+ opcode i +:+ " " +:+ operands i.

(** The text of the debug view: every line followed by a newline. *)
Definition formatted_bytecode (instrs : list instruction) : string :=
  fold_left (fun acc i => acc +:+ format_instruction i +:+ nl) instrs "".

(** [re.match(r'^\s*(\d+):', line_text)], then [int(group(1))]: how
    [DecompilerApp.run_to_breakpoint] reads an offset back from a line
    of the debug view. *)
Definition line_offset (line_text : string) : option Z :=
  '(ds, s1) ← many1 is_digit (lstrip line_text);
  _ ← eat ":" s1;
  Some (digits_value ds).

(** The loop of [DecompilerApp.run_to_breakpoint] over the texts of the
    lines that carry a breakpoint: the offsets read back, lines without
    an offset left out. *)
Definition bytecode_breakpoints (line_texts : list string) : list Z :=
  omap line_offset line_texts.

(** The state a call leaves on the object, returned or raised. *)
Definition left_state (o : outcome) : option debugger :=
  match o with
  | Done d => Some d
  | Raised _ d => Some d
  | OutOfModel => None
  end.

(** What no call on the debugger assigns to once the object is built,
    and the breakpoints, which only the caller assigns to. *)
Definition same_session (d d' : debugger) : Prop :=
  bytecode d' = bytecode d
  /\ instructions d' = instructions d
  /\ pc d' = pc d
  /\ line_to_instruction d' = line_to_instruction d
  /\ string_constants d' = string_constants d
  /\ breakpoints d' = breakpoints d.

(** The two opcodes that assign to a variable. *)
Definition stores (opc : string) : bool :=
  String.eqb opc "istore_1" || String.eqb opc "istore_2".

(** The variables as [reset] seeds them. *)
Definition seeded : list (string * value) := [("a", VInt 5); ("b", VInt 10)].

(** A record with its tag replaced by [m] when it has none: what
    becomes of a record when its listing follows lines whose last
    marker is [m]. *)
Definition retag (m : option Z) (i : instruction) : instruction :=
  match line i with
  | Some _ => i
  | None => Instruction (offset i) (opcode i) (operands i) m
  end.

(** [d[k]] on a dict kept in insertion order; [None] is [KeyError]. *)
Fixpoint dict_get (k : string) (l : list (string * value)) : option value :=
  match l with
  | [] => None
  | (k', v) :: r => if String.eqb k' k then Some v else dict_get k r
  end.

(** The five lines that [_show_state] appends for a state. *)
Definition state_dump (d : debugger) : list string :=
  [nl +:+ "Current State:";
   "PC: " +:+ pretty (current_instruction_index d);
   "Stack: [" +:+ join ", " (map py_str (stack d)) +:+ "]";
   "Variables: "
     +:+ join ", " (map (fun '(k, v) => k +:+ "=" +:+ py_str v) (variables d));
   ""].

(** The first lines of the trace of a step: the instruction, and its
    source line when it has one. *)
Definition step_header (i : instruction) : list string :=
  ("Executing: " +:+ pretty (offset i) +:+ ": " +:+ opcode i +:+ " " +:+ operands i)
  :: match line i with
     | Some l => ["Source line: " +:+ pretty l]
     | None => []
     end.

(** The states a session created from [text] can be in: the object after
    [JavaVirtualDebugger(text)] and after any sequence of [reset], the
    reset handler, an assignment to [breakpoints], [step] and
    [run_to_next_breakpoint], whether the call returned or raised. *)
Inductive reachable (text : string) : debugger -> Prop :=
| reach_init : reachable text (init text)
| reach_reset d : reachable text d -> reachable text (reset d)
| reach_reset_debugger d : reachable text d -> reachable text (reset_debugger d)
| reach_breakpoints d bps :
    reachable text d -> reachable text (set_breakpoints bps d)
| reach_step d d' :
    reachable text d -> left_state (step d) = Some d' -> reachable text d'
| reach_run d d' :
    reachable text d -> left_state (run_to_next_breakpoint d) = Some d' ->
    reachable text d'.

(** The indices, from [k] on, of the instructions tagged with source
    line [l]. *)
Fixpoint tagged_indices (l : Z) (k : nat) (instrs : list instruction) : list nat :=
  match instrs with
  | [] => []
  | i :: r =>
      if decide (line i = Some l) then k :: tagged_indices l (S k) r
      else tagged_indices l (S k) r
  end.

(** [s] is [t] without some characters at its start. *)
Inductive suffix_of (s : string) : string -> Prop :=
| suffix_here : suffix_of s s
| suffix_later c t : suffix_of s t -> suffix_of s (String c t).

(** The opcodes that need operands on the stack, with how many. *)
Definition operands_needed (opc operand_text : string) : nat :=
  if bool_decide (opc ∈ ["iadd"; "isub"; "imul"; "idiv"; "irem"]) then 2
  else if bool_decide (opc ∈ ["istore_1"; "istore_2"]) then 1
  else if String.eqb opc "invokevirtual" then
    if contains "println" operand_text then 1
    else if contains "append" operand_text then 2
    else if contains "toString" operand_text then 1
    else 0
  else 0.

(** ** The directory history of [ProjectExplorer]

    The attributes [history], [current_index] and [current_dir] and the
    methods that assign to them.  Listing the directory and filling the
    tree happen inside a [try] that catches everything and assign to
    none of the three. *)

Module Explorer.

Record explorer : Type := Explorer {
  history : list string;
  current_index : Z;
  current_dir : string
}.

(** How a call ends: [Failed e] is an [IndexError] that left the object
    in state [e]. *)
Inductive result : Type :=
| Loaded (e : explorer)
| Failed (e : explorer).

(** [l[i]]: a negative index counts from the end; [None] is
    [IndexError]. *)
Definition py_index {A : Type} (l : list A) (i : Z) : option A :=
  let n := Z.of_nat (length l) in
  if 0 <=? i then l !! Z.to_nat i
  else if - n <=? i then l !! Z.to_nat (n + i)
  else None.

(** [l[:k]]: a negative bound counts from the end. *)
Definition py_prefix {A : Type} (l : list A) (k : Z) : list A :=
  let n := Z.of_nat (length l) in
  if 0 <=? k then take (Z.to_nat k) l else take (Z.to_nat (n + k)) l.

(** The object as [__init__] has it before its first [load_directory]. *)
Definition fresh (dir : string) : explorer := Explorer [] (-1) dir.

(** The branch of [load_directory] that adds [path] to the history. *)
Definition record_visit (path : string) (e : explorer) : explorer :=
  let h := py_prefix (history e) (current_index e + 1) ++ [path] in
  Explorer h (Z.of_nat (length h) - 1) path.

(** [load_directory]. *)
Definition load_directory (path : string) (e : explorer) : result :=
  let e := Explorer (history e) (current_index e) path in
  if current_index e =? -1 then Loaded (record_visit path e)
  else
    match py_index (history e) (current_index e) with
    | None => Failed e
    | Some here =>
        if String.eqb path here then Loaded e
        else Loaded (record_visit path e)
    end.

(** [go_back]. *)
Definition go_back (e : explorer) : result :=
  if 0 <? current_index e then
    let e := Explorer (history e) (current_index e - 1) (current_dir e) in
    match py_index (history e) (current_index e) with
    | None => Failed e
    | Some path => load_directory path e
    end
  else Loaded e.

(** [go_forward]. *)
Definition go_forward (e : explorer) : result :=
  if current_index e <? Z.of_nat (length (history e)) - 1 then
    let e := Explorer (history e) (current_index e + 1) (current_dir e) in
    match py_index (history e) (current_index e) with
    | None => Failed e
    | Some path => load_directory path e
    end
  else Loaded e.

(** [go_up], with [parent] the value of
    [os.path.dirname(self.current_dir)]. *)
Definition go_up (parent : string) (e : explorer) : result :=
  if String.eqb parent (current_dir e) then Loaded e
  else load_directory parent e.

(** [refresh]. *)
Definition refresh (e : explorer) : result := load_directory (current_dir e) e.

(** What the methods keep: the index points into the history, at the
    current directory. *)
Definition consistent (e : explorer) : Prop :=
  0 <= current_index e < Z.of_nat (length (history e))
  /\ history e !! Z.to_nat (current_index e) = Some (current_dir e).

(** No directory is recorded twice in a row. *)
Fixpoint no_repeat (l : list string) : Prop :=
  match l with
  | a :: ((b :: _) as r) => a <> b /\ no_repeat r
  | _ => True
  end.

End Explorer.

(** ** The class references of [ProjectExplorer.analyze_class_file]

    The text is the output of the disassembler; the references are a
    Python [set] of strings. *)

Module Dependencies.

(** The class [[\s/]]. *)
Definition is_sep (c : ascii) : bool := is_space c || Ascii.eqb c "/".

(** The lazy group [(.+?)] followed by one character of [[\s/]]: the
    shortest non-empty prefix of [s] that such a character follows. *)
Fixpoint lazy_until_sep (s : string) : option string :=
  match s with
  | EmptyString => None
  | String c r =>
      match r with
      | EmptyString => None
      | String c2 _ =>
          if is_sep c2 then Some (String c EmptyString)
          else g ← lazy_until_sep r; Some (String c g)
      end
  end.

(** The greedy [\s+] before the group and its backtracking: [taken]
    holds the spaces consumed, the last one first; when the group finds
    no match in [rest], the run gives back its last space, as long as
    one space stays in it. *)
Fixpoint give_back (taken rest : string) : option string :=
  match lazy_until_sep rest with
  | Some g => Some g
  | None =>
      match taken with
      | String c ((String _ _) as t) => give_back t (String c rest)
      | _ => None
      end
  end.

(** The pattern of the references, at the start of [s]: [Class], spaces,
    the lazy group, one character that is a space or a slash. *)
Definition class_ref_at (s : string) : option string :=
  s1 ← eat "Class" s;
  '(w, r) ← many1 is_space s1;
  give_back (String.rev w) r.

(** One round of the loop of [analyze_class_file]. *)
Definition ref_line (refs : gset string) (text : string) : gset string :=
  if contains "Class" text && negb (contains "java/lang" text) then
    match search class_ref_at text with
    | Some g => refs ∪ {[ g ]}
    | None => refs
    end
  else refs.

(** The set that [analyze_class_file] stores for a class file whose
    disassembly is [output]. *)
Definition class_refs (output : string) : gset string :=
  fold_left ref_line (split_lines output) ∅.

End Dependencies.

(** * Properties *)

(** ** Text: what the embedding of the patterns relies on *)

(** The lines that [split('\n')] gives hold no newline. *)
Lemma split_lines_no_newline (text : string) :
  forall l, l ∈ split_lines text -> ~ occurs newline l.
Proof.
  induction text as [|c r IH]; intros l Hl; cbn [split_lines] in Hl.
  - apply list_elem_of_singleton in Hl. subst l. simpl. tauto.
  - destruct (Ascii.eqb_spec c newline) as [->|Hc].
    + apply elem_of_cons in Hl as [-> | Hl]; [simpl; tauto | apply IH; exact Hl].
    + destruct (split_lines r) as [|h t] eqn:E.
      * apply list_elem_of_singleton in Hl. subst l. simpl. intuition.
      * apply elem_of_cons in Hl as [-> | Hl].
        -- simpl. intros [Hn | Hn]; [exact (Hc Hn)|].
           apply (IH h); [left | exact Hn].
        -- apply IH. right. exact Hl.
Qed.

Lemma digit_not_space (c : ascii) : is_digit c = true -> is_space c = false.
Proof.
  destruct c as [[] [] [] [] [] [] [] []]; vm_compute; congruence.
Qed.

Lemma rstrip_no_space (s : string) :
  (forall c, occurs c s -> is_space c = false) -> rstrip s = s.
Proof.
  induction s as [|c r IH]; intros H; [reflexivity|].
  cbn [rstrip]. rewrite (H c) by (left; reflexivity). cbn [andb].
  rewrite IH; [reflexivity|]. intros c' Hc'. apply H. right. exact Hc'.
Qed.

Lemma strip_no_space (s : string) :
  (forall c, occurs c s -> is_space c = false) -> strip s = s.
Proof.
  intros H. unfold strip, lstrip.
  destruct s as [|c r]; [reflexivity|].
  cbn [span]. rewrite (H c) by (left; reflexivity). cbn [snd].
  apply rstrip_no_space. exact H.
Qed.

Lemma int_body_digits (s : string) :
  (forall c, occurs c s -> is_digit c = true) ->
  forall acc, int_body acc true s = Some (digits_acc acc s).
Proof.
  induction s as [|c r IH]; intros H acc; [reflexivity|].
  cbn [int_body digits_acc]. rewrite (H c) by (left; reflexivity).
  apply IH. intros c' Hc'. apply H. right. exact Hc'.
Qed.

(** On a group matched by [\d+], [int()] returns, and returns the
    number the digits write. *)
Lemma py_int_digits (s : string) :
  is_empty s = false ->
  (forall c, occurs c s -> is_digit c = true) ->
  py_int s = Some (digits_value s).
Proof.
  intros Hne H. unfold py_int, digits_value.
  rewrite strip_no_space
    by (intros c Hc; apply digit_not_space, H; exact Hc).
  destruct s as [|c r]; [discriminate Hne|].
  pose proof (H c (or_introl eq_refl)) as Hc.
  assert (Hr : forall c', occurs c' r -> is_digit c' = true)
    by (intros c' Hc'; apply H; right; exact Hc').
  assert (Hbody : int_body 0 false (String c r) = Some (digits_acc 0 (String c r))).
  { cbn [int_body digits_acc]. rewrite Hc. apply int_body_digits. exact Hr. }
  destruct c as [[] [] [] [] [] [] [] []]; try discriminate Hc; exact Hbody.
Qed.

(** ** Lists used as Python lists *)

Lemma pop_snoc {A : Type} (l : list A) (x : A) : pop (l ++ [x]) = Some (x, l).
Proof.
  induction l as [|y l IH]; simpl; [reflexivity|].
  rewrite IH. reflexivity.
Qed.

Lemma pop_two {A : Type} (l : list A) (x y : A) :
  pop (l ++ [x; y]) = Some (y, l ++ [x]).
Proof.
  replace (l ++ [x; y]) with ((l ++ [x]) ++ [y]) by (rewrite <- app_assoc; reflexivity).
  apply pop_snoc.
Qed.

(** ** The arithmetic opcodes on integers *)

Section Arithmetic.
Variables (d : debugger) (rest : list value) (a b : Z).
Hypothesis Hstack : stack d = rest ++ [VInt a; VInt b].

Lemma binary_int op report :
  binary op report d =
    match op (VInt a) (VInt b) with
    | Val result =>
        Done (say (report (VInt a) (VInt b) result) (push result (set_stack rest d)))
    | Exc e => Raised e (set_stack rest d)
    | NotEmbedded => OutOfModel
    end.
Proof.
  unfold binary. rewrite Hstack, pop_two, pop_snoc. reflexivity.
Qed.

Lemma idiv_int instr :
  opcode instr = "idiv" ->
  simulate_instruction d instr =
    if b =? 0 then Raised ZeroDivisionError (set_stack rest d)
    else Done (say ("Divided " +:+ pretty a +:+ " / " +:+ pretty b +:+ " = "
                    +:+ pretty (a / b))
                 (push (VInt (a / b)) (set_stack rest d))).
Proof.
  intros Hop. unfold simulate_instruction. rewrite Hop. cbn [String.eqb Ascii.eqb Bool.eqb andb].
  rewrite binary_int. unfold py_floordiv. destruct (b =? 0); reflexivity.
Qed.

Lemma irem_int instr :
  opcode instr = "irem" ->
  simulate_instruction d instr =
    if b =? 0 then Raised ZeroDivisionError (set_stack rest d)
    else Done (say ("Remainder " +:+ pretty a +:+ " % " +:+ pretty b +:+ " = "
                    +:+ pretty (a mod b))
                 (push (VInt (a mod b)) (set_stack rest d))).
Proof.
  intros Hop. unfold simulate_instruction. rewrite Hop. cbn [String.eqb Ascii.eqb Bool.eqb andb].
  rewrite binary_int. unfold py_mod. destruct (b =? 0); reflexivity.
Qed.

End Arithmetic.

(** The integers within the digit limit are closed under the quotient
    and the remainder: the quotient is no larger than the dividend, the
    remainder smaller than the divisor. *)
Lemma quotient_within_limit (a b : Z) :
  b <> 0 -> within_digit_limit a -> within_digit_limit (a / b).
Proof.
  unfold within_digit_limit. generalize (10 ^ max_str_digits). intros L Hb Ha.
  pose proof (Z.div_mod a b Hb) as Hdm.
  assert (Hq : Z.abs (a / b) <= Z.abs a).
  { destruct (Z.lt_trichotomy b 0) as [Hneg | [H0 | Hpos]]; [|contradiction|].
    - pose proof (Z.mod_neg_bound a b Hneg). nia.
    - pose proof (Z.mod_pos_bound a b Hpos). nia. }
  lia.
Qed.

Lemma remainder_within_limit (a b : Z) :
  b <> 0 -> within_digit_limit b -> within_digit_limit (a mod b).
Proof.
  unfold within_digit_limit. generalize (10 ^ max_str_digits). intros L Hb Hlim.
  destruct (Z.lt_trichotomy b 0) as [Hneg | [H0 | Hpos]]; [|contradiction|].
  - pose proof (Z.mod_neg_bound a b Hneg). lia.
  - pose proof (Z.mod_pos_bound a b Hpos). lia.
Qed.

(** Every 64-bit signed integer is within the limit. *)
Lemma int64_within_limit (n : Z) :
  - 2 ^ 63 <= n < 2 ^ 63 -> within_digit_limit n.
Proof.
  unfold within_digit_limit. intros Hn.
  assert (Hlt : 2 ^ 63 < 10 ^ max_str_digits) by (vm_compute; reflexivity).
  revert Hlt Hn. generalize (10 ^ max_str_digits) (2 ^ 63). intros L M Hlt Hn. lia.
Qed.

(** C7. With integers [a] then [b] on top of the stack, [b] not zero
    and both within the interpreter's limit of 4300 decimal digits (so
    that the trace line, which the source formats before it pushes, is
    written), [idiv] pops both and pushes the quotient rounded toward
    minus infinity, [irem] pops both and pushes the remainder that goes
    with that quotient ([a = b * q + r], [r] between zero and [b], on the
    side of [b]); the results are the exact integers, and they are
    within the limit themselves. *)
Theorem idiv_irem_floor (d : debugger) (rest : list value) (a b : Z)
    (instr : instruction) :
  stack d = rest ++ [VInt a; VInt b] ->
  b <> 0 ->
  within_digit_limit a ->
  within_digit_limit b ->
  let q := a / b in
  let r := a mod b in
  (opcode instr = "idiv" ->
   exists d', simulate_instruction d instr = Done d' /\ stack d' = rest ++ [VInt q])
  /\ (opcode instr = "irem" ->
      exists d', simulate_instruction d instr = Done d' /\ stack d' = rest ++ [VInt r])
  /\ within_digit_limit q
  /\ within_digit_limit r
  /\ a = b * q + r
  /\ (0 <= r < b \/ b < r <= 0)
  /\ (0 < b -> q * b <= a < (q + 1) * b)
  /\ (b < 0 -> (q + 1) * b < a <= q * b).
Proof.
  intros Hstack Hb Ha Hlim q r.
  assert (Hnz : (b =? 0) = false) by (apply Z.eqb_neq; exact Hb).
  assert (Hdm : a = b * q + r) by (apply Z.div_mod; exact Hb).
  assert (Hr : 0 <= r < b \/ b < r <= 0).
  { destruct (Z.lt_trichotomy b 0) as [Hneg | [H0 | Hpos]].
    - right. apply Z.mod_neg_bound. exact Hneg.
    - contradiction.
    - left. apply Z.mod_pos_bound. exact Hpos. }
  split; [|split; [|split; [|split; [|split; [|split; [|split]]]]]].
  - intros Hop. rewrite (idiv_int d rest a b Hstack instr Hop), Hnz.
    eexists. split; [reflexivity|]. reflexivity.
  - intros Hop. rewrite (irem_int d rest a b Hstack instr Hop), Hnz.
    eexists. split; [reflexivity|]. reflexivity.
  - apply quotient_within_limit; assumption.
  - apply remainder_within_limit; assumption.
  - exact Hdm.
  - exact Hr.
  - intros Hpos. nia.
  - intros Hneg. nia.
Qed.

Lemma idiv_irem_floor_witness :
  let d := set_stack [VInt (-7); VInt 2] (reset (init "")) in
  (exists d', simulate_instruction d (Instruction 0 "idiv" "" None) = Done d'
              /\ stack d' = [VInt (-4)])
  /\ (exists d', simulate_instruction d (Instruction 0 "irem" "" None) = Done d'
                 /\ stack d' = [VInt 1]).
Proof.
  intros d.
  assert (H7 : within_digit_limit (-7)) by (vm_compute; reflexivity).
  assert (H2 : within_digit_limit 2) by (vm_compute; reflexivity).
  pose proof (idiv_irem_floor d [] (-7) 2 (Instruction 0 "idiv" "" None)
                eq_refl ltac:(discriminate) H7 H2) as (Hq & _).
  pose proof (idiv_irem_floor d [] (-7) 2 (Instruction 0 "irem" "" None)
                eq_refl ltac:(discriminate) H7 H2) as (_ & Hr & _).
  split; [exact (Hq eq_refl) | exact (Hr eq_refl)].
Defined.

(** C9, as the code has it.  With integers [a] then [b] on top of the
    stack, [idiv] and [irem] with [b = 0] end in [ZeroDivisionError]:
    both operands are gone from the stack and nothing is pushed in their
    place.  With [b] not zero the call does not end in that error, and
    it returns when both integers are within the limit of 4300 decimal
    digits. *)
Theorem division_by_zero_raises (d : debugger) (rest : list value) (a b : Z)
    (instr : instruction) :
  opcode instr = "idiv" \/ opcode instr = "irem" ->
  stack d = rest ++ [VInt a; VInt b] ->
  (b = 0 -> simulate_instruction d instr = Raised ZeroDivisionError (set_stack rest d))
  /\ (b <> 0 ->
      (forall d', simulate_instruction d instr <> Raised ZeroDivisionError d')
      /\ (within_digit_limit a -> within_digit_limit b ->
          exists d', simulate_instruction d instr = Done d')).
Proof.
  intros Hop Hstack. split.
  - intros ->. destruct Hop as [Hop | Hop].
    + rewrite (idiv_int d rest a 0 Hstack instr Hop). reflexivity.
    + rewrite (irem_int d rest a 0 Hstack instr Hop). reflexivity.
  - intros Hb. apply Z.eqb_neq in Hb. destruct Hop as [Hop | Hop].
    + rewrite (idiv_int d rest a b Hstack instr Hop), Hb.
      split; [discriminate | eexists; reflexivity].
    + rewrite (irem_int d rest a b Hstack instr Hop), Hb.
      split; [discriminate | eexists; reflexivity].
Qed.

Lemma division_by_zero_raises_witness :
  let d := set_stack [VInt 3; VInt 7; VInt 0] (reset (init "")) in
  let d2 := set_stack [VInt 3; VInt 7; VInt 2] (reset (init "")) in
  simulate_instruction d (Instruction 4 "idiv" "" None)
  = Raised ZeroDivisionError (set_stack [VInt 3] d)
  /\ simulate_instruction d (Instruction 4 "irem" "" None)
     = Raised ZeroDivisionError (set_stack [VInt 3] d)
  /\ (exists d', simulate_instruction d2 (Instruction 4 "irem" "" None) = Done d').
Proof.
  intros d d2. split; [|split].
  - exact (proj1 (division_by_zero_raises d [VInt 3] 7 0
                    (Instruction 4 "idiv" "" None) (or_introl eq_refl) eq_refl) eq_refl).
  - exact (proj1 (division_by_zero_raises d [VInt 3] 7 0
                    (Instruction 4 "irem" "" None) (or_intror eq_refl) eq_refl) eq_refl).
  - exact (proj2 (proj2 (division_by_zero_raises d2 [VInt 3] 7 2
                           (Instruction 4 "irem" "" None) (or_intror eq_refl) eq_refl)
                    ltac:(discriminate))
             ltac:(vm_compute; reflexivity) ltac:(vm_compute; reflexivity)).
Defined.

(** C9, as the claim has it, fails when the dividend is a text: [%] is
    then Python's formatting operator.  The listing [listing_format]
    loads the pooled text [%d], pushes the integer zero and executes
    [irem]; the stack then holds that text and the divisor zero, and the
    call returns with the text [0] pushed: no error, and a value in place
    of the operands. *)
Lemma irem_by_zero_formats_text :
  (exists d2 d3,
     steps 2 (reset (init listing_format)) = Done d2
     /\ stack d2 = [VStr "%d"; VInt 0]
     /\ (instructions d2 !! current_instruction_index d2
         = Some (Instruction 4 "irem" "" None))
     /\ step d2 = Done d3
     /\ stack d3 = [VStr "0"])
  /\ (let d := set_stack [VStr "%d"; VInt 0] (reset (init "")) in
      simulate_instruction d (Instruction 4 "irem" "" None)
      = Done (say "Remainder %d % 0 = 0" (push (VStr "0") (set_stack [] d)))).
Proof.
  split.
  - eexists. eexists.
    split; [vm_compute; reflexivity|].
    split; [reflexivity|].
    split; [reflexivity|].
    split; [vm_compute; reflexivity|].
    reflexivity.
  - vm_compute. reflexivity.
Qed.

(** A format that holds no [%] takes no argument: the operand left over
    is a [TypeError]. *)
Lemma format_without_percent (s : string) (v : value) :
  contains "%" s = false -> PyFormat.py_format s v = Exc TypeError.
Proof.
  unfold PyFormat.py_format. generalize EmptyString at 2.
  induction s as [|c r IH]; intros out H.
  - reflexivity.
  - unfold contains in H. cbn [search] in H.
    change (eat "%" (String c r))
      with (if Ascii.eqb "%" c then Some r else None) in H.
    destruct (Ascii.eqb "%" c) eqn:Hc; [discriminate H|].
    cbn [PyFormat.read PyFormat.read_char PyFormat.r_place].
    rewrite Ascii.eqb_sym, Hc. cbn [PyFormat.r_arg PyFormat.r_out].
    apply IH. exact H.
Qed.

(** [irem] on a text and any value is the formatting of the value by the
    text, whatever the value: what the call does is what [%] does. *)
Lemma irem_text_dividend (d : debugger) (rest : list value) (s : string) (b : value)
    (instr : instruction) :
  opcode instr = "irem" ->
  stack d = rest ++ [VStr s; b] ->
  simulate_instruction d instr =
    match PyFormat.py_format s b with
    | Val result =>
        Done (say ("Remainder " +:+ s +:+ " % " +:+ py_str b +:+ " = " +:+ py_str result)
                (push result (set_stack rest d)))
    | Exc e => Raised e (set_stack rest d)
    | NotEmbedded => OutOfModel
    end.
Proof.
  intros Hop Hstack. unfold simulate_instruction. rewrite Hop.
  cbn [String.eqb Ascii.eqb Bool.eqb andb].
  unfold binary. rewrite Hstack, pop_two, pop_snoc. reflexivity.
Qed.

(** The conversion [d] without flags, width or precision writes an
    integer as [str] does. *)
Lemma number_text_decimal (n : Z) :
  PyFormat.number_text "d" PyFormat.no_spec n = pretty n.
Proof.
  unfold PyFormat.number_text.
  cbn [PyFormat.f_alt PyFormat.f_prec PyFormat.no_spec andb].
  destruct n as [|p|p]; reflexivity.
Qed.

Lemma format_decimal (n : Z) :
  PyFormat.py_format "%d" (VInt n) = Val (VStr (pretty n)).
Proof.
  rewrite <- number_text_decimal. unfold PyFormat.py_format.
  lazy -[PyFormat.number_text]. reflexivity.
Qed.

(** With the text [%d] under an integer, [irem] pushes the decimal text
    of the integer, be it zero or not. *)
Lemma irem_decimal_format (d : debugger) (rest : list value) (b : Z)
    (instr : instruction) :
  opcode instr = "irem" ->
  stack d = rest ++ [VStr "%d"; VInt b] ->
  simulate_instruction d instr =
    Done (say ("Remainder %d % " +:+ pretty b +:+ " = " +:+ pretty b)
            (push (VStr (pretty b)) (set_stack rest d))).
Proof.
  intros Hop Hstack.
  rewrite (irem_text_dividend d rest "%d" (VInt b) instr Hop Hstack), format_decimal.
  reflexivity.
Qed.

(** Whatever the dividend, [idiv] by the integer zero raises, and so
    does [irem] unless the dividend is a text that holds a [%]. *)
Lemma division_by_zero_any_dividend (d : debugger) (rest : list value) (a : value)
    (instr : instruction) :
  stack d = rest ++ [a; VInt 0] ->
  (opcode instr = "idiv" ->
   exists e, simulate_instruction d instr = Raised e (set_stack rest d))
  /\ (opcode instr = "irem" ->
      (forall s, a = VStr s -> contains "%" s = false) ->
      exists e, simulate_instruction d instr = Raised e (set_stack rest d)).
Proof.
  intros Hstack. split.
  - intros Hop. unfold simulate_instruction. rewrite Hop.
    cbn [String.eqb Ascii.eqb Bool.eqb andb].
    unfold binary. rewrite Hstack, pop_two, pop_snoc.
    destruct a; cbn; eauto.
  - intros Hop Hs. unfold simulate_instruction. rewrite Hop.
    cbn [String.eqb Ascii.eqb Bool.eqb andb].
    unfold binary. rewrite Hstack, pop_two, pop_snoc.
    destruct a as [x|s|]; cbn [py_mod Z.eqb]; eauto.
    rewrite (format_without_percent s _ (Hs s eq_refl)). eauto.
Qed.

(** A division by zero leaves [step] as the exception it is: the index
    does not move and no state dump is appended. *)
Lemma step_division_by_zero :
  step (set_stack [VInt 7; VInt 0]
          (reset (init ("0: idiv"))))
  = Raised ZeroDivisionError
      (set_output ["Executing: 0: idiv "]
         (set_execution_state Paused (reset (init "0: idiv")))).
Proof. vm_compute. reflexivity. Qed.

(** ** Operands that [int()] refuses *)

(** C10. An instruction whose opcode is [bipush] and whose operand text
    [int()] refuses ends in [ValueError], the debugger as it was: nothing
    is pushed and the operation is not skipped. *)
Theorem bipush_invalid_operand_raises (d : debugger) (instr : instruction) :
  opcode instr = "bipush" ->
  py_int (strip (operands instr)) = None ->
  simulate_instruction d instr = Raised ValueError d.
Proof.
  intros Hop Hint. unfold simulate_instruction. rewrite Hop, Hint. reflexivity.
Qed.

Lemma bipush_invalid_operand_raises_witness :
  simulate_instruction (reset (init "")) (Instruction 5 "bipush" "" None)
  = Raised ValueError (reset (init ""))
  /\ simulate_instruction (reset (init "")) (Instruction 5 "bipush" "1O" None)
     = Raised ValueError (reset (init "")).
Proof.
  split.
  - exact (bipush_invalid_operand_raises (reset (init ""))
             (Instruction 5 "bipush" "" None) eq_refl eq_refl).
  - exact (bipush_invalid_operand_raises (reset (init ""))
             (Instruction 5 "bipush" "1O" None) eq_refl eq_refl).
Defined.

(** The parser produces such records: a [bipush] line without operand. *)
Lemma bipush_without_operand_parsed :
  parse_bytecode "5: bipush" = [Instruction 5 "bipush" "" None]
  /\ step (reset (init "5: bipush"))
     = Raised ValueError
         (set_output ["Executing: 5: bipush "]
            (set_execution_state Paused (reset (init "5: bipush")))).
Proof. split; vm_compute; reflexivity. Qed.

(** An opcode that [_simulate_instruction] does not test for changes
    nothing. *)
Lemma unknown_opcode_is_noop (d : debugger) (instr : instruction) :
  opcode instr ∉ known_opcodes ->
  simulate_instruction d instr = Done d.
Proof.
  intros Hnot. unfold known_opcodes in Hnot.
  repeat (apply not_elem_of_cons in Hnot as [?%String.eqb_neq Hnot]).
  unfold simulate_instruction.
  repeat match goal with H : (_ =? _)%string = false |- _ => rewrite H; clear H end.
  reflexivity.
Qed.

(** ** [reset] *)

(** C4, as the code has it.  [reset] is a total function: from any state
    it gives an empty stack, a trace that holds the one line
    [Program reset. Ready to run.], an empty program output, index 0,
    the variables [a = 5] and [b = 10] and the state [Stopped]; it keeps
    the marker of the last breakpoint hit, which the handler
    [reset_debugger] clears after calling it.  The listing, the
    breakpoints and the constant pool are kept. *)
Theorem reset_establishes (d : debugger) :
  reset d =
    {| bytecode := bytecode d;
       instructions := instructions d;
       breakpoints := breakpoints d;
       output := ["Program reset. Ready to run."];
       variables := [("a", VInt 5); ("b", VInt 10)];
       stack := [];
       pc := pc d;
       current_instruction_index := 0%nat;
       execution_state := Stopped;
       line_to_instruction := line_to_instruction d;
       last_breakpoint_hit := last_breakpoint_hit d;
       program_output := [];
       string_constants := string_constants d |}
  /\ reset_debugger d = set_last_breakpoint_hit None (reset d)
  /\ last_breakpoint_hit (reset_debugger d) = None
  /\ reset (reset d) = reset d.
Proof. repeat split. Qed.

(** C4, as the claim has it, fails on a session halted at a breakpoint:
    after [reset] the trace is not empty and the marker is still set. *)
Lemma reset_keeps_marker_and_reports :
  ~ (stack (reset session_at_10) = []
     /\ output (reset session_at_10) = []
     /\ program_output (reset session_at_10) = []
     /\ current_instruction_index (reset session_at_10) = 0%nat
     /\ variables (reset session_at_10) = [("a", VInt 5); ("b", VInt 10)]
     /\ last_breakpoint_hit (reset session_at_10) = None
     /\ execution_state (reset session_at_10) = Stopped).
Proof. intros (_ & Hout & _). discriminate Hout. Qed.

Lemma reset_marker_survives :
  last_breakpoint_hit (reset session_at_10) = Some 10.
Proof. reflexivity. Qed.

(** ** The listing [listing_add] *)

(** C2, the code on the claim's input.  The opcode group of the
    instruction pattern is [[a-zA-Z_]+], which stops before a digit: the
    line [0: iconst_5] gives the opcode [iconst_] with operand [5], an
    opcode the interpreter does not know.  Nothing is pushed for it,
    [bipush] pushes 10, [iadd] finds one operand and is skipped: the
    stack ends as [[10]]. *)
Theorem listing_add_leaves_10 :
  parse_bytecode listing_add =
    [Instruction 0 "iconst_" "5" None;
     Instruction 1 "bipush" "10" None;
     Instruction 2 "iadd" "" None]
  /\ stack <$> finished (steps 3 (reset (init listing_add))) = Some [VInt 10].
Proof. split; vm_compute; reflexivity. Qed.

(** The interpreter itself adds: on the three records with the opcode
    [iconst_5] whole, the stack ends as [[15]]. *)
Lemma records_add_leave_15 (d : debugger) :
  instructions d = records_add ->
  stack <$> finished (steps 3 (reset d)) = Some [VInt 15].
Proof.
  intros H. destruct d. simpl in H. subst. vm_compute. reflexivity.
Qed.

(** ** [ldc] *)

(** C3, the code on an operand without index.  The search for [#(\d+)]
    finds nothing and the source calls [.group(1)] on [None]: the call
    ends in [AttributeError] before the number is parsed. *)
Theorem ldc_without_index_raises (d : debugger) (off : Z) (ln : option Z) :
  simulate_instruction d (Instruction off "ldc" "42" ln) = Raised AttributeError d.
Proof. reflexivity. Qed.

Lemma ldc_no_index (d : debugger) (instr : instruction) :
  opcode instr = "ldc" ->
  search_hash_index (operands instr) = None ->
  simulate_instruction d instr = Raised AttributeError d.
Proof.
  intros Hop Hs. unfold simulate_instruction. rewrite Hop, Hs. reflexivity.
Qed.

Lemma ldc_pool_hit (d : debugger) (instr : instruction) (i : Z) (s : string) :
  opcode instr = "ldc" ->
  search_hash_index (operands instr) = Some i ->
  string_constants d !! i = Some s ->
  simulate_instruction d instr
  = Done (say ("Loaded string constant: " +:+ s) (push (VStr s) d)).
Proof.
  intros Hop Hs Hp. unfold simulate_instruction. rewrite Hop, Hs. simpl.
  rewrite Hp. reflexivity.
Qed.

(** *** The number branch of [ldc] is never taken

    The branch is entered after the search for [#(\d+)] succeeded, so
    the operand holds a [#], and [float()] refuses every such text. *)

Lemma eat_cons (c d : ascii) (lit s : string) :
  eat (String c lit) (String d s) = if Ascii.eqb c d then eat lit s else None.
Proof. reflexivity. Qed.

Lemma hash_index_at_head (s : string) (i : Z) :
  hash_index_at s = Some i -> exists r, s = String "#" r.
Proof.
  unfold hash_index_at. destruct s as [|c r]; [discriminate|].
  rewrite eat_cons. destruct (Ascii.eqb_spec "#" c) as [<-|]; [eauto | discriminate].
Qed.

Lemma search_hash_occurs (s : string) (i : Z) :
  search_hash_index s = Some i -> occurs "#" s.
Proof.
  unfold search_hash_index. induction s as [|c r IH]; simpl.
  - discriminate.
  - destruct (hash_index_at (String c r)) eqn:E.
    + intros _. apply hash_index_at_head in E as [r' Hr]. injection Hr as -> _.
      left. reflexivity.
    + intros H. right. apply IH. exact H.
Qed.

Lemma occurs_lstrip (c : ascii) (s : string) :
  is_space c = false -> occurs c s -> occurs c (lstrip s).
Proof.
  intros Hc. unfold lstrip. induction s as [|c' r IH]; simpl; [tauto|].
  destruct (is_space c') eqn:E.
  - destruct (span is_space r) as [a b0]. simpl in *.
    intros [-> | H]; [congruence | apply IH; exact H].
  - simpl. tauto.
Qed.

Lemma occurs_not_empty (c : ascii) (s : string) : occurs c s -> is_empty s = false.
Proof. destruct s; simpl; [tauto | reflexivity]. Qed.

Lemma occurs_rstrip (c : ascii) (s : string) :
  is_space c = false -> occurs c s -> occurs c (rstrip s).
Proof.
  intros Hc. induction s as [|c' r IH]; simpl; [tauto|].
  intros [-> | H].
  - rewrite Hc. simpl. left. reflexivity.
  - specialize (IH H). rewrite (occurs_not_empty _ _ IH), andb_false_r.
    simpl. right. exact IH.
Qed.

Lemma occurs_strip (c : ascii) (s : string) :
  is_space c = false -> occurs c s -> occurs c (strip s).
Proof.
  intros Hc H. unfold strip. apply occurs_rstrip, occurs_lstrip; assumption.
Qed.

Lemma occurs_lowercase_hash (s : string) :
  occurs "#" s -> occurs "#" (lowercase s).
Proof.
  induction s as [|c r IH]; simpl; [tauto|].
  intros [-> | H]; [left; reflexivity | right; apply IH; exact H].
Qed.

Lemma fstep_hash (q : fstate) : fstep q "#" = None.
Proof. destruct q; reflexivity. Qed.

Lemma frun_hash (s : string) :
  occurs "#" s -> forall q, frun q s = false.
Proof.
  induction s as [|c r IH]; simpl; [tauto|].
  intros [-> | H] q.
  - rewrite fstep_hash. reflexivity.
  - destruct (fstep q c); [apply IH; exact H | reflexivity].
Qed.

Lemma float_body_hash (s : string) : occurs "#" s -> float_body s = false.
Proof.
  intros H. unfold float_body. rewrite (frun_hash s H).
  pose proof (occurs_lowercase_hash s H) as Hl.
  destruct (String.eqb (lowercase s) "inf") eqn:E1.
  { apply String.eqb_eq in E1. rewrite E1 in Hl. simpl in Hl.
    exfalso. intuition discriminate. }
  destruct (String.eqb (lowercase s) "infinity") eqn:E2.
  { apply String.eqb_eq in E2. rewrite E2 in Hl. simpl in Hl.
    exfalso. intuition discriminate. }
  destruct (String.eqb (lowercase s) "nan") eqn:E3.
  { apply String.eqb_eq in E3. rewrite E3 in Hl. simpl in Hl.
    exfalso. intuition discriminate. }
  reflexivity.
Qed.

Lemma py_float_refuses_hash (s : string) :
  occurs "#" s -> py_float_accepts s = false.
Proof.
  intros H. apply (occurs_strip "#" s eq_refl) in H.
  unfold py_float_accepts. destruct (strip s) as [|c r]; [reflexivity|].
  destruct (is_sign c) eqn:E.
  - apply float_body_hash. destruct H as [-> | H]; [discriminate E | exact H].
  - apply float_body_hash. exact H.
Qed.

(** With an index that the pool does not hold, [ldc] pushes [None]:
    [float()] raises on the operand and the bare [except] takes over. *)
Lemma ldc_pool_miss (d : debugger) (instr : instruction) (i : Z) :
  opcode instr = "ldc" ->
  search_hash_index (operands instr) = Some i ->
  string_constants d !! i = None ->
  simulate_instruction d instr = Done (push VNone d).
Proof.
  intros Hop Hs Hp. unfold simulate_instruction. rewrite Hop, Hs. simpl.
  rewrite Hp.
  rewrite py_float_refuses_hash; [reflexivity|].
  apply occurs_strip; [reflexivity|]. eapply search_hash_occurs. exact Hs.
Qed.

(** [ldc] never pushes a number and never leaves the model. *)
Lemma ldc_outcomes (d : debugger) (instr : instruction) :
  opcode instr = "ldc" ->
  simulate_instruction d instr = Raised AttributeError d
  \/ (exists s, simulate_instruction d instr
                = Done (say ("Loaded string constant: " +:+ s) (push (VStr s) d)))
  \/ simulate_instruction d instr = Done (push VNone d).
Proof.
  intros Hop. destruct (search_hash_index (operands instr)) as [i|] eqn:Hs.
  - destruct (string_constants d !! i) as [s|] eqn:Hp.
    + right. left. exists s. eapply ldc_pool_hit; eassumption.
    + right. right. eapply ldc_pool_miss; eassumption.
  - left. apply ldc_no_index; assumption.
Qed.

(** ** The parser *)

Lemma marker_after_cons (cur : option Z) (l : string) (ls : list string) :
  marker_after cur (l :: ls) = marker_after (marker_after cur [l]) ls.
Proof.
  unfold marker_after, last_marker. cbn [omap list_omap].
  destruct (search_line_marker l) as [n|]; cbn [last]; [|reflexivity].
  rewrite last_cons. destruct (last _); reflexivity.
Qed.

Lemma marker_upto_after (lines : list string) (i : nat) :
  marker_upto lines i = marker_after None (take (S i) lines).
Proof.
  unfold marker_upto, marker_after. destruct (last_marker _); reflexivity.
Qed.

Lemma parse_line_spec (cur : option Z) (acc : list instruction) (l : string) :
  parse_line (cur, acc) l
  = (marker_after cur [l], acc ++ option_list (record_of (marker_after cur [l]) l)).
Proof.
  unfold parse_line, record_of, marker_after, last_marker. simpl.
  destruct (search_line_marker l) as [n|]; simpl;
    destruct (match_instruction l) as [[[off opc] g3]|]; simpl;
    rewrite ?app_nil_r; reflexivity.
Qed.

Lemma parse_fold_spec (ls : list string) :
  forall (cur : option Z) (acc : list instruction),
    fold_left parse_line ls (cur, acc)
    = (marker_after cur ls,
       acc ++ omap id (imap (fun i text =>
                               record_of (marker_after cur (take (S i) ls)) text) ls)).
Proof.
  induction ls as [|l ls IH]; intros cur acc.
  - simpl. rewrite app_nil_r. reflexivity.
  - cbn [fold_left]. rewrite parse_line_spec, IH, <- marker_after_cons.
    f_equal. rewrite <- app_assoc. f_equal.
    rewrite imap_cons.
    assert (Himap :
      imap ((fun i text => record_of (marker_after cur (take (S i) (l :: ls))) text) ∘ S) ls
      = imap (fun i text =>
                record_of (marker_after (marker_after cur [l]) (take (S i) ls)) text) ls).
    { apply imap_ext. intros i x _. simpl. rewrite <- marker_after_cons. reflexivity. }
    rewrite Himap. cbn [omap list_omap]. unfold id at 1.
    change (take 1 (l :: ls)) with (l :: take 0 ls). rewrite take_0.
    destruct (record_of (marker_after cur [l]) l); reflexivity.
Qed.

Lemma tagged_length (g : nat -> option Z) (ls : list string) :
  length (omap id (imap (fun i text => record_of (g i) text) ls))
  = count_instruction_lines ls.
Proof.
  unfold count_instruction_lines. revert g.
  induction ls as [|l ls IH]; intros g; [reflexivity|].
  rewrite imap_cons, filter_cons. cbn [omap list_omap].
  specialize (IH (g ∘ S)). unfold compose in *.
  unfold record_of at 1.
  destruct (match_instruction l) as [[[off opc] g3]|]; simpl.
  - destruct (decide (is_Some (Some (off, opc, g3)))) as [_|Hn].
    + simpl. f_equal. exact IH.
    + exfalso. apply Hn. eauto.
  - destruct (decide (is_Some (@None (Z * string * string)))) as [Hs|_].
    + destruct Hs as [? Hs]. discriminate Hs.
    + exact IH.
Qed.

Lemma parse_lines_tagged (ls : list string) :
  parse_lines ls = tagged marker_upto ls.
Proof.
  unfold parse_lines, tagged. rewrite parse_fold_spec. simpl.
  f_equal. apply imap_ext. intros i x _. simpl.
  rewrite marker_upto_after. reflexivity.
Qed.

(** C5, as the code has it.  The stream holds one record per
    instruction line, in the order of the lines, each with the offset
    its digits write and tagged with the marker in force on its own
    line: the last marker on a line at or before it, [None] when there
    is none.  Its length is the number of instruction lines. *)
Theorem parse_bytecode_tagged (text : string) :
  parse_bytecode text = tagged marker_upto (split_lines text)
  /\ length (parse_bytecode text) = count_instruction_lines (split_lines text).
Proof.
  unfold parse_bytecode. split; [apply parse_lines_tagged|].
  rewrite parse_lines_tagged. unfold tagged. apply tagged_length.
Qed.

(** C5, as the claim has it, fails on a line that is an instruction and
    carries a marker: its record is tagged 5, by its own marker, where
    the nearest marker before the line is 3. *)
Lemma parse_bytecode_own_marker :
  parse_bytecode listing_marker = [Instruction 0 "ldc" "#3" (Some 5)]
  /\ tagged marker_before (split_lines listing_marker)
     = [Instruction 0 "ldc" "#3" (Some 3)]
  /\ parse_bytecode listing_marker <> tagged marker_before (split_lines listing_marker).
Proof.
  split; [vm_compute; reflexivity|].
  split; [vm_compute; reflexivity|].
  intros H. vm_compute in H. discriminate H.
Qed.

(** *** Opcodes that the parser cannot produce *)

Lemma span_all (p : ascii -> bool) (s : string) (c : ascii) :
  occurs c (fst (span p s)) -> p c = true.
Proof.
  induction s as [|c' r IH]; simpl; [tauto|].
  destruct (p c') eqn:E; simpl; [|tauto].
  destruct (span p r) as [a b0]. simpl in *.
  intros [<- | H]; [exact E | apply IH; exact H].
Qed.

Lemma many1_all (p : ascii -> bool) (s a b : string) (c : ascii) :
  many1 p s = Some (a, b) -> occurs c a -> p c = true.
Proof.
  unfold many1. pose proof (span_all p s c) as H.
  destruct (span p s) as [a' b']. simpl in H.
  destruct (is_empty a'); [discriminate|].
  intros [= <- <-]. exact H.
Qed.

Lemma match_instruction_opcode (l : string) (off : Z) (op g3 : string) (c : ascii) :
  match_instruction l = Some (off, op, g3) -> occurs c op -> is_ident c = true.
Proof.
  unfold match_instruction. intros H.
  destruct (many1 is_digit (lstrip l)) as [[ds s1]|]; [|discriminate].
  cbn [mbind option_bind] in H.
  destruct (eat ": " s1) as [s2|]; [|discriminate].
  cbn [mbind option_bind] in H.
  destruct (many1 is_ident s2) as [[op' s3]|] eqn:E; [|discriminate].
  cbn [mbind option_bind] in H. injection H as _ <- _.
  eapply many1_all. exact E.
Qed.

Lemma parsed_opcode_letters (text : string) (i : instruction) (c : ascii) :
  i ∈ parse_bytecode text -> occurs c (opcode i) -> is_ident c = true.
Proof.
  unfold parse_bytecode. rewrite parse_lines_tagged. unfold tagged.
  intros Hin. apply list_elem_of_omap in Hin as (o & Ho & Hid).
  unfold id in Hid. subst o.
  apply elem_of_lookup_imap in Ho as (k & l & Hrec & _).
  unfold record_of in Hrec.
  destruct (match_instruction l) as [[[off opc] g3]|] eqn:E; [|discriminate].
  cbn [mbind option_bind] in Hrec. injection Hrec as ->. simpl.
  eapply match_instruction_opcode. exact E.
Qed.

(** The opcodes [iconst_5], [istore_1] and [istore_2], which the
    interpreter tests for, end in a digit: no parsed record has them. *)
Lemma parsed_opcode_without_digit (text : string) (i : instruction) :
  i ∈ parse_bytecode text ->
  opcode i ∉ ["iconst_5"; "istore_1"; "istore_2"].
Proof.
  intros Hin Hop.
  assert (Hd : exists c, occurs c (opcode i) /\ is_ident c = false).
  { repeat (apply elem_of_cons in Hop as [-> | Hop]).
    - exists "5"%char. split; [simpl; tauto | reflexivity].
    - exists "1"%char. split; [simpl; tauto | reflexivity].
    - exists "2"%char. split; [simpl; tauto | reflexivity].
    - apply elem_of_nil in Hop. contradiction. }
  destruct Hd as (c & Hc & Hf).
  rewrite (parsed_opcode_letters text i c Hin Hc) in Hf. discriminate.
Qed.

(** ** The constant pool *)

Lemma search_transfer {A B : Type} (m1 : string -> option A) (m2 : string -> option B) :
  (forall s a, m1 s = Some a -> is_Some (m2 s)) ->
  forall s a, search m1 s = Some a -> is_Some (search m2 s).
Proof.
  intros Hm. induction s as [|c r IH]; intros a; simpl.
  - destruct (m1 "") eqn:E1; [|discriminate].
    intros _. destruct (Hm _ _ E1) as [b Hb]. rewrite Hb. eauto.
  - destruct (m1 (String c r)) eqn:E1.
    + intros _. destruct (Hm _ _ E1) as [b Hb]. rewrite Hb. eauto.
    + intros H. destruct (m2 (String c r)); [eauto|]. eapply IH. exact H.
Qed.

Lemma string_entry_index_at (s v : string) :
  string_entry_at s = Some v -> is_Some (hash_index_at s).
Proof.
  unfold string_entry_at, hash_index_at.
  destruct (eat "#" s) as [s1|]; [|discriminate]. cbn [mbind option_bind].
  destruct (many1 is_digit s1) as [[ds s2]|]; [|discriminate].
  cbn [mbind option_bind]. eauto.
Qed.

Lemma utf8_entry_index_at (s v : string) :
  utf8_entry_at s = Some v -> is_Some (hash_index_at s).
Proof.
  unfold utf8_entry_at, hash_index_at.
  destruct (eat "#" s) as [s1|]; [|discriminate]. cbn [mbind option_bind].
  destruct (many1 is_digit s1) as [[ds s2]|]; [|discriminate].
  cbn [mbind option_bind]. eauto.
Qed.

(** The inner search of [parse_constant_pool] cannot fail: a line on
    which an entry pattern matched has an index. *)
Lemma entry_has_index (l v : string) :
  search string_entry_at l = Some v \/ search utf8_entry_at l = Some v ->
  is_Some (search_hash_index l).
Proof.
  unfold search_hash_index. intros [H | H].
  - eapply search_transfer; [apply string_entry_index_at | exact H].
  - eapply search_transfer; [apply utf8_entry_index_at | exact H].
Qed.

Lemma line_entry_index (l : string) (i : Z) (v : string) :
  line_entry l = Some (i, v) -> search_hash_index l = Some i.
Proof.
  unfold line_entry.
  destruct (search utf8_entry_at l), (search string_entry_at l);
    try discriminate;
    destruct (search_hash_index l); try discriminate;
    cbn [mbind option_bind]; intros [= -> _]; reflexivity.
Qed.

Lemma line_entry_not_blank (l : string) (i : Z) (v : string) :
  line_entry l = Some (i, v) -> is_empty (strip l) = false.
Proof.
  intros H. apply line_entry_index in H.
  apply (occurs_not_empty "#"), occurs_strip; [reflexivity|].
  eapply search_hash_occurs. exact H.
Qed.

(** Inside the region, an entry line stores its value under its index. *)
Lemma pool_line_entry (pool : gmap Z string) (l : string) (i : Z) (v : string) :
  contains "Constant pool:" l = false ->
  line_entry l = Some (i, v) ->
  fst (pool_line (true, pool) l) = true
  /\ snd (pool_line (true, pool) l) !! i = Some v.
Proof.
  intros Hc He. unfold pool_line.
  rewrite Hc, (line_entry_not_blank l i v He).
  pose proof (line_entry_index l i v He) as Hi.
  unfold line_entry in He. rewrite Hi in He. cbn [mbind option_bind] in He.
  unfold add_entry. rewrite Hi.
  split; [reflexivity|]. cbn [snd].
  destruct (search utf8_entry_at l) as [v2|].
  - injection He as ->. apply lookup_insert_eq.
  - destruct (search string_entry_at l) as [v1|]; [|discriminate].
    injection He as ->. apply lookup_insert_eq.
Qed.

(** A line that stores nothing under [i] leaves the pool as it is
    at [i]. *)
Lemma pool_line_other (st : bool * gmap Z string) (l : string) (i : Z) :
  fst <$> line_entry l <> Some i ->
  snd (pool_line st l) !! i = snd st !! i.
Proof.
  intros Hne. destruct st as [inside pool]. unfold pool_line.
  destruct (contains "Constant pool:" l); [reflexivity|].
  destruct inside; [|reflexivity].
  destruct (is_empty (strip l)); [reflexivity|].
  cbn [snd]. unfold line_entry in Hne. unfold add_entry.
  destruct (search_hash_index l) as [j|] eqn:Hj.
  - assert (Hji : search utf8_entry_at l = None /\ search string_entry_at l = None
                  \/ j <> i).
    { destruct (search utf8_entry_at l), (search string_entry_at l);
        cbn in Hne; try (right; congruence). left. split; reflexivity. }
    destruct Hji as [[-> ->] | Hji]; [reflexivity|].
    destruct (search utf8_entry_at l), (search string_entry_at l);
      rewrite ?lookup_insert_ne by exact Hji; reflexivity.
  - destruct (search utf8_entry_at l), (search string_entry_at l); reflexivity.
Qed.

Lemma pool_lines_other (post : list string) (i : Z) :
  Forall (fun l => fst <$> line_entry l <> Some i) post ->
  forall st, snd (pool_lines post st) !! i = snd st !! i.
Proof.
  unfold pool_lines. induction 1 as [|l post Hl _ IH]; intros st; [reflexivity|].
  cbn [fold_left]. rewrite IH. apply pool_line_other. exact Hl.
Qed.

(** The last entry of the region for an index is the one the pool
    keeps, whatever was stored under the index before. *)
Lemma pool_last_entry (pre post : list string) (entry : string) (i : Z) (v : string)
    (st : bool * gmap Z string) :
  fst (pool_lines pre st) = true ->
  contains "Constant pool:" entry = false ->
  line_entry entry = Some (i, v) ->
  Forall (fun l => fst <$> line_entry l <> Some i) post ->
  snd (pool_lines (pre ++ entry :: post) st) !! i = Some v.
Proof.
  intros Hin Hc He Hpost.
  unfold pool_lines. rewrite fold_left_app. cbn [fold_left].
  fold (pool_lines pre st). fold (pool_lines post (pool_line (pool_lines pre st) entry)).
  rewrite pool_lines_other by exact Hpost.
  destruct (pool_lines pre st) as [inside pool]. simpl in Hin. subst inside.
  apply (pool_line_entry pool entry i v Hc He).
Qed.

(** C8, as the code has it.  An entry line of the region stores, under
    its index, the text that follows [//] and its spaces as it is
    written; with no later line storing under that index, this is what
    the pool holds, whatever earlier entries stored there, and what an
    [ldc] referring to the index pushes.  For the entry of the claim the
    stored text is [Hi] with its two double quotes. *)
Theorem pool_entry_then_ldc (text : string) (pre post : list string)
    (entry : string) (i : Z) (v : string) :
  split_lines text = pre ++ entry :: post ->
  fst (pool_lines pre (false, ∅)) = true ->
  contains "Constant pool:" entry = false ->
  line_entry entry = Some (i, v) ->
  Forall (fun l => fst <$> line_entry l <> Some i) post ->
  string_constants (init text) !! i = Some v
  /\ (forall (d : debugger) (instr : instruction),
        string_constants d = string_constants (init text) ->
        opcode instr = "ldc" ->
        search_hash_index (operands instr) = Some i ->
        simulate_instruction d instr
        = Done (say ("Loaded string constant: " +:+ v) (push (VStr v) d)))
  /\ line_entry entry_hi = Some (7, quoted_hi).
Proof.
  intros Hsplit Hin Hc He Hpost.
  assert (Hpool : string_constants (init text) !! i = Some v).
  { cbn [init string_constants]. unfold parse_constant_pool. rewrite Hsplit.
    apply pool_last_entry; assumption. }
  split; [exact Hpool|]. split; [|vm_compute; reflexivity].
  intros d instr Hd Hop Hs. apply (ldc_pool_hit d instr i v Hop Hs).
  rewrite Hd. exact Hpool.
Qed.

Lemma pool_entry_then_ldc_witness :
  string_constants (init listing_pool) !! 7 = Some quoted_hi
  /\ simulate_instruction (reset (init listing_pool)) (Instruction 0 "ldc" "#7" None)
     = Done (say ("Loaded string constant: " +:+ quoted_hi)
               (push (VStr quoted_hi) (reset (init listing_pool)))).
Proof.
  pose proof (pool_entry_then_ldc listing_pool
                ["Constant pool:"; "   #7 = Utf8 early"]
                ["   #3 = Utf8 Hi"; ""; "   0: ldc #7"]
                entry_hi 7 quoted_hi) as H.
  destruct H as (Hpool & Hldc & _).
  - vm_compute. reflexivity.
  - vm_compute. reflexivity.
  - vm_compute. reflexivity.
  - vm_compute. reflexivity.
  - repeat constructor; vm_compute; discriminate.
  - split; [exact Hpool|].
    apply (Hldc (reset (init listing_pool)) (Instruction 0 "ldc" "#7" None));
      reflexivity.
Defined.

(** C8, as the claim has it, fails on the quotes: with the entry in the
    region, index 7 does not map to the two characters [Hi], and the
    first step pushes the four characters. *)
Lemma pool_keeps_quotes :
  string_constants (init listing_pool) !! 7 <> Some "Hi"
  /\ stack <$> finished (step (reset (init listing_pool))) = Some [VStr quoted_hi]
  /\ stack <$> finished (step (reset (init listing_pool))) <> Some [VStr "Hi"].
Proof.
  split; [vm_compute; discriminate|].
  split; [vm_compute; reflexivity | vm_compute; discriminate].
Qed.

(** ** Run control *)

Lemma binary_keeps_program op report (d d' : debugger) :
  binary op report d = Done d' -> same_program d d'.
Proof.
  unfold binary. repeat case_match; intros [= <-]; repeat split.
Qed.

Lemma simulate_keeps_program (d d' : debugger) (instr : instruction) :
  simulate_instruction d instr = Done d' -> same_program d d'.
Proof.
  unfold simulate_instruction.
  repeat (case_match; try discriminate);
    try (apply binary_keeps_program);
    intros [= <-]; repeat split.
Qed.

(** At the end of the stream [step] reports it, stops, and leaves the
    stack, the variables and the index as they are. *)
Lemma step_at_end (d : debugger) :
  (length (instructions d) <= current_instruction_index d)%nat ->
  step d = Done (set_execution_state Stopped (say "End of program reached." d)).
Proof.
  intros Hle. unfold step. cbn [instructions set_execution_state current_instruction_index].
  rewrite (lookup_ge_None_2 _ _ Hle). reflexivity.
Qed.

(** Before the end a call of [step] that returns has moved the index by
    one and left the state [Paused]. *)
Lemma step_before_end (d d' : debugger) :
  (current_instruction_index d < length (instructions d))%nat ->
  step d = Done d' ->
  instructions d' = instructions d
  /\ current_instruction_index d' = S (current_instruction_index d)
  /\ execution_state d' = Paused.
Proof.
  intros Hlt. unfold step. cbn [instructions set_execution_state current_instruction_index].
  destruct (lookup_lt_is_Some_2 _ _ Hlt) as [instr ->].
  match goal with |- and_then (simulate_instruction ?d0 _) _ = _ -> _ =>
    destruct (simulate_instruction d0 instr) as [d1| |] eqn:E; try discriminate;
    apply simulate_keeps_program in E as (_ & Hi & _ & _ & Hx & Hs & _)
  end.
  cbn [and_then]. intros [= <-]. cbn. rewrite Hi, Hx, Hs.
  destruct (line instr); repeat split.
Qed.

Lemma steps_progress (n : nat) :
  forall d d',
    (current_instruction_index d + n <= length (instructions d))%nat ->
    steps n d = Done d' ->
    instructions d' = instructions d
    /\ current_instruction_index d' = (current_instruction_index d + n)%nat
    /\ execution_state d' = (if n is O then execution_state d else Paused).
Proof.
  induction n as [|n IH]; intros d d' Hle.
  - intros [= <-]. rewrite Nat.add_0_r. repeat split.
  - cbn [steps]. destruct (step d) as [d1| |] eqn:E; try discriminate.
    cbn [and_then]. intros Hsteps.
    apply step_before_end in E as (Hi & Hx & Hs); [|lia].
    apply IH in Hsteps as (Hi' & Hx' & Hs'); [|rewrite Hi, Hx; lia].
    rewrite Hi', Hi, Hx', Hx, Hs'. repeat split; [lia|].
    destruct n; [exact Hs | reflexivity].
Qed.

(** C1, as the code has it.  When the N calls of [step] from a reset
    state all return, the index is N and the state is [Paused] (it is
    [Stopped] only for the empty stream, where no call was made).  The
    next call appends [End of program reached.] to the trace and moves
    to [Stopped], with the stack, the variables and the index as they
    were; so does every call after it. *)
Theorem steps_then_end (d d' : debugger) :
  steps (length (instructions d)) (reset d) = Done d' ->
  current_instruction_index d' = length (instructions d)
  /\ execution_state d' = (if length (instructions d) is O then Stopped else Paused)
  /\ step d' = Done (set_execution_state Stopped (say "End of program reached." d'))
  /\ step (set_execution_state Stopped (say "End of program reached." d'))
     = Done (set_execution_state Stopped
               (say "End of program reached." (say "End of program reached." d'))).
Proof.
  intros H. apply steps_progress in H as (Hi & Hx & Hs); [|cbn; lia].
  cbn in Hi, Hx, Hs. repeat split.
  - exact Hx.
  - exact Hs.
  - apply step_at_end. rewrite Hi, Hx. lia.
  - rewrite step_at_end; [reflexivity|]. cbn. rewrite Hi, Hx. lia.
Qed.

Lemma steps_then_end_witness :
  exists d',
    steps 3 (reset (init listing_add)) = Done d'
    /\ current_instruction_index d' = 3%nat
    /\ execution_state d' = Paused
    /\ step d' = Done (set_execution_state Stopped (say "End of program reached." d')).
Proof.
  eexists. split; [vm_compute; reflexivity|].
  match goal with |- current_instruction_index ?x = _ /\ _ =>
    pose proof (steps_then_end (init listing_add) x) as H
  end.
  destruct H as (Hx & Hs & Hstep & _); [vm_compute; reflexivity|].
  split; [exact Hx|]. split; [exact Hs | exact Hstep].
Defined.

(** C1, as the claim has it, fails on a stream of one instruction: the
    one call of [step] leaves the state [Paused]; the second call is the
    one that moves to [Stopped]. *)
Lemma one_step_leaves_paused :
  length (instructions (init "0: nop")) = 1%nat
  /\ execution_state <$> finished (steps 1 (reset (init "0: nop"))) = Some Paused
  /\ execution_state <$> finished (steps 1 (reset (init "0: nop"))) <> Some Stopped
  /\ execution_state <$> finished (steps 2 (reset (init "0: nop"))) = Some Stopped.
Proof.
  split; [vm_compute; reflexivity|].
  split; [vm_compute; reflexivity|].
  split; [vm_compute; discriminate | vm_compute; reflexivity].
Qed.

(** Calls of [step] return on a stream without the opcodes that can
    raise. *)
Lemma simulate_quiet (d : debugger) (instr : instruction) :
  may_raise (opcode instr) = false ->
  exists d', simulate_instruction d instr = Done d'.
Proof.
  unfold may_raise. intros Hq. apply bool_decide_eq_false in Hq.
  repeat (apply not_elem_of_cons in Hq as [?%String.eqb_neq Hq]).
  unfold simulate_instruction.
  repeat match goal with H : (_ =? _)%string = false |- _ => rewrite H; clear H end.
  repeat case_match; eauto.
Qed.

Lemma step_quiet (d : debugger) :
  Forall (fun i => may_raise (opcode i) = false) (instructions d) ->
  exists d', step d = Done d' /\ instructions d' = instructions d.
Proof.
  intros Hq. unfold step.
  cbn [instructions set_execution_state current_instruction_index].
  destruct (instructions d !! current_instruction_index d) as [instr|] eqn:E.
  - assert (Hi : may_raise (opcode instr) = false).
    { rewrite Forall_forall in Hq. apply Hq. eapply list_elem_of_lookup_2. exact E. }
    match goal with |- exists _, and_then (simulate_instruction ?d0 _) _ = _ /\ _ =>
      destruct (simulate_quiet d0 instr Hi) as [d1 Hd1]
    end.
    rewrite Hd1. cbn [and_then]. eexists. split; [reflexivity|].
    apply simulate_keeps_program in Hd1 as (_ & Hd1 & _).
    cbn. rewrite Hd1. destruct (line instr); reflexivity.
  - eexists. split; reflexivity.
Qed.

(** X13. On a stream that holds none of the opcodes that can raise
    ([ldc], [bipush] and the five arithmetic ones), any number of calls
    of [step] returns. *)
Lemma steps_quiet (n : nat) :
  forall d,
    Forall (fun i => may_raise (opcode i) = false) (instructions d) ->
    exists d', steps n d = Done d'.
Proof.
  induction n as [|n IH]; intros d Hq; [eexists; reflexivity|].
  cbn [steps]. destruct (step_quiet d Hq) as (d1 & -> & Hi).
  cbn [and_then]. apply IH. rewrite Hi. exact Hq.
Qed.

(** *** The sweep *)

Lemma exec_all_keeps_breakpoints (l : list instruction) :
  forall d d1,
    exec_all l d = Done d1 ->
    breakpoints d1 = breakpoints d
    /\ current_instruction_index d1 = (current_instruction_index d + length l)%nat.
Proof.
  induction l as [|i l IH]; intros d d1.
  - intros [= <-]. split; [reflexivity | cbn; lia].
  - cbn [exec_all]. destruct (simulate_instruction d i) as [d2| |] eqn:E; try discriminate.
    cbn [and_then]. intros H. apply IH in H as (Hb & Hx).
    apply simulate_keeps_program in E as (_ & _ & Hb' & _ & Hx' & _).
    cbn in Hb, Hx. rewrite Hb, Hb', Hx, Hx'. split; [reflexivity | cbn; lia].
Qed.





(** Without the recorded hit the same sweep halts where it stands. *)
Lemma fresh_sweep_halts_at_once :
  run_to_next_breakpoint (set_last_breakpoint_hit None session_at_10)
  = Done (show_state
            (set_last_breakpoint_hit (Some 10)
               (set_execution_state Paused
                  (set_output [] (set_execution_state Running session_at_10))))).
Proof. vm_compute. reflexivity. Qed.

(** * Further properties *)

(** ** Numbers as text *)

Lemma str_app_cons (c : ascii) (a b : string) :
  String c a +:+ b = String c (a +:+ b).
Proof. reflexivity. Qed.

Lemma str_app_assoc (a b c : string) : (a +:+ b) +:+ c = a +:+ (b +:+ c).
Proof.
  induction a as [|x a IH]; [reflexivity|].
  rewrite !str_app_cons, IH. reflexivity.
Qed.

Lemma str_app_nil_r (a : string) : a +:+ "" = a.
Proof.
  induction a as [|x a IH]; [reflexivity|]. rewrite str_app_cons, IH. reflexivity.
Qed.

Lemma digits_acc_app (a b : string) (acc : Z) :
  digits_acc acc (a +:+ b) = digits_acc (digits_acc acc a) b.
Proof.
  revert acc. induction a as [|c a IH]; intros acc; [reflexivity|].
  change (String c a +:+ b) with (String c (a +:+ b)).
  cbn [digits_acc]. apply IH.
Qed.

Lemma occurs_app (c : ascii) (a b : string) :
  occurs c (a +:+ b) <-> occurs c a \/ occurs c b.
Proof.
  induction a as [|c' a IH]; [cbn; tauto|].
  change (String c' a +:+ b) with (String c' (a +:+ b)).
  cbn [occurs]. rewrite IH. tauto.
Qed.

Lemma pretty_N_char_digit (k : N) :
  (k < 10)%N ->
  is_digit (pretty_N_char k) = true /\ digit_value (pretty_N_char k) = Z.of_N k.
Proof.
  intros Hk.
  assert (k = 0 \/ k = 1 \/ k = 2 \/ k = 3 \/ k = 4 \/ k = 5 \/ k = 6 \/ k = 7
          \/ k = 8 \/ k = 9)%N as H by lia.
  repeat (destruct H as [-> | H]; [split; reflexivity|]).
  subst k. split; reflexivity.
Qed.

Lemma pretty_N_go_app (x : N) :
  forall s, pretty_N_go x s = pretty_N_go x "" +:+ s.
Proof.
  induction (N.lt_wf_0 x) as [x _ IH]. intros s.
  destruct (N.eq_dec x 0%N) as [-> | Hx]; [reflexivity|].
  assert (Hlt : (x `div` 10 < x)%N) by (apply N.div_lt; lia).
  rewrite !(pretty_N_go_step x) by lia.
  rewrite (IH _ Hlt (String _ s)), (IH _ Hlt (String _ "")).
  rewrite str_app_assoc. reflexivity.
Qed.

Lemma pretty_N_go_last (x : N) :
  (0 < x)%N ->
  pretty_N_go x ""
  = pretty_N_go (x `div` 10)%N "" +:+ String (pretty_N_char (x `mod` 10)%N) "".
Proof.
  intros Hx. rewrite pretty_N_go_step by exact Hx. apply pretty_N_go_app.
Qed.

(** The decimal text of a natural number holds digits only, and they
    write the number. *)
Lemma pretty_N_go_digits (x : N) :
  (forall c, occurs c (pretty_N_go x "") -> is_digit c = true)
  /\ digits_value (pretty_N_go x "") = Z.of_N x.
Proof.
  induction (N.lt_wf_0 x) as [x _ IH].
  destruct (N.eq_dec x 0%N) as [-> | Hx].
  { rewrite pretty_N_go_0. split; [intros c []| reflexivity]. }
  rewrite pretty_N_go_last by lia.
  destruct (IH (x `div` 10)%N) as [IHd IHv]; [apply N.div_lt; lia|].
  destruct (pretty_N_char_digit (x `mod` 10)%N) as [Hd Hv];
    [apply N.mod_lt; lia|].
  split.
  - intros c Hc. apply occurs_app in Hc as [Hc | Hc]; [apply IHd; exact Hc|].
    cbn in Hc. destruct Hc as [<- | []]. exact Hd.
  - unfold digits_value in *. rewrite digits_acc_app, IHv. cbn. rewrite Hv.
    pose proof (N.div_mod x 10%N ltac:(lia)) as Hdm. lia.
Qed.

Lemma pretty_N_go_not_empty (x : N) : (0 < x)%N -> is_empty (pretty_N_go x "") = false.
Proof.
  intros Hx. rewrite pretty_N_go_last by exact Hx.
  destruct (pretty_N_go (x `div` 10)%N ""); reflexivity.
Qed.

Lemma pretty_nonneg (n : Z) :
  0 <= n ->
  is_empty (pretty n) = false
  /\ (forall c, occurs c (pretty n) -> is_digit c = true)
  /\ digits_value (pretty n) = n.
Proof.
  intros Hn. destruct n as [|p|p]; [| |lia].
  - split; [reflexivity|]. split; [|reflexivity].
    cbn. intros c [<- | []]. reflexivity.
  - change (pretty (Z.pos p)) with (pretty_N_go (N.pos p) "").
    destruct (pretty_N_go_digits (N.pos p)) as [Hd Hv].
    split; [apply pretty_N_go_not_empty; lia|]. split; [exact Hd | exact Hv].
Qed.

Lemma int_body_digits_start (s : string) :
  is_empty s = false ->
  (forall c, occurs c s -> is_digit c = true) ->
  int_body 0 false s = Some (digits_value s).
Proof.
  intros Hne H. destruct s as [|c r]; [discriminate Hne|].
  unfold digits_value. cbn [int_body digits_acc].
  rewrite (H c) by (left; reflexivity).
  apply int_body_digits. intros c' Hc'. apply H. right. exact Hc'.
Qed.

(** [int(str(n))] is [n], for every integer: what [bipush] reads from
    an operand that is the decimal text of a number. *)
Lemma py_int_pretty (n : Z) : py_int (pretty n) = Some n.
Proof.
  destruct n as [|p|p].
  - reflexivity.
  - destruct (pretty_nonneg (Z.pos p) ltac:(lia)) as (Hne & Hd & Hv).
    rewrite py_int_digits by assumption. rewrite Hv. reflexivity.
  - destruct (pretty_nonneg (Z.pos p) ltac:(lia)) as (Hne & Hd & Hv).
    change (pretty (Z.neg p)) with (String "-" (pretty (Z.pos p))).
    unfold py_int. rewrite strip_no_space.
    + rewrite int_body_digits_start by assumption. rewrite Hv. reflexivity.
    + intros c [<- | Hc]; [reflexivity | apply digit_not_space, Hd, Hc].
Qed.

(** ** Pieces of a line *)

Lemma span_spec (p : ascii -> bool) (s : string) :
  s = fst (span p s) +:+ snd (span p s)
  /\ (forall c, occurs c (fst (span p s)) -> p c = true)
  /\ match snd (span p s) with
     | EmptyString => True
     | String c _ => p c = false
     end.
Proof.
  induction s as [|c r IH]; [cbn; tauto|].
  cbn [span]. destruct (p c) eqn:E.
  - destruct (span p r) as [a b]. cbn [fst snd] in *.
    destruct IH as (Hs & Ha & Hb). split; [|split].
    + rewrite str_app_cons, <- Hs. reflexivity.
    + intros c' [<- | Hc']; [exact E | apply Ha; exact Hc'].
    + exact Hb.
  - cbn [fst snd]. split; [reflexivity|]. split; [intros c' []| exact E].
Qed.

Lemma span_app_stop (p : ascii -> bool) (a b : string) :
  (forall c, occurs c a -> p c = true) ->
  match b with EmptyString => True | String c _ => p c = false end ->
  span p (a +:+ b) = (a, b).
Proof.
  intros Ha Hb. induction a as [|c a IH].
  - change ("" +:+ b) with b. destruct b as [|c r]; [reflexivity|].
    cbn [span]. rewrite Hb. reflexivity.
  - rewrite str_app_cons. cbn [span]. rewrite (Ha c) by (left; reflexivity).
    rewrite IH; [reflexivity|]. intros c' Hc'. apply Ha. right. exact Hc'.
Qed.

Lemma many1_spec (p : ascii -> bool) (s a b : string) :
  many1 p s = Some (a, b) ->
  s = a +:+ b /\ is_empty a = false /\ (forall c, occurs c a -> p c = true).
Proof.
  unfold many1. destruct (span_spec p s) as (Hs & Ha & _).
  destruct (span p s) as [a' b']. cbn [fst snd] in *.
  destruct (is_empty a') eqn:E; [discriminate|].
  intros [= <- <-]. auto.
Qed.

Lemma many1_app_stop (p : ascii -> bool) (a b : string) :
  is_empty a = false ->
  (forall c, occurs c a -> p c = true) ->
  match b with EmptyString => True | String c _ => p c = false end ->
  many1 p (a +:+ b) = Some (a, b).
Proof.
  intros Hne Ha Hb. unfold many1. rewrite span_app_stop by assumption.
  rewrite Hne. reflexivity.
Qed.

Lemma suffix_of_app (a b : string) : suffix_of b (a +:+ b).
Proof.
  induction a as [|c a IH]; [constructor|].
  rewrite str_app_cons. constructor. exact IH.
Qed.

Lemma suffix_of_trans (a b c : string) :
  suffix_of a b -> suffix_of b c -> suffix_of a c.
Proof.
  intros Hab Hbc. induction Hbc; [exact Hab|]. constructor. exact IHHbc.
Qed.

Lemma occurs_suffix (c : ascii) (s t : string) :
  suffix_of s t -> occurs c s -> occurs c t.
Proof.
  induction 1; [tauto|]. intros H'. right. auto.
Qed.

Lemma eat_suffix (lit s r : string) : eat lit s = Some r -> suffix_of r s.
Proof.
  revert s. induction lit as [|c lit IH]; intros s.
  - intros [= ->]. constructor.
  - destruct s as [|d s]; [discriminate|]. rewrite eat_cons.
    destruct (Ascii.eqb c d); [|discriminate].
    intros H. constructor. apply IH. exact H.
Qed.

Lemma lstrip_suffix (s : string) : suffix_of (lstrip s) s.
Proof.
  unfold lstrip. destruct (span_spec is_space s) as (Hs & _).
  rewrite Hs at 2. apply suffix_of_app.
Qed.

Lemma lstrip_id (c : ascii) (r : string) :
  is_space c = false -> lstrip (String c r) = String c r.
Proof. intros H. unfold lstrip. cbn [span]. rewrite H. reflexivity. Qed.

Lemma rstrip_prefix (s : string) : exists w, s = rstrip s +:+ w.
Proof.
  induction s as [|c r [w IH]]; [exists ""; reflexivity|].
  cbn [rstrip]. destruct (is_space c && is_empty (rstrip r)).
  - exists (String c r). reflexivity.
  - exists w. rewrite str_app_cons, <- IH. reflexivity.
Qed.

Lemma occurs_of_rstrip (c : ascii) (s : string) : occurs c (rstrip s) -> occurs c s.
Proof.
  destruct (rstrip_prefix s) as [w Hw]. intros H.
  rewrite Hw. apply occurs_app. left. exact H.
Qed.

Lemma occurs_of_strip (c : ascii) (s : string) : occurs c (strip s) -> occurs c s.
Proof.
  unfold strip. intros H. apply occurs_of_rstrip in H.
  eapply occurs_suffix; [apply lstrip_suffix | exact H].
Qed.

Lemma occurs_of_before_comment (c : ascii) (s : string) :
  occurs c (before_comment s) -> occurs c s.
Proof.
  induction s as [|c' r IH]; [tauto|].
  cbn [before_comment]. destruct (eat "//" (String c' r)); [intros []|].
  intros [<- | H]; [left; reflexivity | right; apply IH; exact H].
Qed.

(** *** [strip] applied twice *)

Lemma rstrip_head (s : string) :
  match rstrip s with
  | EmptyString => True
  | String c _ => exists r, s = String c r
  end.
Proof.
  destruct s as [|c r]; [exact I|].
  cbn [rstrip]. destruct (is_space c && is_empty (rstrip r)); [exact I | eauto].
Qed.

Lemma rstrip_last_not_space (s : string) :
  forall c r, rstrip s = String c r -> is_empty r = true -> is_space c = false.
Proof.
  destruct s as [|c' r']; [discriminate|].
  cbn [rstrip]. intros c r.
  destruct (is_space c') eqn:Ec, (is_empty (rstrip r')) eqn:Ee;
    cbn [andb]; try discriminate; intros [= <- <-] Hr; congruence.
Qed.

Lemma rstrip_idem (s : string) : rstrip (rstrip s) = rstrip s.
Proof.
  induction s as [|c r IH]; [reflexivity|].
  cbn [rstrip]. destruct (is_space c && is_empty (rstrip r)) eqn:E; [reflexivity|].
  cbn [rstrip]. rewrite IH, E. reflexivity.
Qed.

Lemma lstrip_head (s : string) :
  match lstrip s with
  | EmptyString => True
  | String c _ => is_space c = false
  end.
Proof.
  unfold lstrip. destruct (span_spec is_space s) as (_ & _ & H). exact H.
Qed.

(** [strip] leaves nothing for a second [strip] to remove. *)
Lemma strip_idem (s : string) : strip (strip s) = strip s.
Proof.
  unfold strip. pose proof (lstrip_head s) as Hl.
  pose proof (rstrip_head (lstrip s)) as Hr.
  destruct (rstrip (lstrip s)) as [|c r] eqn:E; [reflexivity|].
  destruct Hr as [r0 Hr0]. rewrite Hr0 in Hl.
  rewrite lstrip_id by exact Hl. rewrite <- E. apply rstrip_idem.
Qed.

(** *** Texts that hold no [//] *)

Lemma contains_cons (sub : string) (c : ascii) (r : string) :
  contains sub (String c r)
  = match eat sub (String c r) with Some _ => true | None => contains sub r end.
Proof.
  unfold contains. cbn [search]. destruct (eat sub (String c r)); reflexivity.
Qed.

Lemma contains_suffix (sub s t : string) :
  suffix_of s t -> contains sub s = true -> contains sub t = true.
Proof.
  induction 1 as [|c t _ IH]; [tauto|]. intros H'.
  rewrite contains_cons. destruct (eat sub (String c t)); [reflexivity | auto].
Qed.

Lemma eat_app (lit a w r : string) :
  eat lit a = Some r -> eat lit (a +:+ w) = Some (r +:+ w).
Proof.
  revert a. induction lit as [|c lit IH]; intros a.
  - intros [= ->]. reflexivity.
  - destruct a as [|d a]; [discriminate|].
    rewrite str_app_cons, !eat_cons. destruct (Ascii.eqb c d); [apply IH | discriminate].
Qed.

Lemma contains_app_l (sub a w : string) :
  contains sub a = true -> contains sub (a +:+ w) = true.
Proof.
  induction a as [|c a IH].
  - unfold contains. cbn [search]. destruct (eat sub "") as [r|] eqn:E; [|discriminate].
    intros _. destruct sub; [|discriminate E].
    destruct w; reflexivity.
  - rewrite str_app_cons, !contains_cons.
    destruct (eat sub (String c a)) as [r|] eqn:E.
    + intros _. change (String c (a +:+ w)) with (String c a +:+ w).
      rewrite (eat_app _ _ w _ E). reflexivity.
    + intros H. destruct (eat sub (String c (a +:+ w))); [reflexivity | auto].
Qed.

Lemma contains_of_strip (sub s : string) :
  contains sub (strip s) = true -> contains sub s = true.
Proof.
  unfold strip. intros H.
  apply (contains_suffix sub (lstrip s) s (lstrip_suffix s)).
  destruct (rstrip_prefix (lstrip s)) as [w Hw]. rewrite Hw.
  apply contains_app_l. exact H.
Qed.

Lemma before_comment_head (s : string) :
  match before_comment s with
  | EmptyString => True
  | String c _ => exists r, s = String c r
  end.
Proof.
  destruct s as [|c r]; [exact I|].
  cbn [before_comment]. destruct (eat "//" (String c r)); [exact I | eauto].
Qed.

Lemma before_comment_clean (s : string) :
  contains "//" (before_comment s) = false.
Proof.
  induction s as [|c r IH]; [reflexivity|].
  cbn [before_comment]. destruct (eat "//" (String c r)) as [x|] eqn:E; [reflexivity|].
  rewrite contains_cons, IH.
  destruct (eat "//" (String c (before_comment r))) as [y|] eqn:E'; [|reflexivity].
  exfalso. rewrite eat_cons in E, E'.
  destruct (Ascii.eqb "/" c); [|discriminate E'].
  pose proof (before_comment_head r) as Hh.
  destruct (before_comment r) as [|c2 r2]; [discriminate E'|].
  destruct Hh as [r0 ->]. rewrite eat_cons in E, E'.
  destruct (Ascii.eqb "/" c2); [discriminate E | discriminate E'].
Qed.

(** ** What a parsed record looks like *)

Lemma digits_acc_nonneg (s : string) :
  (forall c, occurs c s -> is_digit c = true) ->
  forall acc, 0 <= acc -> 0 <= digits_acc acc s.
Proof.
  induction s as [|c r IH]; intros H acc Hacc; [exact Hacc|].
  cbn [digits_acc]. apply IH; [intros c' Hc'; apply H; right; exact Hc'|].
  pose proof (H c (or_introl eq_refl)) as Hc.
  unfold is_digit in Hc. apply andb_true_iff in Hc as [Hc _].
  apply Nat.leb_le in Hc. unfold digit_value. lia.
Qed.

(** Where the fields of a match of the instruction pattern come from. *)
Lemma match_instruction_fields (l : string) (off : Z) (op g3 : string) :
  match_instruction l = Some (off, op, g3) ->
  0 <= off
  /\ is_empty op = false
  /\ (forall c, occurs c op -> is_ident c = true)
  /\ (forall c, occurs c g3 -> occurs c l)
  /\ contains "//" g3 = false.
Proof.
  unfold match_instruction. intros H.
  destruct (many1 is_digit (lstrip l)) as [[ds s1]|] eqn:E1; [|discriminate].
  cbn [mbind option_bind] in H.
  destruct (eat ": " s1) as [s2|] eqn:E2; [|discriminate].
  cbn [mbind option_bind] in H.
  destruct (many1 is_ident s2) as [[op' s3]|] eqn:E3; [|discriminate].
  cbn [mbind option_bind] in H. injection H as <- <- <-.
  apply many1_spec in E1 as (Hs1 & _ & Hds).
  apply many1_spec in E3 as (Hs3 & Hne & Hop).
  split; [apply digits_acc_nonneg; [exact Hds | lia]|].
  split; [exact Hne|]. split; [exact Hop|]. split; [|apply before_comment_clean].
  intros c Hc. apply occurs_of_before_comment in Hc.
  eapply occurs_suffix; [apply lstrip_suffix|].
  rewrite Hs1. apply occurs_app. right.
  eapply occurs_suffix; [eapply eat_suffix; exact E2|].
  rewrite Hs3. apply occurs_app. right. exact Hc.
Qed.

Lemma parsed_from_line (text : string) (i : instruction) :
  i ∈ parse_bytecode text ->
  exists l g3,
    l ∈ split_lines text
    /\ match_instruction l = Some (offset i, opcode i, g3)
    /\ operands i = strip g3.
Proof.
  unfold parse_bytecode. rewrite parse_lines_tagged. unfold tagged.
  intros Hin. apply list_elem_of_omap in Hin as (o & Ho & Hid).
  unfold id in Hid. subst o.
  apply elem_of_lookup_imap in Ho as (k & l & Hrec & Hl).
  unfold record_of in Hrec.
  destruct (match_instruction l) as [[[off opc] g3]|] eqn:E; [|discriminate].
  cbn [mbind option_bind] in Hrec. injection Hrec as ->.
  exists l, g3. split; [eapply list_elem_of_lookup_2; exact Hl|].
  split; [exact E | reflexivity].
Qed.

(** X4.  Every record of a parsed stream has a non-negative offset, an opcode
    that is a non-empty run of letters and underscores, and an operand
    text without surrounding spaces, without newline and without [//]. *)
Theorem parsed_record_shape (text : string) (i : instruction) :
  i ∈ parse_bytecode text ->
  0 <= offset i
  /\ is_empty (opcode i) = false
  /\ (forall c, occurs c (opcode i) -> is_ident c = true)
  /\ strip (operands i) = operands i
  /\ ~ occurs newline (operands i)
  /\ contains "//" (operands i) = false.
Proof.
  intros Hin. apply parsed_from_line in Hin as (l & g3 & Hl & Hm & Hops).
  apply match_instruction_fields in Hm as (Hoff & Hne & Hop & Hg & Hc).
  rewrite Hops. repeat split; try assumption.
  - apply strip_idem.
  - intros Hn. apply occurs_of_strip, Hg in Hn.
    exact (split_lines_no_newline text l Hl Hn).
  - destruct (contains "//" (strip g3)) eqn:E; [|reflexivity].
    apply contains_of_strip in E. congruence.
Qed.

Lemma parsed_record_shape_witness :
  let i := Instruction 12 "ldc" "#7" None in
  0 <= offset i
  /\ strip (operands i) = operands i
  /\ contains "//" (operands i) = false.
Proof.
  intros i.
  assert (Hin : i ∈ parse_bytecode "  12: ldc   #7   // String Hi").
  { vm_compute. apply list_elem_of_here. }
  destruct (parsed_record_shape _ i Hin) as (H1 & _ & _ & H2 & _ & H3).
  split; [exact H1|]. split; [exact H2 | exact H3].
Defined.

(** ** [bipush] on the decimal text of a number *)

Lemma strip_pretty (n : Z) : strip (pretty n) = pretty n.
Proof.
  apply strip_no_space. destruct n as [|p|p].
  - intros c [<- | []]. reflexivity.
  - destruct (pretty_nonneg (Z.pos p) ltac:(lia)) as (_ & Hd & _).
    intros c Hc. apply digit_not_space, Hd, Hc.
  - destruct (pretty_nonneg (Z.pos p) ltac:(lia)) as (_ & Hd & _).
    change (pretty (Z.neg p)) with (String "-" (pretty (Z.pos p))).
    intros c [<- | Hc]; [reflexivity | apply digit_not_space, Hd, Hc].
Qed.

(** X7.  [bipush] pushes the integer that its operand writes in decimal,
    whatever its sign and its size within the interpreter's limit of 4300
    decimal digits, up to which [int()] reads the operand: nothing is
    reduced to the range of a byte. *)
Theorem bipush_pushes_operand (d : debugger) (off n : Z) (ln : option Z) :
  within_digit_limit n ->
  simulate_instruction d (Instruction off "bipush" (pretty n) ln)
  = Done (say ("Pushed constant " +:+ pretty n +:+ " to stack") (push (VInt n) d)).
Proof.
  intros _. unfold simulate_instruction. cbn [opcode operands].
  cbn [String.eqb Ascii.eqb Bool.eqb andb].
  rewrite strip_pretty, py_int_pretty. reflexivity.
Qed.

Lemma bipush_pushes_operand_witness :
  let d := reset (init "") in
  simulate_instruction d (Instruction 2 "bipush" "300" None)
  = Done (say "Pushed constant 300 to stack" (push (VInt 300) d))
  /\ simulate_instruction d (Instruction 2 "bipush" "-129" None)
     = Done (say "Pushed constant -129 to stack" (push (VInt (-129)) d)).
Proof.
  intros d. split.
  - exact (bipush_pushes_operand d 2 300 None ltac:(vm_compute; reflexivity)).
  - exact (bipush_pushes_operand d 2 (-129) None ltac:(vm_compute; reflexivity)).
Defined.

(** ** The debug view *)

Lemma formatted_fold (instrs : list instruction) :
  forall acc,
    fold_left (fun acc i => acc +:+ format_instruction i +:+ nl) instrs acc
    = acc +:+ fold_right (fun i r => format_instruction i +:+ nl +:+ r) "" instrs.
Proof.
  induction instrs as [|i instrs IH]; intros acc.
  - cbn. rewrite str_app_nil_r. reflexivity.
  - cbn [fold_left fold_right]. rewrite IH, !str_app_assoc. reflexivity.
Qed.

Lemma split_lines_line (a rest : string) :
  ~ occurs newline a ->
  split_lines (a +:+ nl +:+ rest) = a :: split_lines rest.
Proof.
  induction a as [|c a IH]; intros Hn.
  - change ("" +:+ nl +:+ rest) with (String newline rest).
    cbn [split_lines]. rewrite Ascii.eqb_refl. reflexivity.
  - rewrite str_app_cons. cbn [split_lines].
    destruct (Ascii.eqb_spec c newline) as [-> | _].
    + exfalso. apply Hn. left. reflexivity.
    + rewrite IH; [reflexivity|]. intros H. apply Hn. right. exact H.
Qed.

Lemma ident_not_newline (c : ascii) : is_ident c = true -> c <> newline.
Proof. intros H ->. discriminate H. Qed.

Lemma format_instruction_one_line (i : instruction) :
  0 <= offset i ->
  (forall c, occurs c (opcode i) -> is_ident c = true) ->
  ~ occurs newline (operands i) ->
  ~ occurs newline (format_instruction i).
Proof.
  intros Hoff Hop Hops. unfold format_instruction. intros H.
  destruct (pretty_nonneg (offset i) Hoff) as (_ & Hd & _).
  apply occurs_app in H as [H | H]; [apply Hd in H; discriminate H|].
  apply occurs_app in H as [H | H].
  { cbn in H. destruct H as [H | [H | []]]; discriminate H. }
  apply occurs_app in H as [H | H]; [apply Hop in H; discriminate H|].
  apply occurs_app in H as [H | H]; [|exact (Hops H)].
  cbn in H. destruct H as [H | []]. discriminate H.
Qed.

(** How [run_to_breakpoint] reads back what [update_ui] wrote. *)
Lemma line_offset_format (i : instruction) :
  0 <= offset i -> line_offset (format_instruction i) = Some (offset i).
Proof.
  intros Hoff. destruct (pretty_nonneg (offset i) Hoff) as (Hne & Hd & Hv).
  unfold line_offset, format_instruction.
  destruct (pretty (offset i)) as [|c r] eqn:E; [discriminate Hne|].
  rewrite str_app_cons, lstrip_id
    by (apply digit_not_space, Hd; left; reflexivity).
  rewrite <- str_app_cons.
  rewrite many1_app_stop; [| exact Hne | exact Hd | reflexivity].
  cbn [mbind option_bind]. rewrite Hv. reflexivity.
Qed.

(** X18.  The debug view of a parsed stream and the breakpoints read from it.
    The text that [update_ui] builds has one line per instruction, in
    order, followed by an empty line; the offset that the handler of
    [Run to Breakpoint] reads back from the line of an instruction is
    the offset of that instruction, and the empty line gives none. *)
Theorem debug_view_offsets (text : string) :
  split_lines (formatted_bytecode (parse_bytecode text))
  = map format_instruction (parse_bytecode text) ++ [""]
  /\ bytecode_breakpoints (map format_instruction (parse_bytecode text))
     = map offset (parse_bytecode text)
  /\ bytecode_breakpoints [""] = [].
Proof.
  assert (Hshape : Forall (fun i => 0 <= offset i
                            /\ ~ occurs newline (format_instruction i))
                     (parse_bytecode text)).
  { apply Forall_forall. intros i Hi.
    apply parsed_from_line in Hi as (l & g3 & Hl & Hm & Hops).
    apply match_instruction_fields in Hm as (H1 & _ & H3 & Hg & _).
    split; [exact H1 | apply format_instruction_one_line; try assumption].
    rewrite Hops. intros Hn. apply occurs_of_strip, Hg in Hn.
    exact (split_lines_no_newline text l Hl Hn). }
  split; [|split; [|reflexivity]].
  - unfold formatted_bytecode. rewrite formatted_fold.
    change ("" +:+ ?x) with x.
    induction Hshape as [|i rest [_ Hi] _ IH]; [reflexivity|].
    cbn [fold_right map app]. rewrite split_lines_line by exact Hi.
    rewrite IH. reflexivity.
  - unfold bytecode_breakpoints.
    induction Hshape as [|i rest [Hi _] _ IH]; [reflexivity|].
    cbn [map omap list_omap]. rewrite line_offset_format by exact Hi.
    f_equal. exact IH.
Qed.

(** ** The line map *)

Lemma tagged_indices_spec (l : Z) (instrs : list instruction) :
  forall k j,
    j ∈ tagged_indices l k instrs
    <-> (k <= j)%nat /\ exists i, instrs !! (j - k)%nat = Some i /\ line i = Some l.
Proof.
  induction instrs as [|x instrs IH]; intros k j; cbn [tagged_indices].
  - split; [intros H; apply elem_of_nil in H; contradiction|].
    intros (_ & i & Hi & _). discriminate Hi.
  - assert (Hrest : j ∈ tagged_indices l (S k) instrs
              <-> (k < j)%nat /\ exists i, (x :: instrs) !! (j - k)%nat = Some i
                                          /\ line i = Some l).
    { rewrite IH. split.
      - intros (Hle & i & Hi & Hl). split; [lia|]. exists i. split; [|exact Hl].
        replace (j - k)%nat with (S (j - S k)) by lia. exact Hi.
      - intros (Hlt & i & Hi & Hl). split; [lia|]. exists i. split; [|exact Hl].
        replace (j - k)%nat with (S (j - S k)) in Hi by lia. exact Hi. }
    destruct (decide (line x = Some l)) as [Hx | Hx].
    + rewrite elem_of_cons, Hrest. split.
      * intros [-> | (Hlt & Hi)]; [|split; [lia | exact Hi]].
        split; [lia|]. exists x. rewrite Nat.sub_diag. split; [reflexivity | exact Hx].
      * intros (Hle & i & Hi & Hl).
        destruct (decide (j = k)) as [-> | Hne]; [left; reflexivity|].
        right. split; [lia|]. eauto.
    + rewrite Hrest. split.
      * intros (Hlt & Hi). split; [lia | exact Hi].
      * intros (Hle & i & Hi & Hl).
        destruct (decide (j = k)) as [-> | Hne]; [|split; [lia | eauto]].
        rewrite Nat.sub_diag in Hi. injection Hi as ->. contradiction.
Qed.

Lemma tagged_indices_sorted (l : Z) (instrs : list instruction) :
  forall k, StronglySorted lt (tagged_indices l k instrs).
Proof.
  induction instrs as [|x instrs IH]; intros k; cbn [tagged_indices];
    [constructor|].
  destruct (decide (line x = Some l)); [|apply IH].
  constructor; [apply IH|]. apply Forall_forall. intros j Hj.
  apply tagged_indices_spec in Hj as (Hle & _). lia.
Qed.

Lemma build_line_map_fold (l : Z) (instrs : list instruction) :
  forall (k : nat) (m : gmap Z (list nat)),
    fold_left
      (fun (m : gmap Z (list nat)) '(idx, instr) =>
         match line instr with
         | Some l => <[l := default [] (m !! l) ++ [idx]]> m
         | None => m
         end)
      (imap (fun i x => ((k + i)%nat, x)) instrs) m !! l
    = match tagged_indices l k instrs with
      | [] => m !! l
      | js => Some (default [] (m !! l) ++ js)
      end.
Proof.
  induction instrs as [|x instrs IH]; intros k m; [reflexivity|].
  rewrite imap_cons. cbn [fold_left tagged_indices].
  rewrite (imap_ext _ (fun i y => ((S k + i)%nat, y)))
    by (intros i y _; cbn; f_equal; lia).
  rewrite IH. rewrite Nat.add_0_r.
  destruct (line x) as [lx|] eqn:Ex.
  - destruct (decide (Some lx = Some l)) as [[= ->] | Hne].
    + rewrite lookup_insert_eq. cbn [default].
      destruct (tagged_indices l (S k) instrs); [reflexivity|].
      unfold id. rewrite <- app_assoc. reflexivity.
    + rewrite lookup_insert_ne by congruence. reflexivity.
  - destruct (decide (None = Some l)); [discriminate|]. reflexivity.
Qed.

(** X1.  The line map gives, for a source line, the indices of the
    instructions tagged with it, in increasing order, and has no entry
    for a line that tags no instruction. *)
Theorem line_map_lookup (instrs : list instruction) (l : Z) :
  match build_line_map instrs !! l with
  | Some js =>
      js <> []
      /\ StronglySorted lt js
      /\ forall j, j ∈ js <-> exists i, instrs !! j = Some i /\ line i = Some l
  | None => forall i, i ∈ instrs -> line i <> Some l
  end.
Proof.
  unfold build_line_map.
  rewrite (imap_ext pair (fun i x => ((0 + i)%nat, x))) by reflexivity.
  rewrite build_line_map_fold, lookup_empty. cbn [default app].
  pose proof (tagged_indices_spec l instrs 0) as Hspec.
  pose proof (tagged_indices_sorted l instrs 0) as Hsorted.
  destruct (tagged_indices l 0 instrs) as [|j0 js].
  - intros i Hi Hl. apply list_elem_of_lookup in Hi as [j Hj].
    apply (elem_of_nil j). apply Hspec. split; [lia|].
    exists i. rewrite Nat.sub_0_r. auto.
  - split; [discriminate|]. split; [exact Hsorted|].
    intros j. rewrite Hspec, Nat.sub_0_r. split.
    + intros (_ & H). exact H.
    + intros H. split; [lia | exact H].
Qed.

(** ** The region of the constant pool *)

Lemma pool_lines_closed (ls : list string) (pool : gmap Z string) :
  Forall (fun l => contains "Constant pool:" l = false) ls ->
  pool_lines ls (false, pool) = (false, pool).
Proof.
  unfold pool_lines. induction 1 as [|l ls Hl _ IH]; [reflexivity|].
  cbn [fold_left]. unfold pool_line at 2. rewrite Hl. exact IH.
Qed.

(** X2.  A listing without the heading [Constant pool:] gives an empty pool,
    and every [ldc] that names an index then pushes [None]. *)
Theorem pool_without_heading (text : string) :
  Forall (fun l => contains "Constant pool:" l = false) (split_lines text) ->
  string_constants (init text) = ∅
  /\ forall (d : debugger) (instr : instruction) (i : Z),
       string_constants d = string_constants (init text) ->
       opcode instr = "ldc" ->
       search_hash_index (operands instr) = Some i ->
       simulate_instruction d instr = Done (push VNone d).
Proof.
  intros H.
  assert (Hpool : string_constants (init text) = ∅).
  { cbn [init string_constants]. unfold parse_constant_pool.
    rewrite pool_lines_closed by exact H. reflexivity. }
  split; [exact Hpool|].
  intros d instr i Hd Hop Hs. apply (ldc_pool_miss d instr i Hop Hs).
  rewrite Hd, Hpool. apply lookup_empty.
Qed.

Lemma pool_without_heading_witness :
  string_constants (init ("#7 = Utf8 Hi" +:+ nl +:+ "0: ldc #7")) = ∅
  /\ simulate_instruction (reset (init ("#7 = Utf8 Hi" +:+ nl +:+ "0: ldc #7")))
       (Instruction 0 "ldc" "#7" None)
     = Done (push VNone (reset (init ("#7 = Utf8 Hi" +:+ nl +:+ "0: ldc #7")))).
Proof.
  destruct (pool_without_heading ("#7 = Utf8 Hi" +:+ nl +:+ "0: ldc #7")) as [H1 H2].
  - repeat constructor.
  - split; [exact H1|]. apply (H2 _ _ 7); reflexivity.
Defined.

(** X3.  The first blank line after the heading closes the region: the
    entries that follow it, up to another heading, store nothing. *)
Theorem pool_region_closes (pre post : list string) (blank : string)
    (st : bool * gmap Z string) :
  is_empty (strip blank) = true ->
  contains "Constant pool:" blank = false ->
  Forall (fun l => contains "Constant pool:" l = false) post ->
  pool_lines (pre ++ blank :: post) st = (false, snd (pool_lines pre st)).
Proof.
  intros Hb Hc Hpost. unfold pool_lines. rewrite fold_left_app. cbn [fold_left].
  fold (pool_lines pre st). destruct (pool_lines pre st) as [inside pool].
  assert (Hline : pool_line (inside, pool) blank = (false, pool)).
  { unfold pool_line. rewrite Hc, Hb. destruct inside; reflexivity. }
  rewrite Hline. apply (pool_lines_closed post pool Hpost).
Qed.

Lemma pool_region_closes_witness :
  parse_constant_pool
    ("Constant pool:" +:+ nl +:+ "  #1 = Utf8 in" +:+ nl +:+ nl
     +:+ "  #2 = Utf8 out") ∅
  = {[ 1 := "in" ]}.
Proof.
  unfold parse_constant_pool.
  change (split_lines _)
    with (["Constant pool:"; "  #1 = Utf8 in"] ++ "" :: ["  #2 = Utf8 out"]).
  fold (pool_lines (["Constant pool:"; "  #1 = Utf8 in"] ++ "" :: ["  #2 = Utf8 out"])
          (false, ∅)).
  rewrite pool_region_closes; [|reflexivity|reflexivity|repeat constructor].
  vm_compute. reflexivity.
Defined.

(** ** Too few operands *)

Lemma pop_spec {A : Type} (l : list A) :
  match pop l with
  | None => l = []
  | Some (x, r) => l = r ++ [x]
  end.
Proof.
  induction l as [|y l IH]; [reflexivity|].
  cbn [pop]. destruct (pop l) as [[x r]|]; subst; reflexivity.
Qed.

Lemma pop_empty {A : Type} (l : list A) : (length l < 1)%nat -> pop l = None.
Proof. destruct l; [reflexivity | cbn; lia]. Qed.

Lemma binary_underflow op report (d : debugger) :
  (length (stack d) < 2)%nat -> binary op report d = Done d.
Proof.
  intros Hlen. unfold binary.
  pose proof (pop_spec (stack d)) as H1.
  destruct (pop (stack d)) as [[b s1]|]; [|reflexivity].
  pose proof (pop_spec s1) as H2.
  destruct (pop s1) as [[a s2]|]; [|reflexivity].
  subst s1. rewrite H1, !length_app in Hlen. cbn in Hlen. lia.
Qed.

(** X8.  An instruction that finds fewer values on the stack than it pops
    changes nothing at all: no value is popped, nothing is reported, and
    no exception is raised. *)
Theorem stack_underflow_skipped (d : debugger) (instr : instruction) :
  (length (stack d) < operands_needed (opcode instr) (operands instr))%nat ->
  simulate_instruction d instr = Done d.
Proof.
  unfold operands_needed. intros Hlen.
  case_bool_decide as Harith.
  { unfold simulate_instruction.
    repeat (apply elem_of_cons in Harith as [-> | Harith]);
      try (cbn [String.eqb Ascii.eqb Bool.eqb andb];
           apply binary_underflow; exact Hlen).
    apply elem_of_nil in Harith. contradiction. }
  case_bool_decide as Hstore.
  { unfold simulate_instruction.
    repeat (apply elem_of_cons in Hstore as [-> | Hstore]);
      try (cbn [String.eqb Ascii.eqb Bool.eqb andb];
           rewrite pop_empty by exact Hlen; reflexivity).
    apply elem_of_nil in Hstore. contradiction. }
  destruct (String.eqb (opcode instr) "invokevirtual") eqn:Hinv; [|lia].
  apply String.eqb_eq in Hinv. unfold simulate_instruction. rewrite Hinv.
  cbn [String.eqb Ascii.eqb Bool.eqb andb].
  destruct (contains "println" (operands instr)).
  { rewrite pop_empty by exact Hlen. reflexivity. }
  destruct (contains "append" (operands instr)).
  { pose proof (pop_spec (stack d)) as H1.
    destruct (pop (stack d)) as [[b s1]|]; [|reflexivity].
    pose proof (pop_spec s1) as H2.
    destruct (pop s1) as [[a s2]|]; [|reflexivity].
    subst s1. rewrite H1, !length_app in Hlen. cbn in Hlen. lia. }
  destruct (contains "toString" (operands instr)); [|lia].
  rewrite pop_empty by exact Hlen. reflexivity.
Qed.

Lemma stack_underflow_skipped_witness :
  let d := set_stack [VInt 3] (reset (init "")) in
  simulate_instruction d (Instruction 0 "idiv" "" None) = Done d
  /\ simulate_instruction (reset (init "")) (Instruction 0 "istore_1" "" None)
     = Done (reset (init "")).
Proof.
  intros d. split.
  - apply (stack_underflow_skipped d (Instruction 0 "idiv" "" None)).
    vm_compute. lia.
  - apply (stack_underflow_skipped (reset (init "")) (Instruction 0 "istore_1" "" None)).
    vm_compute. lia.
Defined.

(** ** What a call leaves behind *)

Ltac setters := cbn; repeat split; try reflexivity.

Lemma binary_left op report (d d' : debugger) :
  left_state (binary op report d) = Some d' ->
  same_program d d'
  /\ program_output d' = program_output d
  /\ variables d' = variables d.
Proof.
  unfold binary. repeat case_match; intros [= <-]; setters.
Qed.

(** The attributes the interpreter leaves alone, whether the call
    returns or raises. *)
Lemma simulate_left (d d' : debugger) (instr : instruction) :
  left_state (simulate_instruction d instr) = Some d' ->
  same_program d d'
  /\ program_output d `prefix_of` program_output d'
  /\ (stores (opcode instr) = false -> variables d' = variables d).
Proof.
  unfold simulate_instruction, stores.
  repeat case_match.
  all: try (intros H'; apply binary_left in H' as (Hp & Ho & Hv);
            rewrite Ho; split; [exact Hp | split; [reflexivity | intros _; exact Hv]]).
  all: intros Heq; first [discriminate Heq | injection Heq as <-].
  all: (split; [setters|]).
  all: (split; [cbn; try reflexivity; try (apply prefix_app_r; reflexivity)|]).
  all: cbn; try (intros _; reflexivity).
  all: intros Hf; discriminate Hf.
Qed.

Lemma step_left (d d' : debugger) :
  left_state (step d) = Some d' ->
  same_session d d'
  /\ last_breakpoint_hit d' = last_breakpoint_hit d
  /\ program_output d `prefix_of` program_output d'
  /\ ((current_instruction_index d <= length (instructions d))%nat ->
      (current_instruction_index d' <= length (instructions d'))%nat)
  /\ (Forall (fun i => stores (opcode i) = false) (instructions d) ->
      variables d' = variables d).
Proof.
  unfold step. cbn [instructions set_execution_state current_instruction_index].
  destruct (instructions d !! current_instruction_index d) as [instr|] eqn:E.
  - assert (Hlt : (current_instruction_index d < length (instructions d))%nat)
      by (eapply lookup_lt_Some; exact E).
    match goal with |- left_state (and_then (simulate_instruction ?d0 _) _) = _ -> _ =>
      destruct (simulate_instruction d0 instr) as [d1|e d1|] eqn:Es;
        [| |discriminate];
        (assert (Hs : left_state (simulate_instruction d0 instr) = Some d1)
           by (rewrite Es; reflexivity));
        apply simulate_left in Hs as ((H1 & H2 & H3 & H4 & H5 & H6 & H7 & H8 & H9)
                                      & Ho & Hv)
    end;
      cbn [and_then left_state]; intros [= <-]; destruct (line instr);
      cbn in *;
      (split; [unfold same_session; cbn; rewrite H1, H2, H3, H4, H7, H9; tauto|]);
      (split; [assumption|]); (split; [assumption|]);
      (split; [rewrite ?H2, ?H5; intros _; lia|]);
      intros Hall; apply Hv; rewrite Forall_forall in Hall; apply Hall;
      eapply list_elem_of_lookup_2; exact E.
  - cbn. intros [= <-]. cbn.
    split; [unfold same_session; cbn; tauto|]. repeat split; auto.
Qed.

Lemma sweep_left (ahead : list instruction) :
  forall (skip : bool) (d d' : debugger),
    drop (current_instruction_index d) (instructions d) = ahead ->
    left_state (sweep ahead skip d) = Some d' ->
    same_session d d'
    /\ program_output d `prefix_of` program_output d'
    /\ ((current_instruction_index d <= length (instructions d))%nat ->
        (current_instruction_index d' <= length (instructions d'))%nat)
    /\ (Forall (fun i => stores (opcode i) = false) (instructions d) ->
        variables d' = variables d).
Proof.
  induction ahead as [|cur ahead IH]; intros skip d d' Hdrop.
  - cbn. intros [= <-]. cbn.
    split; [unfold same_session; cbn; tauto|]. repeat split; auto.
  - assert (Hcur : instructions d !! current_instruction_index d = Some cur).
    { pose proof (lookup_drop (instructions d) (current_instruction_index d) 0) as H.
      rewrite Hdrop, Nat.add_0_r in H. symmetry. exact H. }
    assert (Hlt : (current_instruction_index d < length (instructions d))%nat)
      by (eapply lookup_lt_Some; exact Hcur).
    cbn [sweep]. destruct (halts_at skip d (offset cur)).
    { cbn. intros [= <-]. cbn.
      split; [unfold same_session; cbn; tauto|]. repeat split; auto. }
    destruct (simulate_instruction d cur) as [d1|e d1|] eqn:Es; [| |discriminate].
    + assert (Hs : left_state (simulate_instruction d cur) = Some d1)
        by (rewrite Es; reflexivity).
      apply simulate_left in Hs as ((H1 & H2 & H3 & H4 & H5 & H6 & H7 & H8 & H9)
                                    & Ho & Hv).
      cbn [and_then]. intros Hrest. apply IH in Hrest.
      * unfold same_session in Hrest. cbn in Hrest.
        destruct Hrest as ((G1 & G2 & G3 & G4 & G5 & G6) & Go & Gi & Gv).
        split; [unfold same_session; repeat split; congruence|].
        split; [etrans; eassumption|].
        split; [intros _; apply Gi; rewrite H2, H5; lia|].
        intros Hall. rewrite Gv by (rewrite H2; exact Hall).
        apply Hv. rewrite Forall_forall in Hall. apply Hall.
        eapply list_elem_of_lookup_2. exact Hcur.
      * cbn. rewrite H2, H5. rewrite (drop_S _ _ _ Hcur) in Hdrop.
        injection Hdrop as Hdrop. exact Hdrop.
    + assert (Hs : left_state (simulate_instruction d cur) = Some d1)
        by (rewrite Es; reflexivity).
      apply simulate_left in Hs as ((H1 & H2 & H3 & H4 & H5 & H6 & H7 & H8 & H9)
                                    & Ho & Hv).
      cbn. intros [= <-].
      split; [unfold same_session; repeat split; congruence|].
      split; [exact Ho|]. split; [rewrite H2, H5; tauto|].
      intros Hall. apply Hv. rewrite Forall_forall in Hall. apply Hall.
      eapply list_elem_of_lookup_2. exact Hcur.
Qed.

Lemma run_left (d d' : debugger) :
  left_state (run_to_next_breakpoint d) = Some d' ->
  same_session d d'
  /\ program_output d `prefix_of` program_output d'
  /\ ((current_instruction_index d <= length (instructions d))%nat ->
      (current_instruction_index d' <= length (instructions d'))%nat)
  /\ (Forall (fun i => stores (opcode i) = false) (instructions d) ->
      variables d' = variables d).
Proof.
  unfold run_to_next_breakpoint. intros H.
  apply sweep_left in H; [|reflexivity]. exact H.
Qed.

(** X11.  The program output is only ever appended to by [step] and by
    [run_to_next_breakpoint], whether they return or raise: what was
    printed stays, in order, at the start of the log. *)
Theorem program_output_grows (d d' : debugger) :
  left_state (step d) = Some d' \/ left_state (run_to_next_breakpoint d) = Some d' ->
  program_output d `prefix_of` program_output d'.
Proof.
  intros [H | H].
  - apply step_left in H. tauto.
  - apply run_left in H. tauto.
Qed.

Lemma program_output_grows_witness :
  let d := set_program_output ["earlier" +:+ nl]
             (set_stack [VStr "Hello"] (init "0: invokevirtual println")) in
  exists d',
    left_state (step d) = Some d'
    /\ program_output d' = ["earlier" +:+ nl; "Hello" +:+ nl]
    /\ program_output d `prefix_of` program_output d'.
Proof.
  intros d. eexists. split; [vm_compute; reflexivity|].
  split; [reflexivity|].
  apply program_output_grows. left. vm_compute. reflexivity.
Defined.

(** ** Sessions *)

Lemma parsed_no_store (text : string) :
  Forall (fun i => stores (opcode i) = false) (parse_bytecode text).
Proof.
  apply Forall_forall. intros i Hi. unfold stores.
  destruct (String.eqb (opcode i) "istore_1") eqn:E1.
  { apply String.eqb_eq in E1.
    assert (H : is_ident "1" = true)
      by (apply (parsed_opcode_letters text i); [exact Hi | rewrite E1; cbn; tauto]).
    discriminate H. }
  destruct (String.eqb (opcode i) "istore_2") eqn:E2; [|reflexivity].
  apply String.eqb_eq in E2.
  assert (H : is_ident "2" = true)
    by (apply (parsed_opcode_letters text i); [exact Hi | rewrite E2; cbn; tauto]).
  discriminate H.
Qed.

Lemma same_session_trans (a b c : debugger) :
  same_session a b -> same_session b c -> same_session a c.
Proof. unfold same_session. intros H1 H2. repeat split; intuition congruence. Qed.

(** Nothing but an assignment by the caller changes the breakpoints, and
    nothing changes what the constructor built from the listing. *)
Lemma reachable_session (text : string) (d : debugger) :
  reachable text d ->
  bytecode d = text
  /\ instructions d = parse_bytecode text
  /\ pc d = 0
  /\ line_to_instruction d = build_line_map (parse_bytecode text)
  /\ string_constants d = parse_constant_pool text ∅.
Proof.
  induction 1 as [|d _ IH|d _ IH|d bps _ IH|d d' _ IH Hs|d d' _ IH Hr];
    try exact IH; [repeat split|..].
  - apply step_left in Hs as ((H1 & H2 & H3 & H4 & H5 & _) & _).
    destruct IH as (I1 & I2 & I3 & I4 & I5). repeat split; congruence.
  - apply run_left in Hr as ((H1 & H2 & H3 & H4 & H5 & _) & _).
    destruct IH as (I1 & I2 & I3 & I4 & I5). repeat split; congruence.
Qed.

(** X14.  In every state of a session, after calls that returned and calls
    that raised alike: the stream, the line map and the constant pool
    are those of the listing, the index is at most the length of the
    stream, and the variables are either not yet seeded or exactly as
    [reset] seeds them ([a = 5], [b = 10]): on a parsed stream nothing
    ever assigns to a variable. *)
Theorem session_invariant (text : string) (d : debugger) :
  reachable text d ->
  instructions d = parse_bytecode text
  /\ line_to_instruction d = build_line_map (parse_bytecode text)
  /\ string_constants d = parse_constant_pool text ∅
  /\ (current_instruction_index d <= length (instructions d))%nat
  /\ (variables d = [] \/ variables d = seeded).
Proof.
  intros Hreach.
  destruct (reachable_session text d Hreach) as (_ & Hi & _ & Hm & Hp).
  split; [exact Hi|]. split; [exact Hm|]. split; [exact Hp|].
  clear Hi Hm Hp.
  induction Hreach as [|d _ IH|d _ IH|d bps Hd IH|d d' Hd IH Hs|d d' Hd IH Hr].
  - split; [cbn; lia | left; reflexivity].
  - split; [cbn; lia | right; reflexivity].
  - split; [cbn; lia | right; reflexivity].
  - exact IH.
  - destruct (reachable_session text d Hd) as (_ & Hi & _).
    apply step_left in Hs as (_ & _ & _ & Hx & Hv). destruct IH as [IHx IHv].
    split; [apply Hx; exact IHx|].
    rewrite Hv by (rewrite Hi; apply parsed_no_store). exact IHv.
  - destruct (reachable_session text d Hd) as (_ & Hi & _).
    apply run_left in Hr as (_ & _ & Hx & Hv). destruct IH as [IHx IHv].
    split; [apply Hx; exact IHx|].
    rewrite Hv by (rewrite Hi; apply parsed_no_store). exact IHv.
Qed.

Lemma session_invariant_witness :
  exists d,
    left_state (step (reset (init "0: istore_1" ))) = Some d
    /\ (current_instruction_index d <= length (instructions d))%nat
    /\ (variables d = [] \/ variables d = seeded).
Proof.
  eexists. split; [vm_compute; reflexivity|].
  match goal with |- (current_instruction_index ?x <= _)%nat /\ _ =>
    assert (Hr : reachable "0: istore_1" x)
  end.
  { eapply reach_step; [apply reach_reset, reach_init|]. vm_compute. reflexivity. }
  destruct (session_invariant _ _ Hr) as (_ & _ & _ & Hx & Hv).
  split; [exact Hx | exact Hv].
Defined.

(** X15.  The source line of the current instruction leads back to it: the
    line map holds the current index under that line. *)
Theorem current_line_in_map (text : string) (d : debugger) (l : Z) :
  reachable text d ->
  get_current_line d = Some l ->
  exists js,
    line_to_instruction d !! l = Some js /\ current_instruction_index d ∈ js.
Proof.
  intros Hreach Hline.
  destruct (reachable_session text d Hreach) as (_ & Hi & _ & Hm & _).
  unfold get_current_line in Hline.
  destruct (current_instruction_index d <? length (instructions d))%nat;
    [|discriminate].
  destruct (instructions d !! current_instruction_index d) as [i|] eqn:E;
    [|discriminate].
  cbn [mbind option_bind] in Hline.
  rewrite Hm, <- Hi. unfold build_line_map.
  rewrite (imap_ext pair (fun i x => ((0 + i)%nat, x))) by reflexivity.
  rewrite build_line_map_fold, lookup_empty. cbn [default app].
  assert (Hin : current_instruction_index d ∈ tagged_indices l 0 (instructions d)).
  { apply tagged_indices_spec. split; [lia|]. exists i.
    rewrite Nat.sub_0_r. auto. }
  destruct (tagged_indices l 0 (instructions d)) as [|j js];
    [apply elem_of_nil in Hin; contradiction|].
  eauto.
Qed.

Lemma current_line_in_map_witness :
  let d := reset (init ("line 7: 0" +:+ nl +:+ "0: nop" +:+ nl +:+ "1: nop")) in
  get_current_line d = Some 7
  /\ exists js, line_to_instruction d !! 7 = Some js
                /\ current_instruction_index d ∈ js.
Proof.
  intros d. split; [reflexivity|].
  apply (current_line_in_map
           ("line 7: 0" +:+ nl +:+ "0: nop" +:+ nl +:+ "1: nop") d 7).
  - apply reach_reset, reach_init.
  - reflexivity.
Defined.

(** ** Where a sweep can end *)

Lemma halts_at_not_breakpoint (skip : bool) (d : debugger) (off : Z) :
  off ∉ breakpoints d -> halts_at skip d off = false.
Proof.
  intros H. unfold halts_at.
  rewrite (bool_decide_eq_false_2 (off ∈ breakpoints d) H). reflexivity.
Qed.

Lemma sweep_no_halt (ahead : list instruction) :
  forall (skip : bool) (d : debugger),
    Forall (fun i => offset i ∉ breakpoints d) ahead ->
    sweep ahead skip d
    = and_then (exec_all ahead d)
        (fun d1 => Done (show_state (set_execution_state Stopped d1))).
Proof.
  induction ahead as [|i ahead IH]; intros skip d Hall; [reflexivity|].
  apply Forall_cons in Hall as [Hi Hall].
  cbn [sweep exec_all]. rewrite halts_at_not_breakpoint by exact Hi.
  destruct (simulate_instruction d i) as [d1| |] eqn:E; try reflexivity.
  cbn [and_then]. apply IH.
  apply simulate_keeps_program in E as (_ & _ & Hb & _).
  cbn. rewrite Hb. exact Hall.
Qed.

(** X16.  When no instruction from the current one on has its offset among
    the breakpoints (as with no breakpoint at all), one call of
    [run_to_next_breakpoint] is the plain execution of all of them
    followed by the state dump in state [Stopped]; an exception of one
    of them leaves the call as it is.  A call that returns has moved the
    index to the end of the stream. *)
Theorem run_without_matching_breakpoint (d : debugger) :
  Forall (fun i => offset i ∉ breakpoints d)
    (drop (current_instruction_index d) (instructions d)) ->
  run_to_next_breakpoint d
  = and_then
      (exec_all (drop (current_instruction_index d) (instructions d))
         (set_output [] (set_execution_state Running d)))
      (fun d1 => Done (show_state (set_execution_state Stopped d1)))
  /\ forall d',
       run_to_next_breakpoint d = Done d' ->
       execution_state d' = Stopped
       /\ current_instruction_index d'
          = Nat.max (current_instruction_index d) (length (instructions d)).
Proof.
  intros Hall.
  assert (Hrun : run_to_next_breakpoint d
    = and_then
        (exec_all (drop (current_instruction_index d) (instructions d))
           (set_output [] (set_execution_state Running d)))
        (fun d1 => Done (show_state (set_execution_state Stopped d1)))).
  { unfold run_to_next_breakpoint. apply sweep_no_halt. exact Hall. }
  split; [exact Hrun|].
  intros d'. rewrite Hrun.
  destruct (exec_all _ _) as [d1| |] eqn:E; try discriminate.
  cbn [and_then]. intros [= <-].
  apply exec_all_keeps_breakpoints in E as (_ & Hx).
  cbn in Hx |- *. split; [reflexivity|].
  rewrite Hx, length_drop. lia.
Qed.

Lemma run_without_matching_breakpoint_witness :
  exists d',
    run_to_next_breakpoint (reset (init listing_add)) = Done d'
    /\ execution_state d' = Stopped
    /\ current_instruction_index d' = 3%nat.
Proof.
  destruct (run_without_matching_breakpoint (reset (init listing_add)))
    as [_ H]; [apply Forall_forall; intros i _ Hi; apply elem_of_nil in Hi; exact Hi|].
  eexists. split; [vm_compute; reflexivity|].
  match goal with |- execution_state ?x = _ /\ _ => apply (H x) end.
  vm_compute. reflexivity.
Defined.

Lemma sweep_post (ahead : list instruction) :
  forall (skip : bool) (d d' : debugger),
    drop (current_instruction_index d) (instructions d) = ahead ->
    sweep ahead skip d = Done d' ->
    (current_instruction_index d <= current_instruction_index d')%nat
    /\ (forall k i,
          (current_instruction_index d <= k < current_instruction_index d')%nat ->
          (skip = true -> k <> current_instruction_index d) ->
          instructions d !! k = Some i ->
          offset i ∉ breakpoints d)
    /\ (execution_state d' = Paused
        /\ (exists i,
              instructions d !! current_instruction_index d' = Some i
              /\ offset i ∈ breakpoints d
              /\ last_breakpoint_hit d' = Some (offset i))
        \/ execution_state d' = Stopped
           /\ (length (instructions d) <= current_instruction_index d')%nat
           /\ last_breakpoint_hit d' = last_breakpoint_hit d).
Proof.
  induction ahead as [|cur ahead IH]; intros skip d d' Hdrop.
  - cbn [sweep]. intros [= <-]. cbn.
    split; [lia|]. split; [intros k i Hk; lia|].
    right. split; [reflexivity|]. split; [|reflexivity].
    apply (f_equal length) in Hdrop. rewrite length_drop in Hdrop. cbn in Hdrop. lia.
  - assert (Hcur : instructions d !! current_instruction_index d = Some cur).
    { pose proof (lookup_drop (instructions d) (current_instruction_index d) 0) as H.
      rewrite Hdrop, Nat.add_0_r in H. symmetry. exact H. }
    cbn [sweep]. destruct (halts_at skip d (offset cur)) eqn:Eh.
    + intros [= <-]. cbn.
      split; [lia|]. split; [intros k i Hk; lia|].
      left. split; [reflexivity|]. exists cur.
      split; [exact Hcur|]. split; [|reflexivity].
      unfold halts_at in Eh. apply andb_true_iff in Eh as [Eh _].
      apply bool_decide_eq_true_1 in Eh. exact Eh.
    + destruct (simulate_instruction d cur) as [d1| |] eqn:Es; try discriminate.
      cbn [and_then]. intros Hrest.
      apply simulate_keeps_program in Es
        as (_ & Hi & Hb & _ & Hx & _ & _ & Hl & _).
      apply IH in Hrest.
      * cbn in Hrest. rewrite Hi, Hb, Hx, Hl in Hrest.
        destruct Hrest as (Hle & Hmid & Hend).
        split; [lia|]. split; [|exact Hend].
        intros k i Hk Hskip Hki.
        destruct (decide (k = current_instruction_index d)) as [-> | Hne].
        -- rewrite Hcur in Hki. injection Hki as <-.
           destruct skip; [exfalso; apply Hskip; reflexivity|].
           unfold halts_at in Eh. cbn [negb orb] in Eh. rewrite andb_true_r in Eh.
           apply bool_decide_eq_false_1 in Eh. exact Eh.
        -- apply (Hmid k i); [lia | discriminate | exact Hki].
      * cbn. rewrite Hi, Hx. rewrite (drop_S _ _ _ Hcur) in Hdrop.
        injection Hdrop as Hdrop. exact Hdrop.
Qed.

(** X17.  Where a call of [run_to_next_breakpoint] that returns has stopped.
    The index never moves back.  The call ends [Paused] on an
    instruction whose offset is a breakpoint, recorded as last
    breakpoint hit, or [Stopped] past the last instruction with the
    record untouched.  It has run past no breakpoint, except the one it
    stood on when that was the recorded last hit. *)
Theorem run_stops_at_breakpoint (d d' : debugger) :
  run_to_next_breakpoint d = Done d' ->
  (current_instruction_index d <= current_instruction_index d')%nat
  /\ (forall k i,
        (current_instruction_index d <= k < current_instruction_index d')%nat ->
        instructions d !! k = Some i ->
        offset i ∈ breakpoints d ->
        k = current_instruction_index d
        /\ last_breakpoint_hit d = Some (offset i))
  /\ (execution_state d' = Paused
      /\ (exists i,
            instructions d !! current_instruction_index d' = Some i
            /\ offset i ∈ breakpoints d
            /\ last_breakpoint_hit d' = Some (offset i))
      \/ execution_state d' = Stopped
         /\ (length (instructions d) <= current_instruction_index d')%nat
         /\ last_breakpoint_hit d' = last_breakpoint_hit d).
Proof.
  unfold run_to_next_breakpoint. intros Hrun.
  apply sweep_post in Hrun; [|reflexivity].
  cbn [instructions breakpoints last_breakpoint_hit current_instruction_index
       set_output set_execution_state] in Hrun.
  destruct Hrun as (Hle & Hmid & Hend).
  split; [exact Hle|]. split; [|exact Hend].
  intros k i Hk Hki Hbp.
  destruct (decide (k = current_instruction_index d)) as [-> | Hne].
  - split; [reflexivity|]. rewrite Hki in Hmid.
    destruct (bool_decide (offset i ∈ breakpoints d)
              && bool_decide (Some (offset i) = last_breakpoint_hit d)) eqn:Es.
    + apply andb_true_iff in Es as [_ Es].
      apply bool_decide_eq_true_1 in Es. symmetry. exact Es.
    + exfalso. apply (Hmid _ i Hk); [discriminate | exact Hki | exact Hbp].
  - exfalso. apply (Hmid k i Hk); [intros _; exact Hne | exact Hki | exact Hbp].
Qed.

Lemma run_stops_at_breakpoint_witness :
  exists d',
    run_to_next_breakpoint session_at_10 = Done d'
    /\ current_instruction_index d' = 2%nat
    /\ execution_state d' = Paused
    /\ last_breakpoint_hit d' = Some 12.
Proof.
  eexists. split; [vm_compute; reflexivity|].
  match goal with |- current_instruction_index ?x = _ /\ _ =>
    pose proof (run_stops_at_breakpoint session_at_10 x) as H
  end.
  destruct H as (_ & _ & Hend); [vm_compute; reflexivity|].
  split; [reflexivity|].
  destruct Hend as [(Hp & i & Hi & _ & Hl) | (Hs & _)].
  - split; [exact Hp|]. rewrite Hl. 
    vm_compute in Hi. injection Hi as <-. reflexivity.
  - discriminate Hs.
Defined.

(** ** The directory history *)

Section History.
Import Explorer.

Lemma py_index_nonneg {A : Type} (l : list A) (i : Z) :
  0 <= i -> py_index l i = l !! Z.to_nat i.
Proof.
  intros Hi. unfold py_index. destruct (Z.leb_spec 0 i); [reflexivity | lia].
Qed.

Lemma py_prefix_nonneg {A : Type} (l : list A) (k : Z) :
  0 <= k -> py_prefix l k = take (Z.to_nat k) l.
Proof.
  intros Hk. unfold py_prefix. destruct (Z.leb_spec 0 k); [reflexivity | lia].
Qed.

(** Loading the directory the index points at changes neither the
    history nor the index. *)
Lemma load_here (h : list string) (idx : Z) (cd p : string) :
  0 <= idx ->
  h !! Z.to_nat idx = Some p ->
  load_directory p (Explorer h idx cd) = Loaded (Explorer h idx p).
Proof.
  intros Hidx Hp. unfold load_directory. cbn [history current_index].
  destruct (Z.eqb_spec idx (-1)); [lia|].
  rewrite py_index_nonneg, Hp by exact Hidx. rewrite String.eqb_refl. reflexivity.
Qed.

(** Loading another directory cuts the history after the index and adds
    the directory there. *)
Lemma load_new (h : list string) (idx : Z) (cd p q : string) :
  0 <= idx < Z.of_nat (length h) ->
  h !! Z.to_nat idx = Some q ->
  p <> q ->
  load_directory p (Explorer h idx cd)
  = Loaded (Explorer (take (Z.to_nat (idx + 1)) h ++ [p]) (idx + 1) p).
Proof.
  intros Hidx Hq Hne. unfold load_directory. cbn [history current_index].
  destruct (Z.eqb_spec idx (-1)); [lia|].
  rewrite py_index_nonneg, Hq by lia.
  destruct (String.eqb_spec p q); [contradiction|].
  unfold record_visit. cbn [history current_index].
  rewrite py_prefix_nonneg by lia. f_equal. f_equal.
  rewrite length_app, length_take. cbn [length]. lia.
Qed.

Lemma no_repeat_take (l : list string) :
  forall n, no_repeat l -> no_repeat (take n l).
Proof.
  induction l as [|a l IH]; intros n H; [destruct n; exact I|].
  destruct n as [|n]; [exact I|]. cbn [take firstn].
  destruct l as [|b l]; [destruct n; exact I|].
  destruct H as [Hab H]. specialize (IH n H).
  destruct n as [|n]; [exact I|]. cbn [take firstn] in IH |- *.
  split; [exact Hab | exact IH].
Qed.

Lemma no_repeat_snoc (l : list string) (x : string) :
  no_repeat l -> last l <> Some x -> no_repeat (l ++ [x]).
Proof.
  induction l as [|a l IH]; intros H Hl; [exact I|].
  destruct l as [|b l].
  - cbn. split; [|exact I]. intros ->. apply Hl. reflexivity.
  - destruct H as [Hab H]. cbn [app]. split; [exact Hab|].
    apply IH; [exact H|]. rewrite last_cons_cons in Hl. exact Hl.
Qed.

Lemma last_take {A : Type} (l : list A) (n : nat) :
  (n < length l)%nat -> last (take (S n) l) = l !! n.
Proof.
  revert n. induction l as [|a l IH]; intros n Hn; [cbn in Hn; lia|].
  destruct n as [|n]; [destruct l; reflexivity|].
  cbn [length] in Hn. specialize (IH n ltac:(lia)).
  change (take (S (S n)) (a :: l)) with (a :: take (S n) l).
  destruct l as [|b l]; [cbn in Hn; lia|].
  change (take (S n) (b :: l)) with (b :: take n l) in *.
  rewrite last_cons_cons. exact IH.
Qed.

Lemma load_cases (e : explorer) (path : string) :
  consistent e ->
  no_repeat (history e) ->
  exists e',
    load_directory path e = Loaded e'
    /\ consistent e'
    /\ no_repeat (history e')
    /\ current_dir e' = path.
Proof.
  destruct e as [h idx cd]. unfold consistent. cbn [history current_index current_dir].
  intros [Hidx Hcd] Hnr.
  destruct (decide (path = cd)) as [-> | Hne].
  - rewrite load_here by (lia || exact Hcd). eexists. split; [reflexivity|].
    cbn. auto.
  - rewrite (load_new h idx cd path cd Hidx Hcd Hne). eexists. split; [reflexivity|].
    cbn [history current_index current_dir].
    assert (Hlen : length (take (Z.to_nat (idx + 1)) h) = Z.to_nat (idx + 1))
      by (rewrite length_take; lia).
    split; [split|split; [|reflexivity]].
    + rewrite length_app, Hlen. cbn [length]. lia.
    + rewrite lookup_app_r by lia. rewrite Hlen, Nat.sub_diag. reflexivity.
    + apply no_repeat_snoc; [apply no_repeat_take; exact Hnr|].
      replace (Z.to_nat (idx + 1)) with (S (Z.to_nat idx)) by lia.
      rewrite last_take by lia. rewrite Hcd. congruence.
Qed.

(** X19.  The history stays usable.  The first [load_directory] records the
    directory at index 0.  From then on no method raises: each of
    [load_directory], [go_back], [go_forward], [go_up] and [refresh]
    returns with the index inside the history and pointing at the
    current directory, and never records a directory twice in a row. *)
Theorem history_stays_consistent (e : explorer) (path parent dir : string) :
  consistent e ->
  no_repeat (history e) ->
  load_directory path (fresh dir) = Loaded (Explorer [path] 0 path)
  /\ (exists e', load_directory path e = Loaded e'
                 /\ consistent e' /\ no_repeat (history e') /\ current_dir e' = path)
  /\ (exists e', go_back e = Loaded e' /\ consistent e' /\ no_repeat (history e'))
  /\ (exists e', go_forward e = Loaded e' /\ consistent e' /\ no_repeat (history e'))
  /\ (exists e', go_up parent e = Loaded e' /\ consistent e' /\ no_repeat (history e'))
  /\ refresh e = Loaded e.
Proof.
  intros Hc Hnr. split; [reflexivity|]. split; [apply load_cases; assumption|].
  destruct e as [h idx cd]. pose proof Hc as [Hidx Hcd].
  cbn [history current_index current_dir] in Hidx, Hcd.
  split; [|split; [|split]].
  - unfold go_back. cbn [history current_index current_dir].
    destruct (Z.ltb_spec 0 idx); [|eauto].
    destruct (lookup_lt_is_Some_2 h (Z.to_nat (idx - 1)) ltac:(lia)) as [p Hp].
    rewrite py_index_nonneg, Hp by lia. rewrite load_here by (lia || exact Hp).
    eexists. split; [reflexivity|]. split; [|exact Hnr].
    split; cbn; [lia | exact Hp].
  - unfold go_forward. cbn [history current_index current_dir].
    destruct (Z.ltb_spec idx (Z.of_nat (length h) - 1)); [|eauto].
    destruct (lookup_lt_is_Some_2 h (Z.to_nat (idx + 1)) ltac:(lia)) as [p Hp].
    rewrite py_index_nonneg, Hp by lia. rewrite load_here by (lia || exact Hp).
    eexists. split; [reflexivity|]. split; [|exact Hnr].
    split; cbn; [lia | exact Hp].
  - unfold go_up. cbn [current_dir].
    destruct (String.eqb parent cd); [eauto|].
    destruct (load_cases (Explorer h idx cd) parent Hc Hnr) as (e' & He & Hc' & Hn' & _).
    eauto.
  - unfold refresh. cbn [current_dir]. apply load_here; [lia | exact Hcd].
Qed.

Lemma history_stays_consistent_witness :
  go_back (Explorer ["/a"; "/a/b"] 1 "/a/b") = Loaded (Explorer ["/a"; "/a/b"] 0 "/a")
  /\ refresh (Explorer ["/a"; "/a/b"] 1 "/a/b") = Loaded (Explorer ["/a"; "/a/b"] 1 "/a/b").
Proof.
  destruct (history_stays_consistent (Explorer ["/a"; "/a/b"] 1 "/a/b") "/c" "/a" "/")
    as (_ & _ & _ & _ & _ & Hr).
  - split; [cbn; lia | reflexivity].
  - cbn. split; [discriminate | exact I].
  - split; [reflexivity | exact Hr].
Defined.

(** X20.  [Back] then [Forward], and [Forward] then [Back], return to the
    very state they started from. *)
Theorem back_forward_round_trip (e : explorer) :
  consistent e ->
  (0 < current_index e ->
   exists e1, go_back e = Loaded e1 /\ go_forward e1 = Loaded e)
  /\ (current_index e < Z.of_nat (length (history e)) - 1 ->
      exists e1, go_forward e = Loaded e1 /\ go_back e1 = Loaded e).
Proof.
  destruct e as [h idx cd]. intros [Hidx Hcd].
  cbn [history current_index current_dir] in *. split.
  - intros Hpos. unfold go_back. cbn [history current_index current_dir].
    destruct (Z.ltb_spec 0 idx); [|lia].
    destruct (lookup_lt_is_Some_2 h (Z.to_nat (idx - 1)) ltac:(lia)) as [p Hp].
    rewrite py_index_nonneg, Hp by lia. rewrite load_here by (lia || exact Hp).
    eexists. split; [reflexivity|].
    unfold go_forward. cbn [history current_index current_dir].
    destruct (Z.ltb_spec (idx - 1) (Z.of_nat (length h) - 1)); [|lia].
    replace (idx - 1 + 1) with idx by lia.
    rewrite py_index_nonneg, Hcd by lia. apply load_here; [lia | exact Hcd].
  - intros Hlt. unfold go_forward. cbn [history current_index current_dir].
    destruct (Z.ltb_spec idx (Z.of_nat (length h) - 1)); [|lia].
    destruct (lookup_lt_is_Some_2 h (Z.to_nat (idx + 1)) ltac:(lia)) as [p Hp].
    rewrite py_index_nonneg, Hp by lia. rewrite load_here by (lia || exact Hp).
    eexists. split; [reflexivity|].
    unfold go_back. cbn [history current_index current_dir].
    destruct (Z.ltb_spec 0 (idx + 1)); [|lia].
    replace (idx + 1 - 1) with idx by lia.
    rewrite py_index_nonneg, Hcd by lia. apply load_here; [lia | exact Hcd].
Qed.

Lemma back_forward_round_trip_witness :
  exists e1,
    go_back (Explorer ["/a"; "/a/b"; "/a/b/c"] 1 "/a/b") = Loaded e1
    /\ go_forward e1 = Loaded (Explorer ["/a"; "/a/b"; "/a/b/c"] 1 "/a/b").
Proof.
  apply (back_forward_round_trip (Explorer ["/a"; "/a/b"; "/a/b/c"] 1 "/a/b")).
  - split; [cbn; lia | reflexivity].
  - cbn. lia.
Defined.

(** X21.  Opening a directory other than the current one drops the entries
    after the index for good: the directory becomes the last entry,
    [Forward] then does nothing, and [Back] leads to the directory one
    came from. *)
Theorem visit_drops_forward_entries (e : explorer) (path : string) :
  consistent e ->
  path <> current_dir e ->
  let e' := Explorer (take (Z.to_nat (current_index e + 1)) (history e) ++ [path])
              (current_index e + 1) path in
  load_directory path e = Loaded e'
  /\ go_forward e' = Loaded e'
  /\ go_back e'
     = Loaded (Explorer (history e') (current_index e) (current_dir e)).
Proof.
  destruct e as [h idx cd]. intros [Hidx Hcd] Hne.
  cbn [history current_index current_dir] in *.
  assert (Hlen : length (take (Z.to_nat (idx + 1)) h) = Z.to_nat (idx + 1))
    by (rewrite length_take; lia).
  split; [apply (load_new h idx cd path cd Hidx Hcd Hne)|]. split.
  - unfold go_forward. cbn [history current_index current_dir].
    rewrite length_app, Hlen. cbn [length].
    destruct (Z.ltb_spec (idx + 1) (Z.of_nat (Z.to_nat (idx + 1) + 1) - 1));
      [lia | reflexivity].
  - unfold go_back. cbn [history current_index current_dir].
    destruct (Z.ltb_spec 0 (idx + 1)); [|lia].
    replace (idx + 1 - 1) with idx by lia.
    assert (Hat : (take (Z.to_nat (idx + 1)) h ++ [path]) !! Z.to_nat idx = Some cd).
    { rewrite lookup_app_l by lia. rewrite lookup_take_lt by lia. exact Hcd. }
    rewrite py_index_nonneg, Hat by lia. apply load_here; [lia | exact Hat].
Qed.

Lemma visit_drops_forward_entries_witness :
  load_directory "/x" (Explorer ["/a"; "/a/b"; "/a/b/c"] 1 "/a/b")
  = Loaded (Explorer ["/a"; "/a/b"; "/x"] 2 "/x").
Proof.
  apply (visit_drops_forward_entries (Explorer ["/a"; "/a/b"; "/a/b/c"] 1 "/a/b") "/x").
  - split; [cbn; lia | reflexivity].
  - discriminate.
Defined.

End History.

(** ** Listings put one after the other *)

Lemma split_lines_not_nil (s : string) : split_lines s <> [].
Proof.
  induction s as [|c r IH]; [discriminate|].
  cbn [split_lines]. destruct (Ascii.eqb c newline); [discriminate|].
  destruct (split_lines r); discriminate.
Qed.

Lemma split_lines_app (a b : string) :
  split_lines (a +:+ nl +:+ b) = split_lines a ++ split_lines b.
Proof.
  induction a as [|c a IH].
  - change ("" +:+ nl +:+ b) with (String newline b).
    cbn [split_lines]. rewrite Ascii.eqb_refl. reflexivity.
  - rewrite str_app_cons. cbn [split_lines]. rewrite IH.
    destruct (Ascii.eqb c newline); [reflexivity|].
    pose proof (split_lines_not_nil a) as Hne.
    destruct (split_lines a) as [|h t]; [contradiction | reflexivity].
Qed.

Lemma omap_imap_fmap (f : instruction -> instruction)
    (g g0 : nat -> string -> option instruction) (l : list string) :
  (forall i t, g i t = f <$> g0 i t) ->
  omap id (imap g l) = map f (omap id (imap g0 l)).
Proof.
  revert g g0. induction l as [|x l IH]; intros g g0 H; [reflexivity|].
  rewrite !imap_cons. cbn [omap list_omap].
  rewrite (IH (g ∘ S) (g0 ∘ S)) by (intros i t; apply H).
  rewrite H. destruct (g0 0%nat x); reflexivity.
Qed.

Lemma record_of_retag (cur tag : option Z) (t : string) :
  record_of (match tag with Some n => Some n | None => cur end) t
  = retag cur <$> record_of (match tag with Some n => Some n | None => None end) t.
Proof.
  unfold record_of. destruct (match_instruction t) as [[[off opc] g3]|];
    [|reflexivity].
  destruct tag; reflexivity.
Qed.

(** X5.  A listing made of two listings, one per method say, parses to the
    records of the first followed by those of the second; the source
    line in force at the end of the first stays in force in the second,
    whose records before its own first marker carry it. *)
Theorem parse_bytecode_concat (a b : string) :
  parse_bytecode (a +:+ nl +:+ b)
  = parse_bytecode a
    ++ map (retag (last_marker (split_lines a))) (parse_bytecode b).
Proof.
  unfold parse_bytecode, parse_lines.
  rewrite split_lines_app, fold_left_app.
  rewrite (parse_fold_spec (split_lines a)). cbn [app].
  rewrite (parse_fold_spec (split_lines b)), (parse_fold_spec (split_lines b) None).
  cbn [snd app]. f_equal.
  assert (Hcur : marker_after None (split_lines a) = last_marker (split_lines a))
    by (unfold marker_after; destruct (last_marker _); reflexivity).
  apply omap_imap_fmap. intros i t. cbv beta. rewrite Hcur.
  unfold marker_after. apply record_of_retag.
Qed.

(** ** A listing without instructions *)

(** X6.  A listing in which no line is an instruction line, the empty
    listing among them, gives an empty stream: there is no current
    instruction, [step] reports the end of the program at once, and
    [run_to_next_breakpoint] ends in state [Stopped] with the frame as
    [reset] left it. *)
Theorem listing_without_instructions (text : string) :
  count_instruction_lines (split_lines text) = 0%nat ->
  instructions (init text) = []
  /\ get_current_instruction_index (reset (init text)) = None
  /\ step (reset (init text))
     = Done (set_execution_state Stopped
               (say "End of program reached." (reset (init text))))
  /\ run_to_next_breakpoint (reset (init text))
     = Done (show_state (set_output [] (reset (init text)))).
Proof.
  intros Hcount.
  assert (Hnil : parse_bytecode text = []).
  { apply length_zero_iff_nil. unfold parse_bytecode.
    rewrite parse_lines_tagged. unfold tagged. rewrite tagged_length. exact Hcount. }
  split; [exact Hnil|]. split; [|split].
  - unfold get_current_instruction_index. cbn. rewrite Hnil. reflexivity.
  - apply step_at_end. cbn. rewrite Hnil. cbn. lia.
  - unfold run_to_next_breakpoint. cbn. rewrite Hnil. reflexivity.
Qed.

Lemma listing_without_instructions_witness :
  instructions (init ("Compiled from Foo.java" +:+ nl +:+ "  line 3: 0")) = []
  /\ get_current_instruction_index
       (reset (init ("Compiled from Foo.java" +:+ nl +:+ "  line 3: 0"))) = None.
Proof.
  destruct (listing_without_instructions
              ("Compiled from Foo.java" +:+ nl +:+ "  line 3: 0"))
    as (H1 & H2 & _); [vm_compute; reflexivity|].
  split; [exact H1 | exact H2].
Defined.

(** ** The trace of a step *)

Lemma binary_output op report (d d' : debugger) :
  binary op report d = Done d' ->
  output d `prefix_of` output d'
  /\ (length (stack d') <= length (stack d))%nat.
Proof.
  unfold binary.
  pose proof (pop_spec (stack d)) as H1.
  destruct (pop (stack d)) as [[b s1]|]; [|intros [= <-]; split; [reflexivity | lia]].
  pose proof (pop_spec s1) as H2.
  destruct (pop s1) as [[a s2]|]; [|intros [= <-]; split; [reflexivity | lia]].
  destruct (op a b); try discriminate. intros [= <-]. cbn.
  split; [apply prefix_app_r; reflexivity|].
  subst s1. rewrite H1, !length_app. cbn. lia.
Qed.

(** The interpreter only ever appends to the trace. *)
Lemma simulate_output (d d' : debugger) (instr : instruction) :
  simulate_instruction d instr = Done d' ->
  output d `prefix_of` output d'.
Proof.
  unfold simulate_instruction.
  repeat case_match.
  all: try (intros H'; apply binary_output in H' as [H' _]; exact H').
  all: intros Heq; first [discriminate Heq | injection Heq as <-].
  all: cbn; try reflexivity; apply prefix_app_r; reflexivity.
Qed.

(** X12.  The trace of a call of [step] that executes an instruction does not
    continue the earlier trace: it is the line of the instruction, its
    source line when it has one, what the interpreter reported, and the
    dump of the state the call leaves, the index already moved. *)
Theorem step_trace (d d' : debugger) (i : instruction) :
  instructions d !! current_instruction_index d = Some i ->
  step d = Done d' ->
  current_instruction_index d' = S (current_instruction_index d)
  /\ exists reported,
       output d' = step_header i ++ reported ++ state_dump d'.
Proof.
  intros Hi. unfold step.
  cbn [instructions set_execution_state current_instruction_index]. rewrite Hi.
  match goal with |- and_then (simulate_instruction ?d0 _) _ = _ -> _ =>
    destruct (simulate_instruction d0 i) as [d1| |] eqn:E; try discriminate;
    pose proof (simulate_output _ _ _ E) as [reported Hout];
    apply simulate_keeps_program in E as (_ & _ & _ & _ & Hx & _)
  end.
  cbn [and_then]. intros [= <-]. cbn. split; [rewrite Hx; destruct (line i); reflexivity|].
  exists reported. rewrite Hout. unfold step_header, state_dump. cbn.
  destruct (line i); cbn; rewrite <- ?app_assoc; reflexivity.
Qed.

Lemma step_trace_witness :
  exists d',
    step (set_output ["stale"] (reset (init ("line 4: 0" +:+ nl +:+ "0: bipush 7"))))
    = Done d'
    /\ output d'
       = ["Executing: 0: bipush 7"; "Source line: 4"; "Pushed constant 7 to stack";
          nl +:+ "Current State:"; "PC: 1"; "Stack: [7]"; "Variables: a=5, b=10"; ""].
Proof.
  eexists. split; [vm_compute; reflexivity|].
  match goal with |- output ?x = _ =>
    destruct (step_trace
                (set_output ["stale"]
                   (reset (init ("line 4: 0" +:+ nl +:+ "0: bipush 7"))))
                x (Instruction 0 "bipush" "7" (Some 4)))
      as (_ & reported & Hout)
  end.
  - vm_compute. reflexivity.
  - vm_compute. reflexivity.
  - reflexivity.
Defined.

(** ** Text building *)

(** X10.  The records of a string concatenation: a new text builder, a value
    pushed, [append], [toString], [println].  Together they print the
    decimal text of the value followed by a newline and leave the stack
    and the variables as they found them. *)
Theorem builder_prints_value (d : debugger) (n : Z)
    (o_new o_append o_string o_print : string) :
  contains "java/lang/StringBuilder" o_new = true ->
  contains "println" o_append = false ->
  contains "append" o_append = true ->
  contains "println" o_string = false ->
  contains "append" o_string = false ->
  contains "toString" o_string = true ->
  contains "println" o_print = true ->
  exists d',
    exec_all [Instruction 0 "new" o_new None;
              Instruction 3 "bipush" (pretty n) None;
              Instruction 5 "invokevirtual" o_append None;
              Instruction 8 "invokevirtual" o_string None;
              Instruction 11 "invokevirtual" o_print None] d
    = Done d'
    /\ program_output d' = program_output d ++ [pretty n +:+ nl]
    /\ stack d' = stack d
    /\ variables d' = variables d.
Proof.
  intros Hnew Ha1 Ha2 Hs1 Hs2 Hs3 Hp.
  cbn [exec_all]. unfold simulate_instruction at 1. cbn [opcode operands].
  cbn [String.eqb Ascii.eqb Bool.eqb andb]. rewrite Hnew. cbn [and_then].
  unfold simulate_instruction at 1. cbn [opcode operands].
  cbn [String.eqb Ascii.eqb Bool.eqb andb].
  rewrite strip_pretty, py_int_pretty. cbn [and_then].
  unfold simulate_instruction at 1. cbn [opcode operands].
  cbn [String.eqb Ascii.eqb Bool.eqb andb]. rewrite Ha1, Ha2.
  cbn [stack push say set_stack set_output set_current_instruction_index].
  rewrite <- app_assoc. cbn [app]. rewrite pop_two, pop_snoc. cbn [and_then].
  unfold simulate_instruction at 1. cbn [opcode operands].
  cbn [String.eqb Ascii.eqb Bool.eqb andb]. rewrite Hs1, Hs2, Hs3.
  cbn [stack push say set_stack set_output set_current_instruction_index].
  rewrite pop_snoc. cbn [and_then].
  unfold simulate_instruction at 1. cbn [opcode operands].
  cbn [String.eqb Ascii.eqb Bool.eqb andb]. rewrite Hp.
  cbn [stack push say set_stack set_output set_current_instruction_index].
  rewrite pop_snoc. cbn [and_then].
  eexists. split; [reflexivity|]. cbn. repeat split.
Qed.

Lemma builder_prints_value_witness :
  exists d',
    exec_all [Instruction 0 "new" "java/lang/StringBuilder" None;
              Instruction 3 "bipush" (pretty (-12)) None;
              Instruction 5 "invokevirtual" "append" None;
              Instruction 8 "invokevirtual" "toString" None;
              Instruction 11 "invokevirtual" "println" None] (reset (init ""))
    = Done d'
    /\ program_output d' = ["-12" +:+ nl].
Proof.
  destruct (builder_prints_value (reset (init "")) (-12)
              "java/lang/StringBuilder" "append" "toString" "println")
    as (d' & He & Hp & _); try reflexivity.
  exists d'. split; [exact He | exact Hp].
Defined.

(** ** Variables *)

Lemma dict_get_set (k k' : string) (v : value) (l : list (string * value)) :
  dict_get k' (dict_set k v l) = if String.eqb k k' then Some v else dict_get k' l.
Proof.
  induction l as [|[k0 v0] l IH]; cbn [dict_set dict_get].
  - destruct (String.eqb k k'); reflexivity.
  - destruct (String.eqb_spec k0 k) as [-> | Hne]; cbn [dict_get].
    + destruct (String.eqb k k'); reflexivity.
    + rewrite IH. destruct (String.eqb_spec k0 k') as [-> | Hne'];
        [|reflexivity].
      destruct (String.eqb_spec k k'); [congruence | reflexivity].
Qed.

Lemma dict_set_keys (k : string) (v : value) (l : list (string * value)) :
  map fst (dict_set k v l)
  = if bool_decide (k ∈ map fst l) then map fst l else map fst l ++ [k].
Proof.
  induction l as [|[k0 v0] l IH]; [reflexivity|].
  cbn [dict_set map fst]. destruct (String.eqb_spec k0 k) as [-> | Hne].
  - rewrite bool_decide_eq_true_2 by apply list_elem_of_here. reflexivity.
  - cbn [map fst]. rewrite IH. repeat case_bool_decide; try reflexivity.
    + exfalso. apply H0. apply list_elem_of_further. exact H.
    + exfalso. apply elem_of_cons in H0 as [-> | H0]; [congruence | contradiction].
Qed.

(** X9.  [istore_1] pops the top of the stack into the variable [a] and
    [istore_2] into [b]: the variable then reads as the popped value,
    every other variable reads as before, and the variables keep their
    order of display, a new one going last. *)
Theorem istore_assigns (d : debugger) (rest : list value) (v : value)
    (instr : instruction) (name : string) :
  stack d = rest ++ [v] ->
  opcode instr = "istore_1" /\ name = "a" \/ opcode instr = "istore_2" /\ name = "b" ->
  exists d',
    simulate_instruction d instr = Done d'
    /\ stack d' = rest
    /\ dict_get name (variables d') = Some v
    /\ (forall k, k <> name -> dict_get k (variables d') = dict_get k (variables d))
    /\ map fst (variables d')
       = if bool_decide (name ∈ map fst (variables d))
         then map fst (variables d)
         else map fst (variables d) ++ [name].
Proof.
  intros Hstack [[Hop ->] | [Hop ->]];
    unfold simulate_instruction; rewrite Hop;
    cbn [String.eqb Ascii.eqb Bool.eqb andb];
    rewrite Hstack, pop_snoc; (eexists; split; [reflexivity|]); cbn;
    (split; [reflexivity|]); rewrite dict_get_set, String.eqb_refl;
    (split; [reflexivity|]); (split; [|apply dict_set_keys]);
    intros k Hk; rewrite dict_get_set;
    match goal with |- context [String.eqb ?a k] =>
      destruct (String.eqb_spec a k); [congruence | reflexivity]
    end.
Qed.

Lemma istore_assigns_witness :
  exists d',
    simulate_instruction (set_stack [VInt 1; VInt 42] (reset (init "")))
      (Instruction 0 "istore_2" "" None) = Done d'
    /\ stack d' = [VInt 1]
    /\ variables d' = [("a", VInt 5); ("b", VInt 42)].
Proof.
  destruct (istore_assigns (set_stack [VInt 1; VInt 42] (reset (init "")))
              [VInt 1] (VInt 42) (Instruction 0 "istore_2" "" None) "b")
    as (d' & He & Hs & _); [reflexivity | right; split; reflexivity|].
  exists d'. split; [exact He|]. split; [exact Hs|].
  vm_compute in He. injection He as <-. reflexivity.
Defined.

(** ** Streams that cannot raise *)

Lemma steps_quiet_witness :
  exists d', steps 5 (reset (init ("0: nop" +:+ nl +:+ "1: getstatic #2"))) = Done d'.
Proof.
  apply (steps_quiet 5 (reset (init ("0: nop" +:+ nl +:+ "1: getstatic #2")))).
  repeat constructor.
Defined.

(** ** Class references *)

Section References.
Import Dependencies.

Lemma lazy_until_sep_token (t0 : ascii) (tail post : string) (c : ascii) :
  (forall x, occurs x tail -> is_sep x = false) ->
  is_sep c = true ->
  lazy_until_sep (String t0 tail +:+ String c post) = Some (String t0 tail).
Proof.
  revert t0. induction tail as [|t1 tail IH]; intros t0 Htail Hc.
  - change (String t0 "" +:+ String c post) with (String t0 (String c post)).
    cbn [lazy_until_sep]. rewrite Hc. reflexivity.
  - change (String t0 (String t1 tail) +:+ String c post)
      with (String t0 (String t1 tail +:+ String c post)).
    cbn [lazy_until_sep]. rewrite str_app_cons.
    rewrite (Htail t1) by (left; reflexivity).
    rewrite <- str_app_cons, IH; [reflexivity| |exact Hc].
    intros x Hx. apply Htail. right. exact Hx.
Qed.

Lemma search_skip (pre m : string) :
  ~ occurs "C" pre ->
  search class_ref_at (pre +:+ m) = search class_ref_at m.
Proof.
  induction pre as [|x pre IH]; intros Hpre; [reflexivity|].
  rewrite str_app_cons. cbn [search].
  assert (Hx : class_ref_at (String x (pre +:+ m)) = None).
  { unfold class_ref_at. rewrite eat_cons.
    destruct (Ascii.eqb_spec "C" x) as [<- | _]; [|reflexivity].
    exfalso. apply Hpre. left. reflexivity. }
  rewrite Hx. apply IH. intros H. apply Hpre. right. exact H.
Qed.

Lemma ref_line_mono (refs : gset string) (text g : string) :
  g ∈ refs -> g ∈ ref_line refs text.
Proof.
  intros H. unfold ref_line.
  destruct (contains "Class" text && negb (contains "java/lang" text));
    [|exact H].
  destruct (search class_ref_at text); [|exact H].
  apply elem_of_union. left. exact H.
Qed.

Lemma refs_fold_mono (ls : list string) (g : string) :
  forall refs, g ∈ refs -> g ∈ fold_left ref_line ls refs.
Proof.
  induction ls as [|l ls IH]; intros refs H; [exact H|].
  cbn [fold_left]. apply IH, ref_line_mono, H.
Qed.

Lemma refs_fold_line (ls : list string) (l g : string) :
  l ∈ ls ->
  contains "Class" l = true ->
  contains "java/lang" l = false ->
  search class_ref_at l = Some g ->
  forall refs, g ∈ fold_left ref_line ls refs.
Proof.
  intros Hin Hc Hj Hs. induction ls as [|x ls IH]; intros refs.
  - apply elem_of_nil in Hin. contradiction.
  - cbn [fold_left]. apply elem_of_cons in Hin as [<- | Hin]; [|apply IH; exact Hin].
    apply refs_fold_mono. unfold ref_line. rewrite Hc, Hj, Hs. cbn [negb andb].
    apply elem_of_union. right. apply elem_of_singleton. reflexivity.
Qed.

(** X22.  What [analyze_class_file] records for a line.  On a line that does
    not mention [java/lang] and has no [C] before its first [Class], the
    reference is the run of characters that follows [Class] and its
    spaces, up to the first space or slash: for the entry
    [#2 = Class #4 // Foo] of a constant pool it is the index [#4], not
    the name of the class. *)
Theorem class_reference_token (output pre ws tail post : string) (t0 c : ascii) :
  let line := pre +:+ "Class" +:+ ws +:+ String t0 tail +:+ String c post in
  line ∈ split_lines output ->
  contains "java/lang" line = false ->
  ~ occurs "C" pre ->
  is_empty ws = false ->
  (forall x, occurs x ws -> is_space x = true) ->
  is_space t0 = false ->
  (forall x, occurs x tail -> is_sep x = false) ->
  is_sep c = true ->
  search class_ref_at line = Some (String t0 tail)
  /\ String t0 tail ∈ class_refs output.
Proof.
  intros line Hin Hj Hpre Hws1 Hws2 Ht0 Htail Hc.
  assert (Hs : search class_ref_at line = Some (String t0 tail)).
  { unfold line. rewrite search_skip by exact Hpre.
    change ("Class" +:+ ?x) with (String "C" (String "l" (String "a" (String "s"
                                   (String "s" x))))).
    cbn [search]. unfold class_ref_at at 1.
    change (eat "Class" (String "C" (String "l" (String "a" (String "s"
              (String "s" ?x)))))) with (Some x).
    cbn [mbind option_bind].
    rewrite <- str_app_cons.
    rewrite many1_app_stop; [|exact Hws1|exact Hws2|rewrite str_app_cons; exact Ht0].
    cbn [mbind option_bind].
    destruct (String.rev ws); cbn [give_back];
      rewrite lazy_until_sep_token by assumption; reflexivity. }
  split; [exact Hs|].
  unfold class_refs. apply (refs_fold_line _ line); try assumption.
  unfold line, contains. 
  destruct (search (eat "Class") (pre +:+ "Class" +:+ ws +:+ String t0 tail
                                   +:+ String c post)) eqn:E; [reflexivity|].
  exfalso. clear -E.
  induction pre as [|x pre IH].
  - cbn in E. discriminate E.
  - rewrite str_app_cons in E. cbn [search] in E.
    destruct (eat "Class" (String x _)); [discriminate E | exact (IH E)].
Qed.

Lemma class_reference_token_witness :
  "#4" ∈ class_refs ("Constant pool:" +:+ nl
                     +:+ "   #2 = Class              #4             // Foo").
Proof.
  apply (class_reference_token
           ("Constant pool:" +:+ nl
            +:+ "   #2 = Class              #4             // Foo")
           "   #2 = " "              " "4" "            // Foo" "#" " ").
  - vm_compute. apply list_elem_of_further, list_elem_of_here.
  - vm_compute. reflexivity.
  - cbn. intuition discriminate.
  - reflexivity.
  - intros x Hx. cbn in Hx.
    repeat (destruct Hx as [<- | Hx]; [reflexivity|]). contradiction.
  - reflexivity.
  - intros x [<- | []]. reflexivity.
  - reflexivity.
Defined.

End References.
